(** * Kardenwort: lemma resolution, compound decomposition and deduplication

    A shallow embedding of the core of [kardenwort.py]: the override-rule
    matcher ([find_matching_override_in_context],
    [get_overridden_lemma_for_word], [get_overridden_lemma_for_compound_part]),
    the token normaliser ([correct_spacy_lemma], [format_lemma_capitalization]),
    the per-token compound decomposition, [deduplicate_lemmas] and the
    vocabulary accumulator of [process_parallel_text_files] and
    [process_single_text].

    Conventions.
    - A Python [str] is the [string] of its UTF-8 encoding; lengths,
      indices and slices count characters, not bytes. The methods that
      depend on the Unicode character database ([lower], [capitalize],
      [isupper], [strip]) are parameters ([PyStr.Unicode]).
    - A Python [dict] is a [gmap], a [set] of strings a duplicate-free list
      in insertion order together with an iteration order ([set_iter]) that
      the interpreter is free to choose.
    - [re.search], [re.fullmatch], the spaCy pipeline and the compound
      splitter are collaborators of the program: they are parameters.
      A call of a regular expression or of the splitter that raises
      returns [None]. *)

From Stdlib Require Import Ascii String.
From stdpp Require Import base option list gmap strings.

(** ** Python string primitives *)

Module PyStr.

(** *** Characters

    A [string] holds the UTF-8 encoding of the Python [str]: a character is
    a lead byte followed by its continuation bytes (the bytes from 128 to
    191), of which a lead byte up to 191 has none, up to 223 one, up to 239
    two and a greater one three. The operations by character are written on
    this encoding. *)

Definition is_continuation (c : ascii) : bool :=
  let n := nat_of_ascii c in (128 <=? n) && (n <? 192).

(** The number of bytes of the character whose first byte is [c]. *)
Definition char_width (c : ascii) : nat :=
  let n := nat_of_ascii c in
  if n <? 192 then 1 else if n <? 224 then 2 else if n <? 240 then 3 else 4.

(** The continuation bytes at the head of [s], at most [more] of them:
    taken, and dropped. *)
Fixpoint take_continuation (more : nat) (s : string) {struct more} : string :=
  match more with
  | O => EmptyString
  | S more' =>
      match s with
      | EmptyString => EmptyString
      | String c s' =>
          if is_continuation c then String c (take_continuation more' s')
          else EmptyString
      end
  end.

Fixpoint skip_continuation (more : nat) (s : string) {struct more} : string :=
  match more with
  | O => s
  | S more' =>
      match s with
      | EmptyString => s
      | String c s' => if is_continuation c then skip_continuation more' s' else s
      end
  end.

(** [s[0]] of a non-empty string. *)
Definition first_char (s : string) : string :=
  match s with
  | EmptyString => EmptyString
  | String c s' => String c (take_continuation (char_width c - 1) s')
  end.

(** [s[1:]] *)
Definition tail_chars (s : string) : string :=
  match s with
  | EmptyString => EmptyString
  | String c s' => skip_continuation (char_width c - 1) s'
  end.

(** [s[n:]] *)
Fixpoint drop (n : nat) (s : string) : string :=
  match n with
  | O => s
  | S n' => drop n' (tail_chars s)
  end.

Definition starts_with_continuation (s : string) : bool :=
  match s with
  | EmptyString => false
  | String c _ => is_continuation c
  end.

(** [list(s)]: the characters of [s]. A byte joins what follows it when
    that starts with a continuation byte. *)
Fixpoint chars (s : string) : list string :=
  match s with
  | EmptyString => []
  | String c s' =>
      match chars s' with
      | char :: rest =>
          if starts_with_continuation s' then String c char :: rest
          else String c EmptyString :: char :: rest
      | [] => [String c EmptyString]
      end
  end.

(** [len(s)] *)
Definition len (s : string) : nat := length (chars s).

Fixpoint all_continuation (s : string) : bool :=
  match s with
  | EmptyString => true
  | String c s' => is_continuation c && all_continuation s'
  end.

(** [s[:-1]]: the last character starts at the last byte that is not a
    continuation byte. *)
Fixpoint drop_last (s : string) : string :=
  match s with
  | EmptyString => EmptyString
  | String c s' => if all_continuation s' then EmptyString else String c (drop_last s')
  end.

(** *** Tests and cuts on exact bytes *)

Fixpoint any_char (p : ascii → bool) (s : string) : bool :=
  match s with
  | EmptyString => false
  | String c s' => p c || any_char p s'
  end.

(** [bool(s)]: a string is truthy when it is not empty. *)
Definition truthy (s : string) : bool :=
  match s with EmptyString => false | String _ _ => true end.

(** [s.startswith(p)] *)
Fixpoint startswith (s p : string) {struct p} : bool :=
  match p, s with
  | EmptyString, _ => true
  | String _ _, EmptyString => false
  | String a p', String b s' => if Ascii.eqb a b then startswith s' p' else false
  end.

(** [p in s] *)
Fixpoint contains (p s : string) : bool :=
  startswith s p ||
  match s with
  | EmptyString => false
  | String _ s' => contains p s'
  end.

Fixpoint last_byte (s : string) : option ascii :=
  match s with
  | EmptyString => None
  | String c EmptyString => Some c
  | String _ s' => last_byte s'
  end.

(** [s.endswith(c)] for a suffix [c] of one ASCII character. *)
Definition endswith_char (s : string) (c : ascii) : bool :=
  match last_byte s with
  | Some d => Ascii.eqb c d
  | None => false
  end.

(** [s.split(sep)] for a separator of one ASCII character: never an empty
    list. *)
Fixpoint split_go (sep : ascii) (cur : string) (s : string) : list string :=
  match s with
  | EmptyString => [String.rev cur]
  | String c s' =>
      if Ascii.eqb c sep
      then String.rev cur :: split_go sep EmptyString s'
      else split_go sep (String c cur) s'
  end.

Definition split (sep : ascii) (s : string) : list string :=
  split_go sep EmptyString s.

Fixpoint lstrip_by (p : ascii → bool) (s : string) : string :=
  match s with
  | EmptyString => EmptyString
  | String c s' => if p c then lstrip_by p s' else s
  end.

Definition strip_by (p : ascii → bool) (s : string) : string :=
  String.rev (lstrip_by p (String.rev (lstrip_by p s))).

(** [s.strip('-')] *)
Definition strip_hyphens (s : string) : string :=
  strip_by (Ascii.eqb "-"%char) s.

(** [x in xs] for a list of strings. *)
Definition in_list (x : string) (xs : list string) : bool :=
  bool_decide (x ∈ xs).

(** *** The methods that follow the Unicode character database

    [s.lower()], [s.capitalize()], [s.isupper()] and [s.strip()] depend on
    the case and white-space properties of every Unicode character. They are
    built-ins of the interpreter and are taken as they are: the program is
    modelled for any four functions in their place. *)
Class Unicode := {
  lower : string → string;
  capitalize : string → string;
  isupper : string → bool;
  strip : string → string
}.

(** [s[0].isupper()] for a non-empty [s]. *)
Definition first_isupper {unicode : Unicode} (s : string) : bool :=
  match s with
  | EmptyString => false
  | String _ _ => isupper (first_char s)
  end.

(** [any(c.isupper() for c in s)] *)
Definition any_isupper {unicode : Unicode} (s : string) : bool :=
  existsb isupper (chars s).

(** *** The built-ins on ASCII text

    What the four methods compute on the ASCII characters, every other
    character being left as it is. The examples are run with them, on
    strings in which Python leaves the other characters as they are, too. *)

Definition char_isupper (c : ascii) : bool :=
  let n := nat_of_ascii c in (65 <=? n) && (n <=? 90).

Definition char_islower (c : ascii) : bool :=
  let n := nat_of_ascii c in (97 <=? n) && (n <=? 122).

Definition char_lower (c : ascii) : ascii :=
  if char_isupper c then ascii_of_nat (nat_of_ascii c + 32) else c.

Definition char_upper (c : ascii) : ascii :=
  if char_islower c then ascii_of_nat (nat_of_ascii c - 32) else c.

(** The ASCII characters for which [isspace()] holds: tab to carriage
    return, the four separators from 28 to 31, and the space. *)
Definition char_isspace (c : ascii) : bool :=
  let n := nat_of_ascii c in
  ((9 <=? n) && (n <=? 13)) || ((28 <=? n) && (n <=? 32)).

Fixpoint ascii_lower (s : string) : string :=
  match s with
  | EmptyString => EmptyString
  | String c s' => String (char_lower c) (ascii_lower s')
  end.

(** First character upper-cased, the rest lower-cased. *)
Definition ascii_capitalize (s : string) : string :=
  match s with
  | EmptyString => EmptyString
  | String c s' => String (char_upper c) (ascii_lower s')
  end.

(** At least one cased character and no lower-case one. *)
Definition ascii_isupper (s : string) : bool :=
  any_char char_isupper s && negb (any_char char_islower s).

Definition ascii_strip (s : string) : string := strip_by char_isspace s.

Definition ascii_text : Unicode :=
  {| lower := ascii_lower;
     capitalize := ascii_capitalize;
     isupper := ascii_isupper;
     strip := ascii_strip |}.

End PyStr.

(** ** Python sets of strings *)

(** [variants.add(lemma)] on a set kept in insertion order. *)
Definition set_add (lemma : string) (variants : list string) : list string :=
  if PyStr.in_list lemma variants then variants else variants ++ [lemma].

(** [set(xs)] *)
Definition set_of_list (xs : list string) : list string :=
  fold_left (λ variants x, set_add x variants) xs [].

(** ** Override rules *)

(** A rule is the pair [(target_lemma, context_condition)] built by
    [load_lemma_override_rules]; the condition is [None] or a string. *)
Record OverrideRule := mkRule {
  target_lemma : string;
  context_condition : option string
}.

(** The dictionary of the five rule tables. *)
Record RuleSet := mkRuleSet {
  priority1 : gmap (string * string) (list OverrideRule);
  priority1_regex : list (string * string * OverrideRule);
  priority2 : gmap string (list OverrideRule);
  priority2_regex : list (string * OverrideRule);
  priority3 : gmap string (list OverrideRule)
}.

(** [r[1]] as a condition of an [if]: [None] and the empty string are falsy. *)
Definition has_context (r : OverrideRule) : bool :=
  match context_condition r with
  | Some c => PyStr.truthy c
  | None => false
  end.

Section RuleMatcher.

(** [re.search pattern text] and [re.fullmatch pattern text]: [Some b]
    tells whether a match was found, [None] is [re.error]. *)
Variable re_search : string → string → option bool.
Variable re_fullmatch : string → string → option bool.

(** The body of the loop of [find_matching_override_in_context]:
    does the rule return its lemma on this sentence. *)
Definition context_fires (r : OverrideRule) (context_sentence : string) : bool :=
  match context_condition r with
  | Some c =>
      if PyStr.truthy c then
        if PyStr.startswith c "regex:" then
          match re_search (PyStr.drop 6 c) context_sentence with
          | Some b => b
          | None => false
          end
        else PyStr.contains c context_sentence
      else false
  | None => false
  end.

Fixpoint first_firing (rules_with_context : list OverrideRule)
    (context_sentence : string) : option string :=
  match rules_with_context with
  | [] => None
  | r :: rest =>
      if context_fires r context_sentence then Some (target_lemma r)
      else first_firing rest context_sentence
  end.

Definition find_matching_override_in_context
    (rules : option (list OverrideRule)) (context_sentence : string)
    : option string :=
  match rules with
  | None | Some [] => None
  | Some rules =>
      let rules_with_context := filter (λ r, has_context r = true) rules in
      let rule_without_context := head (filter (λ r, has_context r = false) rules) in
      match first_firing rules_with_context context_sentence with
      | Some overridden_lemma => Some overridden_lemma
      | None =>
          match rule_without_context with
          | Some r => Some (target_lemma r)
          | None => None
          end
      end
  end.

(** The loop over [priority1_regex]: entries whose lemma condition equals
    the initial lemma and whose pattern matches the whole word; an invalid
    pattern is reported and the entry skipped. *)
Fixpoint loop_priority1_regex (entries : list (string * string * OverrideRule))
    (initial_lemma original_word context_sentence : string) : option string :=
  match entries with
  | [] => None
  | (spacy_lemma_condition, source_word_regex, override_rule) :: rest =>
      let continue :=
        loop_priority1_regex rest initial_lemma original_word context_sentence in
      if String.eqb spacy_lemma_condition initial_lemma then
        match re_fullmatch source_word_regex original_word with
        | Some true =>
            match find_matching_override_in_context (Some [override_rule]) context_sentence with
            | Some matched_lemma_from_regex1 => Some matched_lemma_from_regex1
            | None => continue
            end
        | Some false | None => continue
        end
      else continue
  end.

(** The loop over [priority2_regex]. *)
Fixpoint loop_priority2_regex (entries : list (string * OverrideRule))
    (word context_sentence : string) : option string :=
  match entries with
  | [] => None
  | (source_word_regex, override_rule) :: rest =>
      let continue := loop_priority2_regex rest word context_sentence in
      match re_fullmatch source_word_regex word with
      | Some true =>
          match find_matching_override_in_context (Some [override_rule]) context_sentence with
          | Some matched_lemma_from_regex2 => Some matched_lemma_from_regex2
          | None => continue
          end
      | Some false | None => continue
      end
  end.

Definition get_overridden_lemma_for_word
    (initial_lemma original_word : string) (override_rules : RuleSet)
    (context_sentence : string) : string :=
  let priority1_rules := priority1 override_rules !! (initial_lemma, original_word) in
  match find_matching_override_in_context priority1_rules context_sentence with
  | Some matched_lemma1 => matched_lemma1
  | None =>
  match loop_priority1_regex (priority1_regex override_rules)
          initial_lemma original_word context_sentence with
  | Some matched_lemma_from_regex1 => matched_lemma_from_regex1
  | None =>
  let priority2_rules := priority2 override_rules !! original_word in
  match find_matching_override_in_context priority2_rules context_sentence with
  | Some matched_lemma2 => matched_lemma2
  | None =>
  match loop_priority2_regex (priority2_regex override_rules)
          original_word context_sentence with
  | Some matched_lemma_from_regex2 => matched_lemma_from_regex2
  | None =>
  let priority3_rules := priority3 override_rules !! initial_lemma in
  match find_matching_override_in_context priority3_rules context_sentence with
  | Some matched_lemma3 => matched_lemma3
  | None => initial_lemma
  end end end end end.

Definition get_overridden_lemma_for_compound_part
    (initial_lemma part original_word : string) (override_rules : RuleSet)
    (context_sentence : string) : string :=
  let priority1_rules := priority1 override_rules !! (initial_lemma, original_word) in
  match find_matching_override_in_context priority1_rules context_sentence with
  | Some matched_lemma1 => matched_lemma1
  | None =>
  match loop_priority1_regex (priority1_regex override_rules)
          initial_lemma original_word context_sentence with
  | Some matched_lemma_from_regex1 => matched_lemma_from_regex1
  | None =>
  let priority2_rules := priority2 override_rules !! part in
  match find_matching_override_in_context priority2_rules context_sentence with
  | Some matched_lemma2 => matched_lemma2
  | None =>
  match loop_priority2_regex (priority2_regex override_rules)
          part context_sentence with
  | Some matched_lemma_from_regex2 => matched_lemma_from_regex2
  | None =>
  let priority3_rules := priority3 override_rules !! initial_lemma in
  match find_matching_override_in_context priority3_rules context_sentence with
  | Some matched_lemma3 => matched_lemma3
  | None => initial_lemma
  end end end end end.

(** *** The cascade as the specification words it

    Five tiers, each with the rule lists that are its candidates for the
    given keys; a tier's result is the first result of the context
    selection over its candidate lists, the cascade's result the first
    result of a tier, in the fixed order. *)
Inductive Tier :=
  | ExactLemmaWord | RegexLemmaWord | ExactWord | RegexWord | ExactLemma.

Definition tier_order : list Tier :=
  [ExactLemmaWord; RegexLemmaWord; ExactWord; RegexWord; ExactLemma].

Definition fullmatches (pattern word : string) : bool :=
  match re_fullmatch pattern word with
  | Some b => b
  | None => false
  end.

Definition tier_candidates (t : Tier) (override_rules : RuleSet)
    (initial_lemma word_or_part original_word : string)
    : list (list OverrideRule) :=
  match t with
  | ExactLemmaWord =>
      option_list (priority1 override_rules !! (initial_lemma, original_word))
  | RegexLemmaWord =>
      omap (λ e : string * string * OverrideRule,
              if String.eqb e.1.1 initial_lemma && fullmatches e.1.2 original_word
              then Some [e.2] else None)
           (priority1_regex override_rules)
  | ExactWord =>
      option_list (priority2 override_rules !! word_or_part)
  | RegexWord =>
      omap (λ e : string * OverrideRule,
              if fullmatches e.1 word_or_part then Some [e.2] else None)
           (priority2_regex override_rules)
  | ExactLemma =>
      option_list (priority3 override_rules !! initial_lemma)
  end.

Definition tier_result (override_rules : RuleSet)
    (initial_lemma word_or_part original_word context_sentence : string)
    (t : Tier) : option string :=
  head (omap (λ rules, find_matching_override_in_context (Some rules) context_sentence)
             (tier_candidates t override_rules initial_lemma word_or_part original_word)).

Definition cascade (override_rules : RuleSet)
    (initial_lemma word_or_part original_word context_sentence : string) : string :=
  default initial_lemma
    (head (omap (tier_result override_rules initial_lemma word_or_part
                   original_word context_sentence) tier_order)).

End RuleMatcher.

(** ** Tokens and options *)

(** What the program reads of a spaCy token. [morph_case] is
    [token.morph.get("Case", [])], [head_i] is [token.head.i]. *)
Record Token := mkToken {
  text : string;
  lemma_ : string;
  pos_ : string;
  dep_ : string;
  i : nat;
  head_i : nat;
  is_alpha : bool;
  like_url : bool;
  like_email : bool;
  is_sent_start : bool;
  morph_case : list string
}.

(** The command-line arguments the core reads. *)
Record Args := mkArgs {
  de_force_noun_capitalization : bool;
  force_proper_noun_capitalization : bool;
  de_gcs_part_singularization : string
}.

(** The keyword arguments of [extract_lemmas_from_sentence] and of the two
    [process_...] functions. *)
Record Options := mkOptions {
  de_gcs : bool;
  de_gcs_only_nouns : bool;
  de_gcs_combine_noun_modes : bool;
  de_fix_genitive : bool;
  de_gcs_mask_unknown_parts : bool;
  de_gcs_preserve_compound_word : bool;
  de_gcs_skip_merge_fractions : bool
}.

Definition is_noun_or_propn (token : Token) : bool :=
  PyStr.in_list (pos_ token) ["NOUN"; "PROPN"].

Definition _format_gcs_component_case {unicode : PyStr.Unicode} (component : string)
    : string :=
  if negb (PyStr.truthy component) || (PyStr.len component <? 2) then component
  else PyStr.first_char component +:+ PyStr.lower (PyStr.drop 1 component).

Section TokenNormalizer.

Context {unicode : PyStr.Unicode}.

(** [nlp.lang] and the spaCy pipeline applied to a text. *)
Variable lang : string.
Variable nlp_model : string → list Token.

(** [any(c.isupper() for c in s[1:])] *)
Definition has_internal_caps (s : string) : bool :=
  PyStr.any_isupper (PyStr.drop 1 s).

(** [s.isupper() and len(s) > 1] *)
Definition is_all_caps (s : string) : bool :=
  PyStr.isupper s && (1 <? PyStr.len s).

Definition lemmatize_compound_part (part : string) (de_dictionary : gset string)
    : string :=
  if negb (PyStr.truthy part) then ""
  else if is_all_caps part || has_internal_caps part then part
  else
    match nlp_model part with
    | [] => ""
    | token :: _ =>
        if negb (is_noun_or_propn token) then lemma_ token
        else
          let spacy_lemma := PyStr.capitalize (lemma_ token) in
          let capitalized_part := PyStr.capitalize part in
          if bool_decide (spacy_lemma ∈ de_dictionary) then spacy_lemma
          else if bool_decide (capitalized_part ∈ de_dictionary) then capitalized_part
          else spacy_lemma
    end.

Definition correct_spacy_lemma (token : Token) (de_dictionary : gset string)
    (fix_genitive : bool) : string :=
  let spacy_lemma := lemma_ token in
  if fix_genitive && String.eqb lang "de" && is_noun_or_propn token
     && PyStr.in_list "Gen" (morph_case token)
  then
    if PyStr.endswith_char spacy_lemma "s" && (1 <? PyStr.len spacy_lemma)
    then
      let lemma_without_genitive_s := PyStr.drop_last spacy_lemma in
      if bool_decide (PyStr.capitalize lemma_without_genitive_s ∈ de_dictionary)
      then lemma_without_genitive_s
      else spacy_lemma
    else spacy_lemma
  else spacy_lemma.

Definition format_lemma_capitalization (token : Token) (initial_lemma : string)
    (args : Args) : string :=
  if like_url token || like_email token then PyStr.lower initial_lemma
  else
    let source_token_text := text token in
    if is_all_caps source_token_text || has_internal_caps source_token_text
    then source_token_text
    else if de_force_noun_capitalization args && String.eqb lang "de"
            && is_noun_or_propn token
    then PyStr.capitalize initial_lemma
    else if force_proper_noun_capitalization args && String.eqb (pos_ token) "PROPN"
    then PyStr.capitalize initial_lemma
    else if is_sent_start token && negb (is_noun_or_propn token)
    then initial_lemma
    else initial_lemma.

(** [find_separable_verb_particle_pairs]: the particle of each governing
    verb, a later particle of the same verb replacing an earlier one. *)
Definition find_separable_verb_particle_pairs (document : list Token)
    : gmap nat Token :=
  fold_left (λ particle_map token,
               if String.eqb (dep_ token) "svp"
               then <[head_i token := token]> particle_map
               else particle_map)
            document ∅.

End TokenNormalizer.

(** ** Compound decomposition of one token *)

(** How the [try] block of the automaton split ends: normally, with the
    candidate list and the [was_split] flag it leaves, or in the handler,
    with the candidate list as it was when the error was raised. *)
Inductive TryOutcome :=
  | Completed (lemmas_for_current_token : list string) (was_split : bool)
  | Excepted (lemmas_for_current_token : list string).

Section Decomposition.

Context {unicode : PyStr.Unicode}.

Variable re_search : string → string → option bool.
Variable re_fullmatch : string → string → option bool.
Variable lang : string.
Variable nlp_model : string → list Token.

(** The compound splitter: the loaded automaton, [comp_split.dissect] and
    [comp_split.merge_fractions]; [None] when the call raises. *)
Variable Automaton : Type.
Variable dissect : string → Automaton → bool → bool → bool → option (list string).
Variable merge_fractions : list string → option (list string).

(** The order in which a set of strings, given by its elements in insertion
    order, is iterated. *)
Variable set_iter : list string → list string.

Local Abbreviation for_word := (get_overridden_lemma_for_word re_search re_fullmatch).
Local Abbreviation for_compound_part :=
  (get_overridden_lemma_for_compound_part re_search re_fullmatch).

(** The default lemma of a token and the word form used for the override
    lookups; [particle] is the entry of the separable-verb map, if any. *)
Definition default_lemma_and_form (token : Token) (particle : option Token)
    (de_dictionary : gset string) (args : Args) (opts : Options)
    : string * string :=
  match particle with
  | Some particle =>
      (PyStr.lower (PyStr.lower (text particle) +:+ lemma_ token),
       text token +:+ " " +:+ text particle)
  | None =>
      let spacy_lemma :=
        correct_spacy_lemma lang token de_dictionary (de_fix_genitive opts) in
      (format_lemma_capitalization lang token spacy_lemma args, text token)
  end.

(** The loop over the parts of a hyphenated token. *)
Fixpoint hyphen_parts_loop (hyphenated_parts : list string) (token_text : string)
    (de_dictionary : gset string) (lemma_override_rules : RuleSet)
    (sentence_text : string) (lemmas_for_current_token : list string)
    : list string :=
  match hyphenated_parts with
  | [] => lemmas_for_current_token
  | part :: rest =>
      let part := PyStr.strip part in
      if negb (PyStr.truthy part) || (PyStr.len part <=? 1) then
        hyphen_parts_loop rest token_text de_dictionary lemma_override_rules
          sentence_text lemmas_for_current_token
      else
        let initial_part_lemma := lemmatize_compound_part nlp_model part de_dictionary in
        let processed_part_lemma :=
          for_compound_part initial_part_lemma part token_text
            lemma_override_rules sentence_text in
        hyphen_parts_loop rest token_text de_dictionary lemma_override_rules
          sentence_text
          (if PyStr.truthy processed_part_lemma
           then lemmas_for_current_token ++ [processed_part_lemma]
           else lemmas_for_current_token)
  end.

(** The loop over the components the automaton split returned. *)
Fixpoint gcs_components_loop (components : list string) (token_text : string)
    (de_dictionary : gset string) (lemma_override_rules : RuleSet)
    (sentence_text : string) (lemmas_for_current_token : list string)
    : list string :=
  match components with
  | [] => lemmas_for_current_token
  | raw_component :: rest =>
      let component := PyStr.strip_hyphens raw_component in
      if negb (PyStr.truthy component) || (PyStr.len component <? 3) then
        gcs_components_loop rest token_text de_dictionary lemma_override_rules
          sentence_text lemmas_for_current_token
      else
        let initial_part_lemma :=
          lemmatize_compound_part nlp_model component de_dictionary in
        let overridden_part_lemma :=
          for_compound_part initial_part_lemma component token_text
            lemma_override_rules sentence_text in
        let processed_part_lemma := _format_gcs_component_case overridden_part_lemma in
        gcs_components_loop rest token_text de_dictionary lemma_override_rules
          sentence_text
          (if PyStr.truthy processed_part_lemma
           then lemmas_for_current_token ++ [processed_part_lemma]
           else lemmas_for_current_token)
  end.

(** The calls of the splitter: [split_components], or [None] when one of
    the calls raises. *)
Definition gcs_split_components (token : Token) (gcs_automaton : Automaton)
    (args : Args) (opts : Options) : option (list string) :=
  let word_to_split := text token in
  let make_singular_flag :=
    if String.eqb (de_gcs_part_singularization args) "none" then false
    else if String.eqb (de_gcs_part_singularization args) "all" then true
    else is_noun_or_propn token in
  let mask_unknown := de_gcs_mask_unknown_parts opts in
  if de_gcs_combine_noun_modes opts then
    dissection1 ← dissect word_to_split gcs_automaton make_singular_flag true mask_unknown;
    merged1 ← merge_fractions dissection1;
    dissection2 ← dissect word_to_split gcs_automaton make_singular_flag false mask_unknown;
    merged2 ← merge_fractions dissection2;
    if de_gcs_skip_merge_fractions opts then
      Some (merged1 ++ merged2 ++ dissection1 ++ dissection2)
    else
      merged1' ← merge_fractions dissection1;
      merged2' ← merge_fractions dissection2;
      Some (merged1 ++ merged2 ++ merged1' ++ merged2')
  else
    dissection ← dissect word_to_split gcs_automaton make_singular_flag
                   (de_gcs_only_nouns opts) mask_unknown;
    if de_gcs_skip_merge_fractions opts then Some dissection
    else merge_fractions dissection.

(** The body of the [try] block, entered with [was_split = False]. *)
Definition gcs_try_body (token : Token) (gcs_automaton : Automaton)
    (base_lemma : string) (de_dictionary : gset string)
    (lemma_override_rules : RuleSet) (sentence_text : string)
    (args : Args) (opts : Options) (lemmas_for_current_token : list string)
    : TryOutcome :=
  match gcs_split_components token gcs_automaton args opts with
  | None => Excepted lemmas_for_current_token
  | Some split_components =>
      if 1 <? length split_components then
        let lemmas :=
          if de_gcs_preserve_compound_word opts
          then lemmas_for_current_token ++ [base_lemma]
          else lemmas_for_current_token in
        Completed
          (gcs_components_loop (set_iter (set_of_list split_components))
             (text token) de_dictionary lemma_override_rules sentence_text lemmas)
          true
      else Completed lemmas_for_current_token false
  end.

Definition hyphen_gate (token : Token) (opts : Options) : bool :=
  de_gcs opts && PyStr.contains "-" (text token)
  && negb (like_url token || like_email token).

Definition automaton_gate (token : Token) (gcs_automaton : option Automaton)
    (language : string) (de_gcs_pos_tags : list string) (opts : Options) : bool :=
  de_gcs opts && bool_decide (is_Some gcs_automaton) && String.eqb language "de"
  && negb (like_url token || like_email token)
  && (3 <? PyStr.len (text token))
  && PyStr.in_list (pos_ token) de_gcs_pos_tags.

(** The candidate list of one processed token, as it is handed to
    [deduplicate_lemmas], with the token's [source_word_form]. *)
Definition lemmas_for_current_token (token : Token) (particle : option Token)
    (sentence_text : string) (language : string) (de_dictionary : gset string)
    (lemma_override_rules : RuleSet) (de_gcs_pos_tags : list string)
    (gcs_automaton : option Automaton) (args : Args) (opts : Options)
    : list string * string :=
  let '(default_lemma, source_word_form) :=
    default_lemma_and_form token particle de_dictionary args opts in
  let base_lemma :=
    for_word default_lemma source_word_form lemma_override_rules sentence_text in
  let '(lemmas, was_split) :=
    if hyphen_gate token opts then
      (hyphen_parts_loop (PyStr.split "-" (text token)) (text token)
         de_dictionary lemma_override_rules sentence_text
         (if de_gcs_preserve_compound_word opts then [base_lemma] else []),
       true)
    else
      match gcs_automaton with
      | Some automaton =>
          if automaton_gate token gcs_automaton language de_gcs_pos_tags opts then
            match gcs_try_body token automaton base_lemma de_dictionary
                    lemma_override_rules sentence_text args opts [] with
            | Completed lemmas was_split => (lemmas, was_split)
            | Excepted lemmas => (lemmas, false)
            end
          else ([], false)
      | None => ([], false)
      end in
  (if was_split then lemmas else lemmas ++ [base_lemma], source_word_form).

End Decomposition.

(** ** Deduplication of case variants *)

Section Deduplicator.

Context {unicode : PyStr.Unicode}.

Variable set_iter : list string → list string.

(** [lemmas_grouped_by_lowercase]: a dict from the lower-cased lemma to
    the set of its variants; a dict keeps its keys in insertion order. *)
Fixpoint group_add (lower_lemma lemma : string)
    (groups : list (string * list string)) : list (string * list string) :=
  match groups with
  | [] => [(lower_lemma, set_add lemma [])]
  | (key, variants) :: rest =>
      if String.eqb key lower_lemma
      then (key, set_add lemma variants) :: rest
      else (key, variants) :: group_add lower_lemma lemma rest
  end.

Definition group_step (groups : list (string * list string)) (lemma : string)
    : list (string * list string) :=
  if negb (PyStr.truthy lemma) then groups
  else group_add (PyStr.lower lemma) lemma groups.

Definition group_by_lowercase (candidate_lemmas : list string)
    : list (string * list string) :=
  fold_left group_step candidate_lemmas [].

(** The body of the second loop: what one group appends to [final_lemmas]. *)
Definition chosen_variant (capitalization_variants : list string) : list string :=
  let first_of_set :=
    match set_iter capitalization_variants with
    | v :: _ => [v]
    | [] => []
    end in
  match List.find PyStr.first_isupper (set_iter capitalization_variants) with
  | Some capitalized_variant =>
      if PyStr.truthy capitalized_variant then [capitalized_variant]
      else first_of_set
  | None => first_of_set
  end.

Definition deduplicate_lemmas (candidate_lemmas : list string) : list string :=
  concat (map (λ group, chosen_variant group.2)
              (group_by_lowercase candidate_lemmas)).

End Deduplicator.

(** ** Specification-side notions of the deduplication *)

(** The groups built from the candidates seen so far: one group per key,
    no group empty, every member a non-empty candidate whose lower-cased
    form is the key, and every non-empty candidate in the group of its
    lower-cased form. *)
Definition groups_ok {unicode : PyStr.Unicode} (seen : list string)
    (groups : list (string * list string)) : Prop :=
  NoDup groups.*1
  ∧ (∀ k variants, (k, variants) ∈ groups →
       variants ≠ [] ∧ ∀ v, v ∈ variants → v ∈ seen ∧ v ≠ "" ∧ PyStr.lower v = k)
  ∧ (∀ x, x ∈ seen → x ≠ "" →
       ∃ variants, (PyStr.lower x, variants) ∈ groups ∧ x ∈ variants).

(** Deduplication as the specification words it: every candidate has a
    representative of its lower-case class in the output. *)
Definition every_class_represented {unicode : PyStr.Unicode}
    (set_iter : list string → list string) (candidate_lemmas : list string) : Prop :=
  ∀ x, x ∈ candidate_lemmas →
    ∃ y, y ∈ deduplicate_lemmas set_iter candidate_lemmas
         ∧ PyStr.lower y = PyStr.lower x.

(** ** The accumulated vocabulary *)

(** The two dictionaries filled side by side by [process_parallel_text_files]
    and [process_single_text]; a location is the index and text of the unit. *)
Record Vocabulary := mkVocabulary {
  lemma_to_shortest_form : gmap string string;
  lemma_to_sentence_info : gmap string (nat * string)
}.

Definition empty_vocabulary : Vocabulary := mkVocabulary ∅ ∅.

(** The body of the loop over [deduplicated_lemmas]. *)
Definition merge_lemma (source_word_form : string) (location : nat * string)
    (vocabulary : Vocabulary) (lemma : string) : Vocabulary :=
  if PyStr.truthy lemma then
    match lemma_to_shortest_form vocabulary !! lemma with
    | None =>
        mkVocabulary (<[lemma := source_word_form]> (lemma_to_shortest_form vocabulary))
                     (<[lemma := location]> (lemma_to_sentence_info vocabulary))
    | Some shortest =>
        if PyStr.len source_word_form <? PyStr.len shortest
        then mkVocabulary (<[lemma := source_word_form]> (lemma_to_shortest_form vocabulary))
                          (lemma_to_sentence_info vocabulary)
        else vocabulary
    end
  else vocabulary.

(** The merge of one token's deduplicated lemmas. *)
Definition merge_token (vocabulary : Vocabulary) (deduplicated_lemmas : list string)
    (source_word_form : string) (location : nat * string) : Vocabulary :=
  fold_left (merge_lemma source_word_form location) deduplicated_lemmas vocabulary.

Section Extractor.

Context {unicode : PyStr.Unicode}.

Variable re_search : string → string → option bool.
Variable re_fullmatch : string → string → option bool.
Variable lang : string.
Variable nlp_model : string → list Token.
Variable Automaton : Type.
Variable dissect : string → Automaton → bool → bool → bool → option (list string).
Variable merge_fractions : list string → option (list string).
Variable set_iter : list string → list string.

Variable language : string.
Variable de_dictionary : gset string.
Variable lemma_override_rules : RuleSet.
Variable de_gcs_pos_tags : list string.
Variable gcs_automaton : option Automaton.
Variable args : Args.
Variable opts : Options.

(** Is the token one the loops process: not the particle of a separable
    verb, and alphabetic or hyphenated. *)
Definition is_processed (separable_verb_map : gmap nat Token) (token : Token) : bool :=
  negb (bool_decide (i token ∈ (i <$> (map_to_list separable_verb_map).*2)))
  && (is_alpha token || PyStr.contains "-" (text token)).

(** The deduplicated lemmas of one processed token and its word form. *)
Definition token_lemmas (separable_verb_map : gmap nat Token) (token : Token)
    (sentence_text : string) : list string * string :=
  let '(lemmas, source_word_form) :=
    lemmas_for_current_token re_search re_fullmatch lang nlp_model Automaton
      dissect merge_fractions set_iter token (separable_verb_map !! i token)
      sentence_text language de_dictionary lemma_override_rules de_gcs_pos_tags
      gcs_automaton args opts in
  (deduplicate_lemmas set_iter lemmas, source_word_form).

(** [extract_lemmas_from_sentence], up to [final_lemmas]: the set that
    the function then sorts. *)
Definition final_lemmas (sentence_text : string) : gset string :=
  let sentence_doc := nlp_model sentence_text in
  let separable_verb_map := find_separable_verb_particle_pairs sentence_doc in
  fold_left (λ (final : gset string) token,
               if is_processed separable_verb_map token
               then final ∪ list_to_set (token_lemmas separable_verb_map token sentence_text).1
               else final)
            sentence_doc ∅.

(** One text unit of the vocabulary loop of [process_parallel_text_files]
    and [process_single_text]. *)
Definition process_unit (vocabulary : Vocabulary) (unit_index : nat)
    (unit_text : string) : Vocabulary :=
  let doc := nlp_model unit_text in
  let separable_verb_map := find_separable_verb_particle_pairs doc in
  fold_left (λ vocabulary token,
               if is_processed separable_verb_map token then
                 let '(deduplicated_lemmas, source_word_form) :=
                   token_lemmas separable_verb_map token unit_text in
                 merge_token vocabulary deduplicated_lemmas source_word_form
                   (unit_index, unit_text)
               else vocabulary)
            doc vocabulary.

(** The loop over the enumerated text units, from a given index on. *)
Fixpoint process_units (vocabulary : Vocabulary) (unit_index : nat)
    (text_units : list string) : Vocabulary :=
  match text_units with
  | [] => vocabulary
  | unit_text :: rest =>
      process_units (process_unit vocabulary unit_index unit_text) (S unit_index) rest
  end.

End Extractor.

(** ** Specification-side notions of the vocabulary *)

(** The two dictionaries hold the same lemmas. *)
Definition vocabulary_wf (vocabulary : Vocabulary) : Prop :=
  dom (lemma_to_shortest_form vocabulary) = dom (lemma_to_sentence_info vocabulary).

(** [after] continues [before]: every lemma of [before] is in [after] with
    the location it had, and with the surface form it had or a strictly
    shorter one. *)
Definition vocabulary_extends (before after : Vocabulary) : Prop :=
  (∀ lemma location,
     lemma_to_sentence_info before !! lemma = Some location →
     lemma_to_sentence_info after !! lemma = Some location)
  ∧ (∀ lemma form,
       lemma_to_shortest_form before !! lemma = Some form →
       ∃ form', lemma_to_shortest_form after !! lemma = Some form'
         ∧ (form' = form ∨ PyStr.len form' < PyStr.len form)).

(** ** Specification-side notions of the rule matcher *)

Section RuleMatcherSpec.

Variable re_search : string → string → option bool.

(** A rule's context condition matches a sentence: a regular expression
    (marked by the prefix [regex:]) by a search that finds it somewhere in
    the sentence, any other condition by occurring in the sentence. *)
Definition condition_matches (r : OverrideRule) (sentence : string) : Prop :=
  ∃ c, context_condition r = Some c ∧ c ≠ "" ∧
    ((∃ pattern, c = "regex:" +:+ pattern ∧ re_search pattern sentence = Some true)
     ∨ ((∀ pattern, c ≠ "regex:" +:+ pattern)
        ∧ ∃ before after, sentence = before +:+ c +:+ after)).

(** The fallback of the context selection as the specification words it:
    when no conditioned entry matches, the result is the target of the
    unconditioned entry if there is exactly one, and nothing otherwise. *)
Definition fallback_only_when_unique (rules : list OverrideRule)
    (sentence : string) : Prop :=
  (∀ r, r ∈ rules → ¬ condition_matches r sentence) →
  match filter (λ r, has_context r = false) rules with
  | [r] => find_matching_override_in_context re_search (Some rules) sentence
           = Some (target_lemma r)
  | _ => find_matching_override_in_context re_search (Some rules) sentence = None
  end.

End RuleMatcherSpec.

(** Regular expressions without metacharacters, for the examples: such a
    pattern is found by a search when it occurs in the text, and matches a
    whole word when it equals it. *)
Definition literal_search (pattern text : string) : option bool :=
  Some (PyStr.contains pattern text).

Definition literal_fullmatch (pattern word : string) : option bool :=
  Some (String.eqb pattern word).

(** A rule list for the examples: two conditioned entries, one literal and
    one regular expression, followed by two unconditioned ones. *)
Definition example_rules : list OverrideRule :=
  [ mkRule "Lauf" (Some "der Lauf");
    mkRule "laufen" (Some "regex:schnell");
    mkRule "gehen" None;
    mkRule "rennen" None ].


(** ** Specification-side notions of the bridge *)

Section BridgeSpec.

Context {unicode : PyStr.Unicode}.

Variable re_search : string → string → option bool.
Variable re_fullmatch : string → string → option bool.
Variable lang : string.
Variable nlp_model : string → list Token.

(** The resolved base lemma of a token. *)
Definition base_lemma (token : Token) (particle : option Token)
    (sentence_text : string) (de_dictionary : gset string)
    (lemma_override_rules : RuleSet) (args : Args) (opts : Options) : string :=
  let '(default_lemma, source_word_form) :=
    default_lemma_and_form lang token particle de_dictionary args opts in
  get_overridden_lemma_for_word re_search re_fullmatch default_lemma
    source_word_form lemma_override_rules sentence_text.

(** The lemma of a part of a token: the part, lemmatised on its own and
    resolved as a compound part of the token. *)
Definition resolved_part (part token_text : string) (de_dictionary : gset string)
    (lemma_override_rules : RuleSet) (sentence_text : string) : string :=
  get_overridden_lemma_for_compound_part re_search re_fullmatch
    (lemmatize_compound_part nlp_model part de_dictionary)
    part token_text lemma_override_rules sentence_text.

(** [lemma] is what one of the [components] returned by the splitter
    contributes: the component without its boundary hyphens has three
    characters or more, its resolved lemma is not empty, and [lemma] is that
    resolved lemma with its first character kept and the characters after it
    lower-cased (a resolved lemma of one character has none after it). *)
Definition component_lemma (components : list string) (token_text : string)
    (de_dictionary : gset string) (lemma_override_rules : RuleSet)
    (sentence_text : string) (lemma : string) : Prop :=
  ∃ raw_component resolved,
    raw_component ∈ components
    ∧ 3 ≤ PyStr.len (PyStr.strip_hyphens raw_component)
    ∧ resolved = resolved_part (PyStr.strip_hyphens raw_component) token_text
                   de_dictionary lemma_override_rules sentence_text
    ∧ resolved ≠ ""
    ∧ resolved = PyStr.first_char resolved +:+ PyStr.drop 1 resolved
    ∧ ((PyStr.len resolved < 2 ∧ lemma = resolved)
       ∨ (2 ≤ PyStr.len resolved
          ∧ lemma = PyStr.first_char resolved +:+ PyStr.lower (PyStr.drop 1 resolved))).

(** [lemma] is what a part of a hyphenated token contributes: the part,
    stripped, has more than one character and [lemma] is its resolved lemma,
    which is not empty. *)
Definition hyphen_part_lemma (token_text : string) (de_dictionary : gset string)
    (lemma_override_rules : RuleSet) (sentence_text : string) (lemma : string) : Prop :=
  ∃ part,
    part ∈ PyStr.split "-" token_text
    ∧ 1 < PyStr.len (PyStr.strip part)
    ∧ lemma = resolved_part (PyStr.strip part) token_text de_dictionary
                lemma_override_rules sentence_text
    ∧ lemma ≠ "".

(** [lemma] is what a component of the automaton split contributes, with
    the case given by [_format_gcs_component_case]. *)
Definition automaton_part_lemma (components : list string) (token_text : string)
    (de_dictionary : gset string) (lemma_override_rules : RuleSet)
    (sentence_text : string) (lemma : string) : Prop :=
  ∃ raw_component,
    raw_component ∈ components
    ∧ 3 ≤ PyStr.len (PyStr.strip_hyphens raw_component)
    ∧ lemma = _format_gcs_component_case
                (resolved_part (PyStr.strip_hyphens raw_component) token_text
                   de_dictionary lemma_override_rules sentence_text)
    ∧ lemma ≠ "".

End BridgeSpec.

(** ** The claims of the specification on the normaliser and the bridge *)

(** Genitive correction as the specification words it: under its
    conditions the result is the capitalised trimmed lemma. *)
Definition genitive_gives_capitalized {unicode : PyStr.Unicode} (lang : string)
    (token : Token) (de_dictionary : gset string) : Prop :=
  lang = "de" →
  is_noun_or_propn token = true →
  "Gen" ∈ morph_case token →
  PyStr.endswith_char (lemma_ token) "s" = true →
  1 < PyStr.len (lemma_ token) →
  PyStr.capitalize (PyStr.drop_last (lemma_ token)) ∈ de_dictionary →
  correct_spacy_lemma lang token de_dictionary true
  = PyStr.capitalize (PyStr.drop_last (lemma_ token)).

(** A lemma in the case the specification asks of a component: the first
    character upper-case, no upper-case character after it. *)
Definition title_cased {unicode : PyStr.Unicode} (lemma : string) : Prop :=
  PyStr.first_isupper lemma = true
  ∧ PyStr.any_isupper (PyStr.drop 1 lemma) = false.

(** ** An environment for the examples *)

(** An analyzer that returns its text as one adjective with the lower-cased
    text as lemma. *)
Definition example_nlp (word : string) : list Token :=
  [mkToken word (PyStr.ascii_lower word) "ADJ" "" 0 0 true false false false []].

(** A splitter that knows one compound and fails on one word. *)
Definition example_dissect (word : string) (automaton : unit)
    (make_singular only_nouns mask_unknown : bool) : option (list string) :=
  if String.eqb word "Schnellzug" then Some ["Schnell"; "Zug"]
  else if String.eqb word "Absturz" then None
  else Some [word].

Definition example_merge_fractions (fractions : list string) : option (list string) :=
  Some fractions.

Definition no_rules : RuleSet := mkRuleSet ∅ [] ∅ [] ∅.

Definition example_args : Args := mkArgs false false "none".

(** Decomposition enabled, the compound itself not preserved. *)
Definition example_options : Options :=
  mkOptions true true false false false false false.

(** The same with both noun modes of the splitter combined. *)
Definition combined_options : Options :=
  mkOptions true true true false false false false.

Definition example_token (word pos : string) : Token :=
  mkToken word word pos "" 0 0 true false false false [].

(** The candidates of a token in this environment. *)
Definition example_candidates (token : Token) (sentence : string) : list string :=
  (lemmas_for_current_token (unicode := PyStr.ascii_text) literal_search
     literal_fullmatch "de" example_nlp
     unit example_dissect example_merge_fractions id
     token None sentence "de" ∅ no_rules ["NOUN"; "PROPN"; "ADJ"] (Some ())
     example_args example_options).1.

(** The base lemma of a token in this environment. *)
Definition example_base_lemma (token : Token) (sentence : string) : string :=
  base_lemma (unicode := PyStr.ascii_text) literal_search literal_fullmatch "de"
    token None sentence ∅ no_rules example_args example_options.

(** A lone dash, as the analyzer returns it between two words. *)
Definition dash_token : Token :=
  mkToken "-" "-" "PUNCT" "punct" 1 0 false false false false [].

(** A vocabulary with one lemma, first seen in the long form "gegangen". *)
Definition example_vocabulary : Vocabulary :=
  merge_token empty_vocabulary ["gehen"] "gegangen" (0, "Er ist gegangen").

(** The vocabulary loop in the environment of the examples. *)
Definition example_run (text_units : list string) : Vocabulary :=
  process_units (unicode := PyStr.ascii_text) literal_search literal_fullmatch "de"
    example_nlp unit
    example_dissect example_merge_fractions id "de" ∅ no_rules
    ["NOUN"; "PROPN"; "ADJ"] (Some ()) example_args example_options
    empty_vocabulary 0 text_units.

(** A rule set with an entry in each of the five tables. *)
Definition example_rule_set : RuleSet :=
  mkRuleSet
    {[ ("gehen", "ging") := [mkRule "gehen" None] ]}
    [("Bank", "Bänke", mkRule "Sitzbank" (Some "Park"))]
    {[ "ging" := [mkRule "laufen" None]; "Tür" := [mkRule "Tor" None] ]}
    [("Häuser", mkRule "Haus" None)]
    {[ "gehen" := [mkRule "wandern" None]; "sein" := [mkRule "Sein" (Some "das Sein")] ]}.

(** * The rest of the program *)

From stdpp Require Import sorting.

(** ** Loading the rule file *)

(** [load_lemma_override_rules] reads the rows the [csv] reader yields: each
    row is the list of its columns. When the file is missing or the reader
    fails on the way, the function returns the tables as they are at that
    point: [rows] are then the rows read before the failure. *)

Section RuleFile.

Context {unicode : PyStr.Unicode}.

(** [table[key].append(rule)], after [table[key] = []] for a new key. *)
Definition table_append `{Countable K} (key : K) (rule : OverrideRule)
    (table : gmap K (list OverrideRule)) : gmap K (list OverrideRule) :=
  <[key := default [] (table !! key) ++ [rule]]> table.

Definition empty_rule_set : RuleSet := mkRuleSet ∅ [] ∅ [] ∅.

(** The column [row[3]], when the row has it and it is not empty. *)
Definition row_context_condition (rest : list string) : option string :=
  match rest with
  | context_condition_raw :: _ =>
      if PyStr.truthy context_condition_raw then
        if PyStr.startswith context_condition_raw "regex:"
        then Some context_condition_raw
        else Some (PyStr.strip context_condition_raw)
      else None
  | [] => None
  end.

(** The body of the loop over the rows. *)
Definition load_row (override_rules : RuleSet) (row : list string) : RuleSet :=
  match row with
  | [] => override_rules
  | column0 :: _ =>
      if PyStr.startswith column0 "#" then override_rules
      else
        match row with
        | column0 :: source_word_to_match_raw :: column2 :: rest =>
            let spacy_lemma_to_match := PyStr.strip column0 in
            let target_lemma := PyStr.strip column2 in
            let context_condition := row_context_condition rest in
            if negb (PyStr.truthy target_lemma)
               || (negb (PyStr.truthy spacy_lemma_to_match)
                   && negb (PyStr.truthy (PyStr.strip source_word_to_match_raw)))
            then override_rules
            else
              let override_rule := mkRule target_lemma context_condition in
              let is_source_word_regex :=
                PyStr.startswith source_word_to_match_raw "regex:" in
              let source_word_to_match := PyStr.strip source_word_to_match_raw in
              if PyStr.truthy spacy_lemma_to_match && PyStr.truthy source_word_to_match then
                if is_source_word_regex then
                  let pattern := PyStr.drop 6 source_word_to_match_raw in
                  mkRuleSet (priority1 override_rules)
                    (priority1_regex override_rules
                     ++ [(spacy_lemma_to_match, pattern, override_rule)])
                    (priority2 override_rules) (priority2_regex override_rules)
                    (priority3 override_rules)
                else
                  mkRuleSet
                    (table_append (spacy_lemma_to_match, source_word_to_match)
                       override_rule (priority1 override_rules))
                    (priority1_regex override_rules)
                    (priority2 override_rules) (priority2_regex override_rules)
                    (priority3 override_rules)
              else if PyStr.truthy source_word_to_match then
                if is_source_word_regex then
                  let pattern := PyStr.drop 6 source_word_to_match_raw in
                  mkRuleSet (priority1 override_rules) (priority1_regex override_rules)
                    (priority2 override_rules)
                    (priority2_regex override_rules ++ [(pattern, override_rule)])
                    (priority3 override_rules)
                else
                  mkRuleSet (priority1 override_rules) (priority1_regex override_rules)
                    (table_append source_word_to_match override_rule
                       (priority2 override_rules))
                    (priority2_regex override_rules) (priority3 override_rules)
              else if PyStr.truthy spacy_lemma_to_match then
                mkRuleSet (priority1 override_rules) (priority1_regex override_rules)
                  (priority2 override_rules) (priority2_regex override_rules)
                  (table_append spacy_lemma_to_match override_rule
                     (priority3 override_rules))
              else override_rules
        | _ => override_rules
        end
  end.

Definition load_lemma_override_rules (rows : list (list string)) : RuleSet :=
  fold_left load_row rows empty_rule_set.

(** *** The routing of a row, as a function of the row alone *)

(** The table a row is filed in, with its key or pattern. *)
Inductive Route :=
  | ToPriority1 (lemma word : string)
  | ToPriority1Regex (lemma pattern : string)
  | ToPriority2 (word : string)
  | ToPriority2Regex (pattern : string)
  | ToPriority3 (lemma : string).

Global Instance Route_eq_dec : EqDecision Route.
Proof. solve_decision. Defined.

(** A row is a comment when its first column starts with [#]. *)
Definition is_comment_row (row : list string) : bool :=
  match row with
  | column0 :: _ => PyStr.startswith column0 "#"
  | [] => false
  end.

(** The rule of a row and where it goes; [None] for the rows the loader
    skips: empty rows, comments, rows of fewer than three columns, rows
    without a target lemma and rows with neither a lemma nor a word. *)
Definition classify_row (row : list string) : option (Route * OverrideRule) :=
  if is_comment_row row then None
  else
    match row with
    | column0 :: column1 :: column2 :: rest =>
        let lemma := PyStr.strip column0 in
        let word := PyStr.strip column1 in
        let rule := mkRule (PyStr.strip column2) (row_context_condition rest) in
        if negb (PyStr.truthy (PyStr.strip column2)) then None
        else if PyStr.truthy word then
          if PyStr.startswith column1 "regex:" then
            if PyStr.truthy lemma
            then Some (ToPriority1Regex lemma (PyStr.drop 6 column1), rule)
            else Some (ToPriority2Regex (PyStr.drop 6 column1), rule)
          else
            if PyStr.truthy lemma
            then Some (ToPriority1 lemma word, rule)
            else Some (ToPriority2 word, rule)
        else if PyStr.truthy lemma then Some (ToPriority3 lemma, rule)
        else None
    | _ => None
    end.

(** Filing a rule under a route. *)
Definition add_rule (route : Route) (rule : OverrideRule) (override_rules : RuleSet)
    : RuleSet :=
  match route with
  | ToPriority1 lemma word =>
      mkRuleSet (table_append (lemma, word) rule (priority1 override_rules))
        (priority1_regex override_rules) (priority2 override_rules)
        (priority2_regex override_rules) (priority3 override_rules)
  | ToPriority1Regex lemma pattern =>
      mkRuleSet (priority1 override_rules)
        (priority1_regex override_rules ++ [(lemma, pattern, rule)])
        (priority2 override_rules) (priority2_regex override_rules)
        (priority3 override_rules)
  | ToPriority2 word =>
      mkRuleSet (priority1 override_rules) (priority1_regex override_rules)
        (table_append word rule (priority2 override_rules))
        (priority2_regex override_rules) (priority3 override_rules)
  | ToPriority2Regex pattern =>
      mkRuleSet (priority1 override_rules) (priority1_regex override_rules)
        (priority2 override_rules)
        (priority2_regex override_rules ++ [(pattern, rule)])
        (priority3 override_rules)
  | ToPriority3 lemma =>
      mkRuleSet (priority1 override_rules) (priority1_regex override_rules)
        (priority2 override_rules) (priority2_regex override_rules)
        (table_append lemma rule (priority3 override_rules))
  end.

(** The rules of the rows routed to [route], in the order of the rows. *)
Definition rules_routed_to (route : Route) (rows : list (list string))
    : list OverrideRule :=
  omap (λ row, match classify_row row with
               | Some (route', rule) =>
                   if decide (route' = route) then Some rule else None
               | None => None
               end) rows.

(** What an exact table holds under a key whose rows give [rules]. *)
Definition table_entry (rules : list OverrideRule) : option (list OverrideRule) :=
  match rules with
  | [] => None
  | _ :: _ => Some rules
  end.

(** A rule set as the loader builds it: no rule without a target lemma, no
    empty key, no key with an empty list. *)
Definition loaded_rule_set (override_rules : RuleSet) : Prop :=
  (∀ key rules, priority1 override_rules !! key = Some rules →
     key.1 ≠ "" ∧ key.2 ≠ "" ∧ rules ≠ [] ∧ Forall (λ r, target_lemma r ≠ "") rules)
  ∧ Forall (λ e : string * string * OverrideRule,
              e.1.1 ≠ "" ∧ target_lemma e.2 ≠ "")
           (priority1_regex override_rules)
  ∧ (∀ key rules, priority2 override_rules !! key = Some rules →
       key ≠ "" ∧ rules ≠ [] ∧ Forall (λ r, target_lemma r ≠ "") rules)
  ∧ Forall (λ e : string * OverrideRule, target_lemma e.2 ≠ "")
           (priority2_regex override_rules)
  ∧ (∀ key rules, priority3 override_rules !! key = Some rules →
       key ≠ "" ∧ rules ≠ [] ∧ Forall (λ r, target_lemma r ≠ "") rules).

(** The rules of a rule set, table by table. *)
Definition rule_in (rule : OverrideRule) (override_rules : RuleSet) : Prop :=
  (∃ key rules, priority1 override_rules !! key = Some rules ∧ rule ∈ rules)
  ∨ (∃ lemma pattern, (lemma, pattern, rule) ∈ priority1_regex override_rules)
  ∨ (∃ key rules, priority2 override_rules !! key = Some rules ∧ rule ∈ rules)
  ∨ (∃ pattern, (pattern, rule) ∈ priority2_regex override_rules)
  ∨ (∃ key rules, priority3 override_rules !! key = Some rules ∧ rule ∈ rules).

(** The entry a row adds to a list of patterns, if it adds one. *)
Definition priority1_regex_entry (row : list string)
    : option (string * string * OverrideRule) :=
  match classify_row row with
  | Some (ToPriority1Regex lemma pattern, rule) => Some (lemma, pattern, rule)
  | _ => None
  end.

Definition priority2_regex_entry (row : list string) : option (string * OverrideRule) :=
  match classify_row row with
  | Some (ToPriority2Regex pattern, rule) => Some (pattern, rule)
  | _ => None
  end.

End RuleFile.

(** A rule file for the examples: a comment, the pair rule of the
    specification's scenario, a rule on the word alone, a short row, and a
    rule on the lemma alone with a context. *)
Definition example_rows : list (list string) :=
  [ ["# lemma"; "word"; "target"];
    ["gehen"; "ging"; " gehen "; ""];
    [""; "ging"; "laufen"];
    ["gehen"; "ging"];
    ["gehen"; ""; "wandern"; "im Wald"] ].

(** A rule file in which the pair of "kam" and "kommen" has two rows, both
    without a context, and the word and the lemma each a rule of their own. *)
Definition pair_rows : list (list string) :=
  [ ["kommen"; "kam"; "ankommen"];
    [""; "kam"; "Kamm"];
    ["kommen"; " kam "; "bekommen"; ""];
    ["kommen"; ""; "gehen"] ].

(** ** The frequency index and the final order *)

(** The loop of [load_lemma_frequency_index] over the enumerated rows. *)
Fixpoint index_rows (lemma_index : gmap string nat) (line_number : nat)
    (rows : list (list string)) : gmap string nat :=
  match rows with
  | [] => lemma_index
  | row :: rest =>
      index_rows
        match row with
        | column0 :: _ =>
            match lemma_index !! column0 with
            | None => <[column0 := line_number]> lemma_index
            | Some _ => lemma_index
            end
        | [] => lemma_index
        end
        (S line_number) rest
  end.

(** [rows] are the rows of the file, or [None] when the file is missing or
    the reader fails: the function then returns an empty index, whatever it
    had read. *)
Definition load_lemma_frequency_index (rows : option (list (list string)))
    : gmap string nat :=
  match rows with
  | Some rows => index_rows ∅ 0 rows
  | None => ∅
  end.

(** The key of the final sort:
    [(x not in lemma_sort_index, lemma_sort_index.get(x, 0), x.lower())]. *)
Definition sort_key {unicode : PyStr.Unicode} (lemma_sort_index : gmap string nat)
    (x : string) : bool * nat * string :=
  (negb (bool_decide (is_Some (lemma_sort_index !! x))),
   default 0 (lemma_sort_index !! x),
   PyStr.lower x).

(** The order of Python on such tuples: by the first component that differs,
    [False] before [True], numbers by size, strings by their characters. *)
Definition key_leb (a b : bool * nat * string) : bool :=
  if Bool.eqb a.1.1 b.1.1 then
    if a.1.2 =? b.1.2 then String.leb a.2 b.2 else a.1.2 <? b.1.2
  else negb a.1.1.

(** [sorted(xs, key=key)]: the sort is stable, an element goes before the
    first element already placed that is not smaller. *)
Fixpoint insert_by_key {A} (key : A → bool * nat * string) (x : A) (placed : list A)
    : list A :=
  match placed with
  | [] => [x]
  | y :: rest =>
      if key_leb (key x) (key y) then x :: y :: rest
      else y :: insert_by_key key x rest
  end.

Definition sorted_by_key {A} (key : A → bool * nat * string) (xs : list A) : list A :=
  foldr (insert_by_key key) [] xs.

(** The sort at the end of [extract_lemmas_from_sentence] and of the
    vocabulary loops. *)
Definition sort_lemmas {unicode : PyStr.Unicode} (lemma_sort_index : gmap string nat)
    (lemmas : list string) : list string :=
  sorted_by_key (sort_key lemma_sort_index) lemmas.

Section SentenceLemmas.

Context {unicode : PyStr.Unicode}.

Variable re_search : string → string → option bool.
Variable re_fullmatch : string → string → option bool.
Variable lang : string.
Variable nlp_model : string → list Token.
Variable Automaton : Type.
Variable dissect : string → Automaton → bool → bool → bool → option (list string).
Variable merge_fractions : list string → option (list string).
Variable set_iter : list string → list string.

(** [extract_lemmas_from_sentence]: the lemmas of the sentence's tokens,
    sorted. The pipeline of the call is the one of [nlp.lang]. *)
Definition extract_lemmas_from_sentence (sentence_text : string)
    (lemma_sort_index : gmap string nat) (de_dictionary : gset string)
    (lemma_override_rules : RuleSet) (de_gcs_pos_tags : list string)
    (gcs_automaton : option Automaton) (args : Args) (opts : Options)
    : list string :=
  sort_lemmas lemma_sort_index
    (set_iter
       (elements
          (final_lemmas re_search re_fullmatch lang nlp_model Automaton dissect
             merge_fractions set_iter lang de_dictionary lemma_override_rules
             de_gcs_pos_tags gcs_automaton args opts sentence_text))).

End SentenceLemmas.

(** A frequency list for the examples. *)
Definition example_index_rows : list (list string) :=
  [ ["der"; "1000"]; []; ["gehen"; "500"]; ["der"; "2"]; ["Haus"; "300"] ].

(** [extract_lemmas_from_sentence] in the environment of the examples. *)
Definition example_extract (sentence : string) (lemma_sort_index : gmap string nat)
    : list string :=
  extract_lemmas_from_sentence (unicode := PyStr.ascii_text) literal_search
    literal_fullmatch "de" example_nlp
    unit example_dissect example_merge_fractions id sentence lemma_sort_index
    ∅ no_rules ["NOUN"; "PROPN"; "ADJ"] (Some ()) example_args example_options.

(** A verb with two particles and a noun, as the analyzer could return
    them: "Er gibt es auf" with a second particle added to the same verb. *)
Definition example_document : list Token :=
  [ mkToken "gibt" "geben" "VERB" "ROOT" 0 0 true false false true [];
    mkToken "Buch" "Buch" "NOUN" "oa" 1 0 true false false false ["Acc"];
    mkToken "zurück" "zurück" "ADP" "svp" 2 0 true false false false [];
    mkToken "auf" "auf" "ADP" "svp" 3 0 true false false false [] ].

(** A token with another sentence-start flag. *)
Definition with_sent_start (flag : bool) (token : Token) : Token :=
  mkToken (text token) (lemma_ token) (pos_ token) (dep_ token) (i token)
    (head_i token) (is_alpha token) (like_url token) (like_email token) flag
    (morph_case token).

(** Every location recorded in the vocabulary is a unit of the text: the
    unit with the recorded index has the recorded text; and no lemma is the
    empty string. *)
Definition locations_in (text_units : list string) (vocabulary : Vocabulary) : Prop :=
  ∀ lemma location,
    lemma_to_sentence_info vocabulary !! lemma = Some location →
    lemma ≠ "" ∧ text_units !! location.1 = Some location.2.

(** ** The part-of-speech tags of the automaton split *)

(** The set [ALL_POS_TAGS] of [main]. *)
Definition ALL_POS_TAGS : gset string :=
  list_to_set ["ADJ"; "ADP"; "ADV"; "AUX"; "CCONJ"; "DET"; "INTJ"; "NOUN"; "NUM";
               "PART"; "PRON"; "PROPN"; "PUNCT"; "SCONJ"; "SYM"; "VERB"; "X"].

(** What [main] makes of the tags given with [--de-gcs-pos-tags]. *)
Definition gcs_target_pos_tags (user_tags : list string) : gset string :=
  let has_negation := existsb (λ tag, PyStr.startswith tag "!") user_tags in
  if has_negation then
    let excluded_tags : gset string :=
      list_to_set (PyStr.drop 1 <$> filter (λ tag, PyStr.startswith tag "!" = true) user_tags) in
    ALL_POS_TAGS ∖ excluded_tags
  else if PyStr.in_list "ALL" user_tags then ALL_POS_TAGS
  else list_to_set user_tags.

(** The default of [--de-gcs-pos-tags] in [kardenwort.py], and the default
    the runner passes on: each is a list of one string. *)
Definition default_de_gcs_pos_tags : list string := ["NOUN PRON ADV ADJ"].
Definition runner_default_de_gcs_pos_tags : list string := ["NOUN PROPN ADV ADJ"].

(** ** The prefix of the output file name *)

(** [s.replace(old, new)] for a non-empty [old]: [skip] counts the
    characters of a replaced occurrence that are still to be dropped. *)
Fixpoint replace_go (old new s : string) (skip : nat) : string :=
  match s with
  | EmptyString => EmptyString
  | String c s' =>
      match skip with
      | S skip' => replace_go old new s' skip'
      | O =>
          if PyStr.startswith s old
          then new +:+ replace_go old new s' (String.length old - 1)
          else String c (replace_go old new s' 0)
      end
  end.

Definition replace (old new s : string) : string := replace_go old new s 0.

(** A character of the class [[a-z0-9]]. *)
Definition is_word_char (c : ascii) : bool :=
  PyStr.char_islower c || ((48 <=? nat_of_ascii c) && (nat_of_ascii c <=? 57)).

(** [re.findall(r'[a-z0-9]+', s)]: the maximal runs of such characters,
    from left to right; [cur] is the run being read, reversed. *)
Definition close_run (cur : string) : list string :=
  match cur with
  | EmptyString => []
  | String _ _ => [String.rev cur]
  end.

Fixpoint findall_go (cur s : string) : list string :=
  match s with
  | EmptyString => close_run cur
  | String c s' =>
      if is_word_char c then findall_go (String c cur) s'
      else close_run cur ++ findall_go EmptyString s'
  end.

Definition findall_words (s : string) : list string := findall_go EmptyString s.

(** [sep.join(words)] *)
Fixpoint join (sep : string) (words : list string) : string :=
  match words with
  | [] => EmptyString
  | [word] => word
  | word :: rest => word +:+ sep +:+ join sep rest
  end.

(** [xs[:n]] for an integer [n]: a negative [n] counts from the end. *)
Definition slice_to {A} (n : Z) (xs : list A) : list A :=
  if (0 <=? n)%Z then take (Z.to_nat n) xs
  else take (length xs - Z.to_nat (- n)) xs.

Section FilenamePrefix.

(** [text.lower()] on any text: the file name is made from free text, so
    the lower-casing of Python is taken as it is. *)
Variable str_lower : string → string.

Definition generate_filename_prefix_from_text (text : string) (word_count : Z)
    : string :=
  if negb (PyStr.truthy text) then ""
  else
    let normalized_text := str_lower text in
    let normalized_text :=
      replace "ß" "ss" (replace "ü" "ue" (replace "ö" "oe"
        (replace "ä" "ae" normalized_text))) in
    let words := findall_words normalized_text in
    let prefix_words := slice_to word_count words in
    match prefix_words with
    | [] => ""
    | _ :: _ => join "-" prefix_words
    end.

End FilenamePrefix.

(** A word of a file name prefix: not empty, of characters [[a-z0-9]] only. *)
Definition prefix_word (word : string) : Prop :=
  word ≠ "" ∧ PyStr.any_char (λ c, negb (is_word_char c)) word = false.

(** ** The table of parallel sentences *)

(** [get_anki_csv_header] *)
Definition get_anki_csv_header : list string :=
  ["Quotation"; "WordSource"; "WordSourceInflectedForm"; "WordDestination";
    "WordSourceContext"; "SentenceSourceContextLeft"; "SentenceSource";
    "SentenceSourceContextRight"; "SentenceDestinationContextLeft";
    "SentenceDestination"; "SentenceDestinationContextRight"; "SentenceSourceWordlist";
    "SentenceSourceCloze"; "SentenceSourceRewriteAISentenceSource";
    "SentenceSourceRewriteAISentenceDestination"; "WordSourceMorphologyAI"; "Note";
    "WordRussian"; "WordUkrainian"; "WordEnglish"; "WordGerman";
    "WordSourceMorphemeFirst"; "WordSourceMorphemeFirstDefinition";
    "WordSourceMorphemeSecond"; "WordSourceMorphemeSecondDefinition";
    "WordSourceMorphemeThird"; "WordSourceMorphemeThirdDefinition";
    "WordSourceMorphemeFourth"; "WordSourceMorphemeFourthDefinition";
    "WordSourceMorphemeFifth"; "WordSourceMorphemeFifthDefinition"; "WordSourceIPA";
    "WordSourceSynonymAI"; "WordSourceDefinitionAISentenceSource";
    "WordSourceDefinitionAISentenceDestination"; "WordSourceDefinitionFirst";
    "WordSourceDefinitionFirstClipping"; "WordSourceDefinitionSecond";
    "WordDestinationDefinitionFirst"; "WordDestinationDefinitionSecond";
    "WordSourceAudio"; "SentenceSourceIPA"; "SentenceSourceAudio"; "Image";
    "WordSourceCloze"; "WordSourceContextAI"; "TextSource"; "TextDestination";
    "TextSourceURL"; "SentenceEnglish"; "SentenceGerman"; "SentenceUkrainian";
    "SentenceRussian"; "Source"; "SourceURL"; "SeparatorAudio"; "Source-en-GB";
    "Source-en-US"; "Source-de-DE"; "Source-uk-UA"; "Source-ru-RU"; "Destination-en-GB";
    "Destination-en-US"; "Destination-de-DE"; "Destination-uk-UA"; "Destination-ru-RU";
    "Overlapping"; "ToggleAlwaysEmptyField"; "Note ID"; "am-all-morphs";
    "am-all-morphs-count"; "am-unknown-morphs"; "am-unknown-morphs-count";
    "am-highlighted"; "am-score"; "am-score-terms"; "am-study-morphs";
    "SentenceDestination2ContextLeft"; "SentenceDestination2";
    "SentenceDestination2ContextRight" ].

(** [xs[start:stop]] for integers: a negative bound counts from the end,
    and both bounds are cut to the list. *)
Definition slice_bound (length_xs bound : Z) : Z :=
  if (bound <? 0)%Z then Z.max 0 (bound + length_xs) else Z.min bound length_xs.

Definition py_slice {A} (xs : list A) (start stop : Z) : list A :=
  let start := slice_bound (Z.of_nat (length xs)) start in
  let stop := slice_bound (Z.of_nat (length xs)) stop in
  take (Z.to_nat (stop - start)) (drop (Z.to_nat start) xs).

Section SentenceTable.

Context {unicode : PyStr.Unicode}.

(** [" ".join(line.strip() for line in lines[start:stop])] *)
Definition joined_context (lines : list string) (start stop : Z) : string :=
  join " " (PyStr.strip <$> py_slice lines start stop).

(** The row the loop of [process_parallel_sentences_to_csv] writes for the
    line [i], which is a line of each of the files; [tertiary_text_lines] is
    [None] without a third file, and [lemmas] is what
    [extract_lemmas_from_sentence] returns for the stripped source line. *)
Definition sentence_row (language : string)
    (source_text_lines target_text_lines : list string)
    (tertiary_text_lines : option (list string)) (sentence_context_size : Z)
    (add_wordlist_col wordlist_use_br : bool) (lemmas : string → list string)
    (i : nat) : list string :=
  let csv_row := replicate 80 "" in
  let source_sentence := PyStr.strip (default "" (source_text_lines !! i)) in
  let target_sentence := PyStr.strip (default "" (target_text_lines !! i)) in
  let context_start_index := Z.max 0 (Z.of_nat i - sentence_context_size) in
  let context_end_index := (Z.of_nat i + sentence_context_size + 1)%Z in
  let csv_row := <[0 := source_sentence]> csv_row in
  let csv_row :=
    <[5 := joined_context source_text_lines context_start_index (Z.of_nat i)]> csv_row in
  let csv_row := <[6 := source_sentence]> csv_row in
  let csv_row :=
    <[7 := joined_context source_text_lines (Z.of_nat i + 1) context_end_index]> csv_row in
  let csv_row :=
    <[8 := joined_context target_text_lines context_start_index (Z.of_nat i)]> csv_row in
  let csv_row := <[9 := target_sentence]> csv_row in
  let csv_row :=
    <[10 := joined_context target_text_lines (Z.of_nat i + 1) context_end_index]> csv_row in
  let csv_row :=
    if add_wordlist_col then
      <[11 := join (if wordlist_use_br then "<br>" else String "010" "")
                (lemmas source_sentence)]> csv_row
    else csv_row in
  let csv_row := <[12 := source_sentence]> csv_row in
  let csv_row :=
    match tertiary_text_lines with
    | Some tertiary_text_lines =>
        <[79 := joined_context tertiary_text_lines (Z.of_nat i + 1) context_end_index]>
          (<[78 := PyStr.strip (default "" (tertiary_text_lines !! i))]>
             (<[77 := joined_context tertiary_text_lines context_start_index
                        (Z.of_nat i)]> csv_row))
    | None => csv_row
    end in
  if String.eqb language "de" then <[65 := "1"]> (<[58 := "1"]> csv_row)
  else if String.eqb language "en" then <[65 := "1"]> (<[56 := "1"]> csv_row)
  else csv_row.

(** The rows written by [process_parallel_sentences_to_csv], the header
    first when it is asked for. *)
Definition sentence_table (language : string)
    (source_text_lines target_text_lines : list string)
    (tertiary_text_lines : option (list string)) (sentence_context_size : Z)
    (add_wordlist_col add_header wordlist_use_br : bool)
    (lemmas : string → list string) : list (list string) :=
  let lengths :=
    [length source_text_lines; length target_text_lines]
    ++ match tertiary_text_lines with
       | Some tertiary_text_lines => [length tertiary_text_lines]
       | None => []
       end in
  let min_length := foldr Nat.min (length source_text_lines) lengths in
  (if add_header then [get_anki_csv_header] else [])
  ++ (sentence_row language source_text_lines target_text_lines tertiary_text_lines
        sentence_context_size add_wordlist_col wordlist_use_br lemmas
      <$> seq 0 min_length).

End SentenceTable.

(** The content of the column with a given name of the header. *)
Definition column (name : string) (row : list string) : option string :=
  found ← list_find (λ header_name, header_name = name) get_anki_csv_header;
  row !! found.1.
(** * Facts *)

(** ** Strings *)

Lemma app_cons c (a s : string) : String c a +:+ s = String c (a +:+ s).
Proof. reflexivity. Qed.

Lemma startswith_spec (s p : string) :
  PyStr.startswith s p = true ↔ ∃ t, s = p +:+ t.
Proof.
  revert s. induction p as [|a p IH]; intros s; simpl.
  - split; [intros _; by exists s | done].
  - destruct s as [|b s].
    + split; [done | intros [t Ht]; discriminate].
    + destruct (Ascii.eqb_spec a b) as [->|Hne].
      * rewrite IH. split; intros [t Ht]; exists t.
        -- by rewrite app_cons, Ht.
        -- rewrite app_cons in Ht. by injection Ht.
      * split; [done | intros [t Ht]]. rewrite app_cons in Ht.
        injection Ht as Hb _. congruence.
Qed.

Lemma contains_spec (p s : string) :
  PyStr.contains p s = true ↔ ∃ a b, s = a +:+ p +:+ b.
Proof.
  induction s as [|c s IH]; simpl.
  - rewrite orb_false_r, startswith_spec. split.
    + intros [t Ht]. by exists "", t.
    + intros ([|??] & b & Hab); [exists b; exact Hab | discriminate Hab].
  - rewrite orb_true_iff, IH, startswith_spec. split.
    + intros [[t Ht] | (a & b & Hab)].
      * by exists "", t.
      * exists (String c a), b. by rewrite app_cons, Hab.
    + intros ([|d a] & b & Hab).
      * left. exists b. exact Hab.
      * right. rewrite app_cons in Hab. injection Hab as _ Hs. by exists a, b.
Qed.

Lemma drop_regex_prefix (pattern : string) :
  PyStr.drop 6 ("regex:" +:+ pattern) = pattern.
Proof. reflexivity. Qed.

Lemma truthy_nonempty (s : string) : PyStr.truthy s = true ↔ s ≠ "".
Proof. by destruct s. Qed.

Lemma take_skip_continuation (more : nat) (s : string) :
  PyStr.take_continuation more s +:+ PyStr.skip_continuation more s = s.
Proof.
  revert s. induction more as [|more IH]; intros s; [done|].
  destruct s as [|c s]; [done|]. cbn [PyStr.take_continuation PyStr.skip_continuation].
  destruct (PyStr.is_continuation c); [|done]. by rewrite app_cons, IH.
Qed.

(** A string is its first character followed by the rest. *)
Lemma first_char_drop (s : string) : s = PyStr.first_char s +:+ PyStr.drop 1 s.
Proof.
  destruct s as [|c s]; [done|].
  cbn [PyStr.first_char PyStr.drop PyStr.tail_chars].
  by rewrite app_cons, take_skip_continuation.
Qed.

Lemma len_empty : PyStr.len "" = 0.
Proof. reflexivity. Qed.

Lemma len_nonempty (s : string) : 0 < PyStr.len s → s ≠ "".
Proof. intros Hlen ->. rewrite len_empty in Hlen. lia. Qed.

Lemma ends_in_ascii_not_continuation (s : string) :
  PyStr.endswith_char s "s" = true → PyStr.all_continuation s = false.
Proof.
  unfold PyStr.endswith_char. induction s as [|c s IH]; [done|].
  destruct s as [|d s].
  - cbn [PyStr.last_byte].
    destruct (Ascii.eqb_spec "s" c) as [<-|]; [intros _; reflexivity | intros; discriminate].
  - intros Hlast. cbn [PyStr.all_continuation] in *. rewrite IH by exact Hlast.
    apply andb_false_r.
Qed.

(** ** The context selection *)

Section RuleMatcherFacts.

Variable re_search : string → string → option bool.

Local Abbreviation fires := (context_fires re_search).
Local Abbreviation matches := (condition_matches re_search).
Local Abbreviation find_in_context := (find_matching_override_in_context re_search).

(** The test made by the loop is the match of the rule's condition. *)
Lemma context_fires_spec (r : OverrideRule) (sentence : string) :
  fires r sentence = true ↔ matches r sentence.
Proof.
  unfold context_fires, condition_matches.
  destruct (context_condition r) as [c|]; [|split; [done | by intros (? & ? & _)]].
  destruct (PyStr.truthy c) eqn:Hc.
  2:{ split; [done|]. intros (c' & [= <-] & Hne & _).
      apply truthy_nonempty in Hne. congruence. }
  apply truthy_nonempty in Hc.
  destruct (PyStr.startswith c "regex:") eqn:Hpre.
  - apply startswith_spec in Hpre as [pattern ->].
    rewrite drop_regex_prefix. split.
    + intros Hs. exists ("regex:" +:+ pattern). split_and!; [done..|].
      left. exists pattern. split; [done|].
      by destruct (re_search pattern sentence) as [[]|].
    + intros (c' & [= <-] & _ & [(p & Hp & Hs) | [Hno _]]).
      * apply (inj (String.app "regex:")) in Hp as ->. by rewrite Hs.
      * by destruct (Hno pattern).
  - split.
    + intros Hin. exists c. split_and!; [done..|]. right. split.
      * intros pattern ->.
        assert (PyStr.startswith ("regex:" +:+ pattern) "regex:" = true) as Ht
          by (apply startswith_spec; eauto).
        congruence.
      * by apply contains_spec.
    + intros (c' & [= <-] & _ & [(p & -> & _) | [_ Hin]]).
      * assert (PyStr.startswith ("regex:" +:+ p) "regex:" = true) as Ht
          by (apply startswith_spec; eauto).
        congruence.
      * by apply contains_spec.
Qed.

Lemma fires_has_context (r : OverrideRule) (sentence : string) :
  fires r sentence = true → has_context r = true.
Proof.
  unfold context_fires, has_context.
  destruct (context_condition r) as [c|]; [|done]. by destruct (PyStr.truthy c).
Qed.

Lemma not_matches_not_fires (r : OverrideRule) (sentence : string) :
  ¬ matches r sentence → fires r sentence = false.
Proof.
  intros Hno. destruct (fires r sentence) eqn:Hf; [|done].
  by apply context_fires_spec in Hf.
Qed.

(** Filtering the conditioned entries first does not change which entry
    fires first. *)
Lemma first_firing_filter (rules : list OverrideRule) (sentence : string) :
  first_firing re_search (filter (λ r, has_context r = true) rules) sentence
  = first_firing re_search rules sentence.
Proof.
  induction rules as [|r rules IH]; [done|].
  rewrite filter_cons. case_decide as Hctx; simpl; rewrite IH; [done|].
  destruct (fires r sentence) eqn:Hf; [|done].
  by apply fires_has_context in Hf.
Qed.

Lemma first_firing_first (pre post : list OverrideRule) (r : OverrideRule)
    (sentence : string) :
  fires r sentence = true →
  (∀ r', r' ∈ pre → fires r' sentence = false) →
  first_firing re_search (pre ++ r :: post) sentence = Some (target_lemma r).
Proof.
  intros Hr. induction pre as [|r' pre IH]; intros Hpre; simpl.
  - by rewrite Hr.
  - rewrite (Hpre r') by left. apply IH. intros ??. apply Hpre. by right.
Qed.

Lemma first_firing_none (rules : list OverrideRule) (sentence : string) :
  (∀ r, r ∈ rules → fires r sentence = false) →
  first_firing re_search rules sentence = None.
Proof.
  induction rules as [|r rules IH]; intros Hall; simpl; [done|].
  rewrite (Hall r) by left. apply IH. intros ??. apply Hall. by right.
Qed.

Lemma head_filter_first {A} (P : A → Prop) `{∀ x, Decision (P x)}
    (pre post : list A) (x : A) :
  P x → (∀ y, y ∈ pre → ¬ P y) → head (filter P (pre ++ x :: post)) = Some x.
Proof.
  intros Hx. induction pre as [|y pre IH]; intros Hpre; simpl.
  - by rewrite filter_cons_True.
  - rewrite filter_cons_False by (apply Hpre; left).
    apply IH. intros ??. apply Hpre. by right.
Qed.

Lemma filter_none {A} (P : A → Prop) `{∀ x, Decision (P x)} (l : list A) :
  (∀ y, y ∈ l → ¬ P y) → filter P l = [].
Proof.
  induction l as [|y l IH]; intros Hl; [done|].
  rewrite filter_cons_False by (apply Hl; left).
  apply IH. intros ??. apply Hl. by right.
Qed.

(** The function, with the test for an empty list folded in. *)
Lemma find_matching_unfold (rules : list OverrideRule) (sentence : string) :
  find_in_context (Some rules) sentence =
  match first_firing re_search rules sentence with
  | Some overridden_lemma => Some overridden_lemma
  | None => target_lemma <$> head (filter (λ r, has_context r = false) rules)
  end.
Proof.
  unfold find_matching_override_in_context.
  destruct rules as [|r rules]; [done|].
  rewrite first_firing_filter.
  destruct (first_firing _ _ _); [done|].
  by destruct (head _).
Qed.

(** C1 (as amended): the conditioned entries are tried in source order and
    the first whose condition matches gives the result; when none matches,
    the result is the target of the first unconditioned entry, however
    many there are, and there is no result only when every entry is
    conditioned. *)
Theorem find_matching_override_in_context_spec
    (rules : list OverrideRule) (sentence : string) :
  (∀ pre r post,
     rules = pre ++ r :: post →
     matches r sentence →
     (∀ r', r' ∈ pre → ¬ matches r' sentence) →
     find_in_context (Some rules) sentence = Some (target_lemma r))
  ∧ ((∀ r, r ∈ rules → ¬ matches r sentence) →
     (∀ pre r post,
        rules = pre ++ r :: post →
        has_context r = false →
        (∀ r', r' ∈ pre → has_context r' = true) →
        find_in_context (Some rules) sentence = Some (target_lemma r))
     ∧ ((∀ r, r ∈ rules → has_context r = true) →
        find_in_context (Some rules) sentence = None)).
Proof.
  split; [|intros Hnone; split].
  - intros pre r post -> Hr Hpre. rewrite find_matching_unfold.
    rewrite first_firing_first; [done| |].
    + by apply context_fires_spec.
    + intros r' Hr'. by apply not_matches_not_fires, Hpre.
  - intros pre r post -> Hr Hpre. rewrite find_matching_unfold.
    rewrite first_firing_none
      by (intros r' Hr'; by apply not_matches_not_fires, Hnone).
    rewrite head_filter_first; [done..|].
    intros r' Hr'. rewrite (Hpre r' Hr'). done.
  - intros Hall. rewrite find_matching_unfold.
    rewrite first_firing_none
      by (intros r' Hr'; by apply not_matches_not_fires, Hnone).
    rewrite filter_none; [done|].
    intros r' Hr'. rewrite (Hall r' Hr'). done.
Qed.

End RuleMatcherFacts.

Lemma find_matching_override_in_context_spec_witness :
  find_matching_override_in_context literal_search (Some example_rules)
    "Er kann schnell laufen" = Some "laufen"
  ∧ find_matching_override_in_context literal_search (Some example_rules)
      "Er kann laufen" = Some "gehen".
Proof.
  split.
  - apply (proj1 (find_matching_override_in_context_spec literal_search
                    example_rules "Er kann schnell laufen")
             [mkRule "Lauf" (Some "der Lauf")]
             (mkRule "laufen" (Some "regex:schnell"))
             [mkRule "gehen" None; mkRule "rennen" None]).
    + reflexivity.
    + apply context_fires_spec. vm_compute. reflexivity.
    + intros r' Hr' Hm. apply list_elem_of_singleton in Hr' as ->.
      apply context_fires_spec in Hm. vm_compute in Hm. discriminate Hm.
  - apply (proj1 (proj2 (find_matching_override_in_context_spec literal_search
                           example_rules "Er kann laufen")
                    ltac:(intros r' Hr' Hm; apply context_fires_spec in Hm;
                          repeat (apply elem_of_cons in Hr' as [-> | Hr'];
                                  [vm_compute in Hm; discriminate Hm|]);
                          by apply elem_of_nil in Hr'))
             [mkRule "Lauf" (Some "der Lauf"); mkRule "laufen" (Some "regex:schnell")]
             (mkRule "gehen" None)
             [mkRule "rennen" None]).
    + reflexivity.
    + reflexivity.
    + intros r' Hr'.
      repeat (apply elem_of_cons in Hr' as [-> | Hr']; [reflexivity|]).
      by apply elem_of_nil in Hr'.
Defined.

(** C1 (as stated) fails: with two unconditioned entries and no matching
    condition the function returns the first of them, not nothing. *)
Lemma fallback_only_when_unique_fails :
  ¬ fallback_only_when_unique literal_search
      [mkRule "gehen" None; mkRule "rennen" None] "Er kann laufen".
Proof.
  unfold fallback_only_when_unique. intros Hclaim.
  assert (∀ r, r ∈ [mkRule "gehen" None; mkRule "rennen" None] →
               ¬ condition_matches literal_search r "Er kann laufen") as Hnone.
  { intros r Hr (c & Hc & _).
    repeat (apply elem_of_cons in Hr as [-> | Hr]; [discriminate Hc|]).
    by apply elem_of_nil in Hr. }
  specialize (Hclaim Hnone). vm_compute in Hclaim. discriminate Hclaim.
Qed.

(** ** The cascade *)

Section CascadeFacts.

Variable re_search : string → string → option bool.
Variable re_fullmatch : string → string → option bool.

Local Abbreviation find_in_context := (find_matching_override_in_context re_search).

Lemma head_omap_cons {A B} (f : A → option B) (x : A) (l : list A) :
  head (omap f (x :: l)) =
  match f x with Some y => Some y | None => head (omap f l) end.
Proof. simpl. by destruct (f x). Qed.

Lemma head_omap_option_list {A B} (f : A → option B) (o : option A) :
  head (omap f (option_list o)) = o ≫= f.
Proof. destruct o as [x|]; [|done]. simpl. by destruct (f x). Qed.

(** The exact tiers: the context selection over the list found under the key. *)
Lemma exact_tier_result (found : option (list OverrideRule)) (sentence : string) :
  found ≫= (λ rules, find_in_context (Some rules) sentence)
  = find_in_context found sentence.
Proof. by destruct found. Qed.

Lemma regex_lemma_word_tier (override_rules : RuleSet)
    (initial_lemma word_or_part original_word sentence : string) :
  tier_result re_search re_fullmatch override_rules initial_lemma word_or_part
    original_word sentence RegexLemmaWord
  = loop_priority1_regex re_search re_fullmatch (priority1_regex override_rules)
      initial_lemma original_word sentence.
Proof.
  unfold tier_result, tier_candidates, fullmatches.
  induction (priority1_regex override_rules) as [|[[lc pat] r] entries IH]; [done|].
  cbn [loop_priority1_regex omap list_omap fst snd].
  destruct (String.eqb lc initial_lemma); [|exact IH].
  destruct (re_fullmatch pat original_word) as [[]|]; [|exact IH..].
  cbn [andb omap list_omap].
  destruct (find_in_context (Some [r]) sentence); [done | exact IH].
Qed.

Lemma regex_word_tier (override_rules : RuleSet)
    (initial_lemma word_or_part original_word sentence : string) :
  tier_result re_search re_fullmatch override_rules initial_lemma word_or_part
    original_word sentence RegexWord
  = loop_priority2_regex re_search re_fullmatch (priority2_regex override_rules)
      word_or_part sentence.
Proof.
  unfold tier_result, tier_candidates, fullmatches.
  induction (priority2_regex override_rules) as [|[pat r] entries IH]; [done|].
  cbn [loop_priority2_regex omap list_omap fst snd].
  destruct (re_fullmatch pat word_or_part) as [[]|]; [|exact IH..].
  cbn [omap list_omap].
  destruct (find_in_context (Some [r]) sentence); [done | exact IH].
Qed.

(** The compound-part operation is the cascade on the part. *)
Lemma compound_part_is_cascade (override_rules : RuleSet)
    (initial_lemma part original_word sentence : string) :
  get_overridden_lemma_for_compound_part re_search re_fullmatch
    initial_lemma part original_word override_rules sentence
  = cascade re_search re_fullmatch override_rules initial_lemma part
      original_word sentence.
Proof.
  unfold cascade, tier_order, get_overridden_lemma_for_compound_part.
  rewrite !head_omap_cons, regex_lemma_word_tier, regex_word_tier.
  unfold tier_result, tier_candidates.
  rewrite !head_omap_option_list, !exact_tier_result.
  repeat (match goal with |- context [match ?x with _ => _ end] =>
            destruct x; try done end).
Qed.

(** C3: both operations are the one cascade over the five tiers in the
    fixed order, the first tier with a result giving it and the initial
    lemma returned when no tier has one; the whole-word operation matches
    the word, the compound-part operation the part, in the tiers [ExactWord]
    and [RegexWord], and both match the original word in [ExactLemmaWord]
    and [RegexLemmaWord] and the initial lemma in [ExactLemma]. *)
Theorem override_resolution_is_cascade (override_rules : RuleSet)
    (initial_lemma part original_word sentence : string) :
  get_overridden_lemma_for_word re_search re_fullmatch
    initial_lemma original_word override_rules sentence
  = cascade re_search re_fullmatch override_rules initial_lemma original_word
      original_word sentence
  ∧ get_overridden_lemma_for_compound_part re_search re_fullmatch
      initial_lemma part original_word override_rules sentence
    = cascade re_search re_fullmatch override_rules initial_lemma part
        original_word sentence.
Proof.
  split; [|apply compound_part_is_cascade].
  rewrite <- compound_part_is_cascade. reflexivity.
Qed.

(** C10: on a part that is the whole word, the compound-part operation
    returns what the whole-word operation returns. *)
Theorem compound_part_of_whole_word (override_rules : RuleSet)
    (initial_lemma original_word sentence : string) :
  get_overridden_lemma_for_word re_search re_fullmatch
    initial_lemma original_word override_rules sentence
  = get_overridden_lemma_for_compound_part re_search re_fullmatch
      initial_lemma original_word original_word override_rules sentence.
Proof. reflexivity. Qed.

End CascadeFacts.

(** ** The token normaliser *)

Lemma drop_last_app (s : string) :
  PyStr.endswith_char s "s" = true → s = PyStr.drop_last s +:+ "s".
Proof.
  induction s as [|c s IH]; [done|].
  destruct s as [|d s].
  - unfold PyStr.endswith_char. cbn [PyStr.last_byte].
    destruct (Ascii.eqb_spec "s" c) as [<-|]; [intros _; reflexivity | intros; discriminate].
  - intros Hlast.
    assert (PyStr.endswith_char (String d s) "s" = true) as Hrest by exact Hlast.
    cbn [PyStr.drop_last]. rewrite (ends_in_ascii_not_continuation _ Hrest).
    rewrite app_cons. f_equal. by apply IH.
Qed.

(** C4 (as amended): under the conditions of the genitive correction the
    result is the lemma without its final "s", in the case the analyzer gave
    it; the capitalised form is only what is looked up in the dictionary. *)
Theorem correct_spacy_lemma_genitive {unicode : PyStr.Unicode} (lang : string)
    (token : Token) (de_dictionary : gset string) :
  lang = "de" →
  is_noun_or_propn token = true →
  "Gen" ∈ morph_case token →
  PyStr.endswith_char (lemma_ token) "s" = true →
  1 < PyStr.len (lemma_ token) →
  PyStr.capitalize (PyStr.drop_last (lemma_ token)) ∈ de_dictionary →
  correct_spacy_lemma lang token de_dictionary true = PyStr.drop_last (lemma_ token)
  ∧ lemma_ token = PyStr.drop_last (lemma_ token) +:+ "s".
Proof.
  intros -> Hpos Hgen Hs Hlen Hdict. split; [|by apply drop_last_app].
  unfold correct_spacy_lemma, PyStr.in_list.
  rewrite Hpos, Hs, (bool_decide_eq_true_2 _ Hgen), (bool_decide_eq_true_2 _ Hdict).
  apply Nat.ltb_lt in Hlen. by rewrite Hlen.
Qed.

Lemma correct_spacy_lemma_genitive_witness :
  correct_spacy_lemma (unicode := PyStr.ascii_text) "de"
    (mkToken "Vaters" "vaters" "NOUN" "" 0 0 true false false false ["Gen"])
    {["Vater"]} true = "vater"
  ∧ "vaters" = "vater" +:+ "s".
Proof.
  apply (correct_spacy_lemma_genitive (unicode := PyStr.ascii_text) "de"
           (mkToken "Vaters" "vaters" "NOUN" "" 0 0 true false false false ["Gen"])
           {["Vater"]}).
  - reflexivity.
  - reflexivity.
  - apply list_elem_of_here.
  - reflexivity.
  - vm_compute. lia.
  - apply elem_of_singleton. reflexivity.
Defined.

(** C4 (as stated) fails: the lemma "vaters" of a genitive noun is trimmed
    to "vater", not to the capitalised "Vater" found in the dictionary. *)
Lemma genitive_gives_capitalized_fails :
  ¬ genitive_gives_capitalized (unicode := PyStr.ascii_text) "de"
      (mkToken "Vaters" "vaters" "NOUN" "" 0 0 true false false false ["Gen"])
      {["Vater"]}.
Proof.
  intros Hclaim. unfold genitive_gives_capitalized in Hclaim.
  assert ("vater" = "Vater") as Heq; [|discriminate Heq].
  apply Hclaim.
  - reflexivity.
  - reflexivity.
  - apply list_elem_of_here.
  - reflexivity.
  - vm_compute. lia.
  - apply elem_of_singleton. reflexivity.
Qed.

(** ** The case of a component *)

(** What [_format_gcs_component_case] does to a lemma: nothing when it
    has fewer than two characters; otherwise the first character is kept and
    what follows it lower-cased. *)
Lemma format_gcs_component_case_spec {unicode : PyStr.Unicode} (component : string) :
  (PyStr.len component < 2 ∧ _format_gcs_component_case component = component)
  ∨ (2 ≤ PyStr.len component
     ∧ _format_gcs_component_case component
       = PyStr.first_char component +:+ PyStr.lower (PyStr.drop 1 component)).
Proof.
  unfold _format_gcs_component_case.
  destruct (PyStr.len component <? 2) eqn:Hlen.
  - left. apply Nat.ltb_lt in Hlen. by rewrite orb_true_r.
  - right. apply Nat.ltb_ge in Hlen. split; [done|].
    assert (component ≠ "") as Hne%truthy_nonempty by (apply len_nonempty; lia).
    by rewrite Hne.
Qed.

Lemma format_gcs_component_case_truthy {unicode : PyStr.Unicode} (component : string) :
  PyStr.truthy (_format_gcs_component_case component) = PyStr.truthy component.
Proof.
  unfold _format_gcs_component_case. destruct component as [|c rest]; [done|].
  cbn [PyStr.truthy negb orb]. by destruct (PyStr.len _ <? 2).
Qed.

(** ** The candidates of a token *)

(** Python sets of strings: membership. *)
Lemma set_add_elem (v x : string) (variants : list string) :
  v ∈ set_add x variants ↔ v ∈ variants ∨ v = x.
Proof.
  unfold set_add, PyStr.in_list. case_bool_decide as Hin.
  - split; [by left | by intros [?| ->]].
  - rewrite elem_of_app, list_elem_of_singleton. done.
Qed.

Lemma set_of_list_elem (x : string) (xs : list string) : x ∈ set_of_list xs ↔ x ∈ xs.
Proof.
  unfold set_of_list.
  assert (∀ variants,
            x ∈ fold_left (λ variants x, set_add x variants) xs variants
            ↔ x ∈ variants ∨ x ∈ xs) as Hfold.
  { induction xs as [|y xs IH]; intros variants; cbn [fold_left].
    - split; [by left | by intros [?|?%elem_of_nil]].
    - rewrite IH, set_add_elem, elem_of_cons.
      split; [intros [[?|?]|?] | intros [?|[?|?]]]; auto. }
  rewrite Hfold. split; [by intros [?%elem_of_nil|?] | by right].
Qed.

Section DecompositionFacts.

Context {unicode : PyStr.Unicode}.

Variable re_search : string → string → option bool.
Variable re_fullmatch : string → string → option bool.
Variable lang : string.
Variable nlp_model : string → list Token.
Variable Automaton : Type.
Variable dissect : string → Automaton → bool → bool → bool → option (list string).
Variable merge_fractions : list string → option (list string).
Variable set_iter : list string → list string.

Local Abbreviation candidates :=
  (lemmas_for_current_token re_search re_fullmatch lang nlp_model Automaton
     dissect merge_fractions set_iter).
Local Abbreviation base := (base_lemma re_search re_fullmatch lang).
Local Abbreviation part_lemma := (resolved_part re_search re_fullmatch nlp_model).
Local Abbreviation split_components :=
  (gcs_split_components Automaton dissect merge_fractions).
Local Abbreviation try_body :=
  (gcs_try_body re_search re_fullmatch nlp_model Automaton dissect
     merge_fractions set_iter).

(** The loops only append: each part or component adds its lemma, or
    nothing. *)
Lemma hyphen_parts_loop_appends (parts : list string) (token_text : string)
    (de_dictionary : gset string) (rules : RuleSet) (sentence : string)
    (lemmas : list string) :
  hyphen_parts_loop re_search re_fullmatch nlp_model parts token_text
    de_dictionary rules sentence lemmas
  = lemmas
    ++ omap (λ part,
               if negb (PyStr.truthy (PyStr.strip part))
                  || (PyStr.len (PyStr.strip part) <=? 1)
               then None
               else if PyStr.truthy (part_lemma (PyStr.strip part) token_text
                                       de_dictionary rules sentence)
               then Some (part_lemma (PyStr.strip part) token_text
                            de_dictionary rules sentence)
               else None)
            parts.
Proof.
  revert lemmas. induction parts as [|part parts IH]; intros lemmas.
  - cbn. by rewrite app_nil_r.
  - cbn [hyphen_parts_loop omap list_omap]. unfold resolved_part.
    destruct (_ || _); [apply IH|].
    destruct (PyStr.truthy _); [|apply IH].
    by rewrite IH, <- app_assoc.
Qed.

Lemma gcs_components_loop_appends (components : list string) (token_text : string)
    (de_dictionary : gset string) (rules : RuleSet) (sentence : string)
    (lemmas : list string) :
  gcs_components_loop re_search re_fullmatch nlp_model components token_text
    de_dictionary rules sentence lemmas
  = lemmas
    ++ omap (λ raw_component,
               if negb (PyStr.truthy (PyStr.strip_hyphens raw_component))
                  || (PyStr.len (PyStr.strip_hyphens raw_component) <? 3)
               then None
               else if PyStr.truthy
                         (_format_gcs_component_case
                            (part_lemma (PyStr.strip_hyphens raw_component) token_text
                               de_dictionary rules sentence))
               then Some (_format_gcs_component_case
                            (part_lemma (PyStr.strip_hyphens raw_component) token_text
                               de_dictionary rules sentence))
               else None)
            components.
Proof.
  revert lemmas. induction components as [|raw components IH]; intros lemmas.
  - cbn. by rewrite app_nil_r.
  - cbn [gcs_components_loop omap list_omap]. unfold resolved_part.
    destruct (_ || _); [apply IH|].
    destruct (PyStr.truthy _); [|apply IH].
    by rewrite IH, <- app_assoc.
Qed.

(** What the parts of a hyphenated token add. *)
Lemma hyphen_parts_members (token_text : string) (de_dictionary : gset string)
    (rules : RuleSet) (sentence : string) (lemma : string) :
  lemma ∈ hyphen_parts_loop re_search re_fullmatch nlp_model
            (PyStr.split "-" token_text) token_text de_dictionary rules sentence []
  ↔ hyphen_part_lemma re_search re_fullmatch nlp_model token_text de_dictionary
      rules sentence lemma.
Proof.
  rewrite hyphen_parts_loop_appends, app_nil_l, list_elem_of_omap.
  unfold hyphen_part_lemma. split.
  - intros (part & Hin & Hpart). exists part. split; [done|].
    destruct (_ || _) eqn:Hshort; [done|].
    apply orb_false_elim in Hshort as [_ Hlen%Nat.leb_gt].
    destruct (PyStr.truthy _) eqn:Hlemma; [|done]. injection Hpart as <-.
    by apply truthy_nonempty in Hlemma.
  - intros (part & Hin & Hlen & -> & Hlemma). exists part. split; [done|].
    apply truthy_nonempty in Hlemma. rewrite Hlemma.
    assert (PyStr.strip part ≠ "") as Hpart%truthy_nonempty by (apply len_nonempty; lia).
    apply Nat.leb_gt in Hlen. by rewrite Hpart, Hlen.
Qed.

(** What the components of the automaton split add. *)
Lemma gcs_components_members (components : list string) (token_text : string)
    (de_dictionary : gset string) (rules : RuleSet) (sentence : string)
    (lemma : string) :
  lemma ∈ gcs_components_loop re_search re_fullmatch nlp_model components
            token_text de_dictionary rules sentence []
  ↔ automaton_part_lemma re_search re_fullmatch nlp_model components token_text
      de_dictionary rules sentence lemma.
Proof.
  rewrite gcs_components_loop_appends, app_nil_l, list_elem_of_omap.
  unfold automaton_part_lemma. split.
  - intros (raw & Hin & Hraw). exists raw. split; [done|].
    destruct (_ || _) eqn:Hshort; [done|].
    apply orb_false_elim in Hshort as [_ Hlen%Nat.ltb_ge].
    destruct (PyStr.truthy _) eqn:Hlemma; [|done]. injection Hraw as <-.
    by apply truthy_nonempty in Hlemma.
  - intros (raw & Hin & Hlen & -> & Hlemma). exists raw. split; [done|].
    apply truthy_nonempty in Hlemma. rewrite Hlemma.
    assert (PyStr.strip_hyphens raw ≠ "") as Hraw%truthy_nonempty
      by (apply len_nonempty; lia).
    apply Nat.ltb_ge in Hlen. by rewrite Hraw, Hlen.
Qed.

(** A failing first call of the splitter makes the whole block fail. *)
Lemma dissect_raises (token : Token) (automaton : Automaton) (args : Args)
    (opts : Options) :
  (∀ make_singular only_nouns mask_unknown,
     dissect (text token) automaton make_singular only_nouns mask_unknown = None) →
  split_components token automaton args opts = None.
Proof.
  intros Hraise. unfold gcs_split_components.
  destruct (de_gcs_combine_noun_modes opts); rewrite !Hraise; reflexivity.
Qed.

(** The shape of the candidate list when the hyphen split does not apply. *)
Lemma candidates_without_hyphen (token : Token) (particle : option Token)
    (sentence language : string) (de_dictionary : gset string) (rules : RuleSet)
    (pos_tags : list string) (gcs_automaton : option Automaton) (args : Args)
    (opts : Options) :
  hyphen_gate token opts = false →
  (candidates token particle sentence language de_dictionary rules pos_tags
     gcs_automaton args opts).1
  = let base_lemma := base token particle sentence de_dictionary rules args opts in
    match gcs_automaton with
    | Some automaton =>
        if automaton_gate Automaton token gcs_automaton language pos_tags opts then
          match try_body token automaton base_lemma de_dictionary rules sentence
                  args opts [] with
          | Completed lemmas true => lemmas
          | Completed lemmas false | Excepted lemmas => lemmas ++ [base_lemma]
          end
        else [base_lemma]
    | None => [base_lemma]
    end.
Proof.
  intros Hhyphen. unfold lemmas_for_current_token, base_lemma.
  destruct (default_lemma_and_form _ _ _ _ _ _) as [default_lemma form].
  rewrite Hhyphen. destruct gcs_automaton as [automaton|]; [|done].
  destruct (automaton_gate _ _ _ _ _ _); [|done].
  by destruct (gcs_try_body _ _ _ _ _ _ _ _ _ _ _ _ _ _ _ _) as [lemmas []|lemmas].
Qed.

Lemma candidates_with_hyphen (token : Token) (particle : option Token)
    (sentence language : string) (de_dictionary : gset string) (rules : RuleSet)
    (pos_tags : list string) (gcs_automaton : option Automaton) (args : Args)
    (opts : Options) :
  hyphen_gate token opts = true →
  (candidates token particle sentence language de_dictionary rules pos_tags
     gcs_automaton args opts).1
  = hyphen_parts_loop re_search re_fullmatch nlp_model
      (PyStr.split "-" (text token)) (text token) de_dictionary rules sentence
      (if de_gcs_preserve_compound_word opts
       then [base token particle sentence de_dictionary rules args opts] else []).
Proof.
  intros Hhyphen. unfold lemmas_for_current_token, base_lemma.
  destruct (default_lemma_and_form _ _ _ _ _ _) as [default_lemma form].
  by rewrite Hhyphen.
Qed.

(** The candidates of a token the automaton splits. *)
Lemma candidates_with_automaton (token : Token) (particle : option Token)
    (sentence language : string) (de_dictionary : gset string) (rules : RuleSet)
    (pos_tags : list string) (args : Args) (opts : Options)
    (automaton : Automaton) (components : list string) :
  hyphen_gate token opts = false →
  automaton_gate Automaton token (Some automaton) language pos_tags opts = true →
  split_components token automaton args opts = Some components →
  1 < length components →
  (candidates token particle sentence language de_dictionary rules pos_tags
     (Some automaton) args opts).1
  = gcs_components_loop re_search re_fullmatch nlp_model
      (set_iter (set_of_list components)) (text token) de_dictionary rules sentence
      (if de_gcs_preserve_compound_word opts
       then [base token particle sentence de_dictionary rules args opts] else []).
Proof.
  intros Hhyphen Hgate Hsplit Hmany.
  rewrite candidates_without_hyphen by done. cbn beta iota zeta.
  rewrite Hgate. unfold gcs_try_body.
  rewrite Hsplit. apply Nat.ltb_lt in Hmany. rewrite Hmany.
  by destruct (de_gcs_preserve_compound_word opts).
Qed.

(** C2 (as amended): the candidate list is exactly the base lemma when
    the hyphen split does not apply and the automaton split does not apply,
    fails, or collects at most one component (the list it collects: with both
    noun modes combined, the results of four calls put together); it contains
    the base lemma whenever the compound is to be preserved; and when the
    compound is not to be preserved and the token is split, the candidates are
    the lemmas of the parts: for the hyphen split, the non-empty resolved
    lemmas of the stripped parts of more than one character; for the automaton
    split, the non-empty resolved lemmas, in the case given to components, of
    the components of three characters or more. *)
Theorem candidates_of_unsplit_token (token : Token) (particle : option Token)
    (sentence language : string) (de_dictionary : gset string) (rules : RuleSet)
    (pos_tags : list string) (gcs_automaton : option Automaton) (args : Args)
    (opts : Options) :
  let result :=
    (candidates token particle sentence language de_dictionary rules pos_tags
       gcs_automaton args opts).1 in
  let base_lemma := base token particle sentence de_dictionary rules args opts in
  (hyphen_gate token opts = false →
   (∀ automaton components,
      gcs_automaton = Some automaton →
      automaton_gate Automaton token gcs_automaton language pos_tags opts = true →
      split_components token automaton args opts = Some components →
      length components ≤ 1) →
   result = [base_lemma])
  ∧ (de_gcs_preserve_compound_word opts = true → base_lemma ∈ result)
  ∧ (de_gcs_preserve_compound_word opts = false →
     hyphen_gate token opts = true →
     ∀ lemma,
       lemma ∈ result ↔
       hyphen_part_lemma re_search re_fullmatch nlp_model (text token)
         de_dictionary rules sentence lemma)
  ∧ (∀ automaton components,
       de_gcs_preserve_compound_word opts = false →
       hyphen_gate token opts = false →
       gcs_automaton = Some automaton →
       automaton_gate Automaton token gcs_automaton language pos_tags opts = true →
       split_components token automaton args opts = Some components →
       1 < length components →
       (∀ variants, set_iter variants ≡ₚ variants) →
       ∀ lemma,
         lemma ∈ result ↔
         automaton_part_lemma re_search re_fullmatch nlp_model components
           (text token) de_dictionary rules sentence lemma).
Proof.
  intros result base_lemma. subst result base_lemma. split_and!.
  - intros Hhyphen Hfew. rewrite candidates_without_hyphen by done. cbn zeta.
    destruct gcs_automaton as [automaton|] eqn:Hauto; [|done].
    destruct (automaton_gate _ _ _ _ _ _) eqn:Hgate; [|done].
    unfold gcs_try_body.
    destruct (split_components token automaton args opts) as [components|] eqn:Hsplit;
      [|done].
    specialize (Hfew automaton components eq_refl eq_refl Hsplit).
    apply Nat.ltb_ge in Hfew. by rewrite Hfew.
  - intros Hpreserve. destruct (hyphen_gate token opts) eqn:Hhyphen.
    + rewrite candidates_with_hyphen by done. rewrite Hpreserve.
      rewrite hyphen_parts_loop_appends.
      apply elem_of_app. left. apply list_elem_of_here.
    + rewrite candidates_without_hyphen by done. cbn zeta.
      destruct gcs_automaton as [automaton|]; [|apply list_elem_of_here].
      destruct (automaton_gate _ _ _ _ _ _); [|apply list_elem_of_here].
      unfold gcs_try_body.
      destruct (split_components token automaton args opts) as [components|];
        [|apply list_elem_of_here].
      destruct (1 <? length components); [|apply list_elem_of_here].
      rewrite Hpreserve, gcs_components_loop_appends.
      apply elem_of_app. left. apply list_elem_of_here.
  - intros Hpreserve Hhyphen lemma.
    rewrite candidates_with_hyphen by done. rewrite Hpreserve.
    apply hyphen_parts_members.
  - intros automaton components Hpreserve Hhyphen -> Hgate Hsplit Hmany Hperm lemma.
    rewrite (candidates_with_automaton _ _ _ _ _ _ _ _ _ _ components) by done.
    rewrite Hpreserve, gcs_components_members.
    unfold automaton_part_lemma.
    split; intros (raw & Hin & Hrest); exists raw; (split; [|done]).
    + rewrite Hperm in Hin. by apply set_of_list_elem.
    + rewrite Hperm. by apply set_of_list_elem.
Qed.

(** C5 (as amended): for a token the automaton splits, the candidates are
    the base lemma, if the compound is to be preserved, followed by
    component lemmas; each of these comes from a component the splitter
    returned, and is the resolved lemma of that component with its first
    character kept as it was and everything after it lower-cased. *)
Theorem automaton_components_case (token : Token) (particle : option Token)
    (sentence language : string) (de_dictionary : gset string) (rules : RuleSet)
    (pos_tags : list string) (gcs_automaton : option Automaton) (args : Args)
    (opts : Options) (automaton : Automaton) (components : list string) :
  hyphen_gate token opts = false →
  gcs_automaton = Some automaton →
  automaton_gate Automaton token gcs_automaton language pos_tags opts = true →
  split_components token automaton args opts = Some components →
  1 < length components →
  (∀ variants, set_iter variants ≡ₚ variants) →
  ∃ parts,
    (candidates token particle sentence language de_dictionary rules pos_tags
       gcs_automaton args opts).1
    = (if de_gcs_preserve_compound_word opts
       then [base token particle sentence de_dictionary rules args opts] else [])
      ++ parts
    ∧ Forall (component_lemma re_search re_fullmatch nlp_model components
                (text token) de_dictionary rules sentence)
             parts.
Proof.
  intros Hhyphen -> Hgate Hsplit Hmany Hperm.
  rewrite (candidates_with_automaton _ _ _ _ _ _ _ _ _ _ components) by done.
  rewrite gcs_components_loop_appends. eexists. split; [done|].
  apply Forall_forall. intros lemma Hlemma.
  assert (lemma ∈ gcs_components_loop re_search re_fullmatch nlp_model
                    (set_iter (set_of_list components)) (text token) de_dictionary
                    rules sentence []) as Hloop
    by (by rewrite gcs_components_loop_appends, app_nil_l).
  apply gcs_components_members in Hloop as (raw & Hin & Hlen & -> & Hne).
  rewrite Hperm, set_of_list_elem in Hin.
  exists raw, (part_lemma (PyStr.strip_hyphens raw) (text token) de_dictionary rules
                 sentence).
  split_and!; [done|done|done| |apply first_char_drop|].
  - apply truthy_nonempty in Hne. rewrite format_gcs_component_case_truthy in Hne.
    by apply truthy_nonempty.
  - apply format_gcs_component_case_spec.
Qed.

(** C6: when a call of the splitter raises, the handler finds the
    candidate list as it was on entry, and the candidates of the token are
    exactly its base lemma. *)
Theorem decomposer_error_leaves_base_lemma (token : Token) (particle : option Token)
    (sentence language : string) (de_dictionary : gset string) (rules : RuleSet)
    (pos_tags : list string) (gcs_automaton : option Automaton) (args : Args)
    (opts : Options) (automaton : Automaton) :
  hyphen_gate token opts = false →
  gcs_automaton = Some automaton →
  automaton_gate Automaton token gcs_automaton language pos_tags opts = true →
  split_components token automaton args opts = None →
  (∀ lemmas,
     try_body token automaton
       (base token particle sentence de_dictionary rules args opts)
       de_dictionary rules sentence args opts lemmas = Excepted lemmas)
  ∧ (candidates token particle sentence language de_dictionary rules pos_tags
       gcs_automaton args opts).1
    = [base token particle sentence de_dictionary rules args opts].
Proof.
  intros Hhyphen -> Hgate Hsplit.
  assert (∀ lemmas,
            try_body token automaton
              (base token particle sentence de_dictionary rules args opts)
              de_dictionary rules sentence args opts lemmas = Excepted lemmas)
    as Hbody by (intros lemmas; unfold gcs_try_body; by rewrite Hsplit).
  split; [exact Hbody|].
  rewrite candidates_without_hyphen by done. cbn beta iota zeta.
  by rewrite Hgate, Hbody.
Qed.

End DecompositionFacts.

Lemma candidates_of_unsplit_token_witness :
  example_candidates (example_token "Wagen" "NOUN") "Der Wagen"
  = [example_base_lemma (example_token "Wagen" "NOUN") "Der Wagen"]
  ∧ (∀ lemma,
       lemma ∈ example_candidates (example_token "Online-Shop" "NOUN") "Der Online-Shop"
       ↔ hyphen_part_lemma (unicode := PyStr.ascii_text) literal_search
           literal_fullmatch example_nlp "Online-Shop" ∅ no_rules "Der Online-Shop"
           lemma)
  ∧ (∀ lemma,
       lemma ∈ example_candidates (example_token "Schnellzug" "NOUN") "Der Schnellzug"
       ↔ automaton_part_lemma (unicode := PyStr.ascii_text) literal_search
           literal_fullmatch example_nlp ["Schnell"; "Zug"] "Schnellzug" ∅ no_rules
           "Der Schnellzug" lemma).
Proof.
  split_and!.
  - apply (proj1 (candidates_of_unsplit_token (unicode := PyStr.ascii_text)
                    literal_search literal_fullmatch "de"
                    example_nlp unit example_dissect example_merge_fractions id
                    (example_token "Wagen" "NOUN") None "Der Wagen" "de" ∅ no_rules
                    ["NOUN"; "PROPN"; "ADJ"] (Some ()) example_args example_options)).
    + reflexivity.
    + intros automaton components _ _ Hsplit. vm_compute in Hsplit.
      injection Hsplit as <-. simpl. lia.
  - apply (proj1 (proj2 (proj2 (candidates_of_unsplit_token (unicode := PyStr.ascii_text)
                    literal_search literal_fullmatch "de"
                    example_nlp unit example_dissect example_merge_fractions id
                    (example_token "Online-Shop" "NOUN") None "Der Online-Shop" "de" ∅
                    no_rules ["NOUN"; "PROPN"; "ADJ"] (Some ()) example_args
                    example_options)))).
    + reflexivity.
    + reflexivity.
  - apply (proj2 (proj2 (proj2 (candidates_of_unsplit_token (unicode := PyStr.ascii_text)
                    literal_search literal_fullmatch "de"
                    example_nlp unit example_dissect example_merge_fractions id
                    (example_token "Schnellzug" "NOUN") None "Der Schnellzug" "de" ∅
                    no_rules ["NOUN"; "PROPN"; "ADJ"] (Some ()) example_args
                    example_options))) () ["Schnell"; "Zug"]).
    + reflexivity.
    + reflexivity.
    + reflexivity.
    + reflexivity.
    + reflexivity.
    + simpl. lia.
    + intros variants. reflexivity.
Defined.

(** C2 (as stated) fails: with decomposition enabled a lone dash is split
    on its hyphen into two empty parts, both dropped, and the base lemma is
    not added: the candidate list is empty. *)
Lemma hyphen_token_without_candidates :
  ¬ (example_candidates dash_token "Berlin - Hamburg" ≠ []).
Proof. intros Hclaim. apply Hclaim. reflexivity. Qed.

Lemma automaton_components_case_witness :
  ∃ parts,
    example_candidates (example_token "Schnellzug" "NOUN") "Der Schnellzug"
    = [] ++ parts
    ∧ Forall (component_lemma (unicode := PyStr.ascii_text) literal_search
                literal_fullmatch example_nlp ["Schnell"; "Zug"] "Schnellzug" ∅
                no_rules "Der Schnellzug")
             parts.
Proof.
  apply (automaton_components_case (unicode := PyStr.ascii_text) literal_search
           literal_fullmatch "de"
           example_nlp unit example_dissect example_merge_fractions id
           (example_token "Schnellzug" "NOUN") None "Der Schnellzug" "de" ∅ no_rules
           ["NOUN"; "PROPN"; "ADJ"] (Some ()) example_args example_options
           () ["Schnell"; "Zug"]).
  - reflexivity.
  - reflexivity.
  - reflexivity.
  - reflexivity.
  - simpl. lia.
  - intros variants. reflexivity.
Defined.

(** C5 (as stated) fails: the component "Schnell" of "Schnellzug", which
    the analyzer lemmatises to the adjective "schnell", enters the candidates
    with its lower-case first letter. *)
Lemma automaton_components_not_title_cased :
  ¬ Forall (title_cased (unicode := PyStr.ascii_text))
      (example_candidates (example_token "Schnellzug" "NOUN") "Der Schnellzug").
Proof.
  intros Hclaim. apply Forall_cons_1 in Hclaim as [[Hfirst _] _].
  vm_compute in Hfirst. discriminate Hfirst.
Qed.

Lemma decomposer_error_leaves_base_lemma_witness :
  (∀ lemmas,
     gcs_try_body (unicode := PyStr.ascii_text) literal_search literal_fullmatch
       example_nlp unit example_dissect
       example_merge_fractions id (example_token "Absturz" "NOUN") ()
       (example_base_lemma (example_token "Absturz" "NOUN") "Der Absturz")
       ∅ no_rules "Der Absturz" example_args example_options lemmas
     = Excepted lemmas)
  ∧ example_candidates (example_token "Absturz" "NOUN") "Der Absturz"
    = [example_base_lemma (example_token "Absturz" "NOUN") "Der Absturz"].
Proof.
  apply (decomposer_error_leaves_base_lemma (unicode := PyStr.ascii_text)
           literal_search literal_fullmatch "de"
           example_nlp unit example_dissect example_merge_fractions id
           (example_token "Absturz" "NOUN") None "Der Absturz" "de" ∅ no_rules
           ["NOUN"; "PROPN"; "ADJ"] (Some ()) example_args example_options ()).
  - reflexivity.
  - reflexivity.
  - reflexivity.
  - apply dissect_raises. intros make_singular only_nouns mask_unknown. reflexivity.
Defined.

(** ** Deduplication *)

Section DeduplicatorFacts.

Context {unicode : PyStr.Unicode}.

Variable set_iter : list string → list string.

(** Iterating a set visits each of its elements once. *)
Hypothesis set_iter_perm : ∀ variants, set_iter variants ≡ₚ variants.

Local Abbreviation chosen := (chosen_variant set_iter).
Local Abbreviation dedup := (deduplicate_lemmas set_iter).

Lemma first_isupper_nonempty (s : string) : PyStr.first_isupper s = true → s ≠ "".
Proof. by destruct s. Qed.

Lemma set_add_nonempty (x : string) (variants : list string) :
  set_add x variants ≠ [].
Proof.
  intros Hnil. assert (x ∈ set_add x variants) as Hx by (apply set_add_elem; by right).
  rewrite Hnil in Hx. by apply elem_of_nil in Hx.
Qed.

(** The representative of a group is one of its members, and starts with
    an upper-case character if any member does. *)
Lemma chosen_variant_spec (variants : list string) :
  variants ≠ [] →
  ∃ y, chosen variants = [y] ∧ y ∈ variants
    ∧ ((∃ v, v ∈ variants ∧ PyStr.first_isupper v = true)
       → PyStr.first_isupper y = true).
Proof.
  intros Hne. unfold chosen_variant.
  pose proof (set_iter_perm variants) as Hperm.
  destruct (List.find PyStr.first_isupper (set_iter variants)) as [y|] eqn:Hfind.
  - apply find_some in Hfind as [Hy Hupper].
    apply list_elem_of_In in Hy. rewrite Hperm in Hy.
    pose proof (first_isupper_nonempty _ Hupper) as Htruthy.
    apply truthy_nonempty in Htruthy. rewrite Htruthy. exists y. split_and!; [done | done | by intros _].
  - destruct (set_iter variants) as [|y rest] eqn:Hiter.
    { symmetry in Hperm. by apply Permutation_nil_r in Hperm. }
    exists y. split_and!; [done|..].
    + rewrite <- Hperm. apply list_elem_of_here.
    + intros (v & Hv & Hupper). rewrite <- Hperm in Hv.
      apply list_elem_of_In in Hv.
      by rewrite (find_none _ _ Hfind v Hv) in Hupper.
Qed.

Lemma chosen_variant_singleton (x : string) : chosen [x] = [x].
Proof.
  destruct (chosen_variant_spec [x]) as (y & -> & Hy & _); [done|].
  by apply list_elem_of_singleton in Hy as ->.
Qed.

(** *** What adding a lemma does to the groups *)

Lemma group_add_keys (k x : string) (groups : list (string * list string)) :
  (group_add k x groups).*1
  = if bool_decide (k ∈ groups.*1) then groups.*1 else groups.*1 ++ [k].
Proof.
  induction groups as [|[key variants] groups IH]; [done|].
  cbn [group_add]. destruct (String.eqb_spec key k) as [->|Hne].
  - rewrite bool_decide_eq_true_2 by (cbn; apply list_elem_of_here). done.
  - cbn [fmap list_fmap fst]. cbn [fmap] in IH. rewrite IH.
    case_bool_decide as Hin.
    + rewrite bool_decide_eq_true_2 by (by apply list_elem_of_further). done.
    + rewrite bool_decide_eq_false_2; [done|].
      intros [?|?]%elem_of_cons; by simplify_eq.
Qed.

Lemma group_add_fresh (k x : string) (groups : list (string * list string)) :
  k ∉ groups.*1 → group_add k x groups = groups ++ [(k, [x])].
Proof.
  induction groups as [|[key variants] groups IH]; intros Hfresh; [done|].
  cbn [group_add]. destruct (String.eqb_spec key k) as [->|Hne].
  - exfalso. apply Hfresh. cbn. apply list_elem_of_here.
  - cbn. f_equal. apply IH. intros Hin. apply Hfresh. cbn.
    by apply list_elem_of_further.
Qed.

(** Every group after the addition was there before, or is the group of
    the key with the lemma added to it. *)
Lemma group_add_elem (k x : string) (groups : list (string * list string))
    (k' : string) (variants' : list string) :
  (k', variants') ∈ group_add k x groups →
  (k', variants') ∈ groups
  ∨ (k' = k ∧ ∃ variants, variants' = set_add x variants
               ∧ (variants = [] ∨ (k, variants) ∈ groups)).
Proof.
  induction groups as [|[key variants] groups IH]; cbn [group_add].
  - intros [= -> ->]%list_elem_of_singleton. right. split; [done|].
    exists []. by split; [|left].
  - destruct (String.eqb_spec key k) as [->|Hne].
    + intros [[= -> ->]|Hin]%elem_of_cons.
      * right. split; [done|]. exists variants. split; [done|].
        right. apply list_elem_of_here.
      * left. by apply list_elem_of_further.
    + intros [[= -> ->]|Hin]%elem_of_cons.
      * left. apply list_elem_of_here.
      * destruct (IH Hin) as [?|(-> & vs & -> & [->|?])].
        -- left. by apply list_elem_of_further.
        -- right. split; [done|]. exists []. by split; [|left].
        -- right. split; [done|]. exists vs. split; [done|].
           right. by apply list_elem_of_further.
Qed.

(** Every group is still there, possibly larger, and the lemma is in the
    group of its key. *)
Lemma group_add_keeps (k x : string) (groups : list (string * list string))
    (k' : string) (variants : list string) :
  (k', variants) ∈ groups →
  ∃ variants', (k', variants') ∈ group_add k x groups
    ∧ ∀ v, v ∈ variants → v ∈ variants'.
Proof.
  induction groups as [|[key vs] groups IH]; [by intros ?%elem_of_nil|].
  cbn [group_add]. destruct (String.eqb_spec key k) as [->|Hne].
  - intros [[= -> ->]|Hin]%elem_of_cons.
    + exists (set_add x vs). split; [apply list_elem_of_here|].
      intros v Hv. apply set_add_elem. by left.
    + exists variants. split; [by apply list_elem_of_further | done].
  - intros [[= -> ->]|Hin]%elem_of_cons.
    + exists vs. split; [apply list_elem_of_here | done].
    + destruct (IH Hin) as (variants' & Hin' & Hsub).
      exists variants'. split; [by apply list_elem_of_further | done].
Qed.

Lemma group_add_has (k x : string) (groups : list (string * list string)) :
  ∃ variants, (k, variants) ∈ group_add k x groups ∧ x ∈ variants.
Proof.
  induction groups as [|[key vs] groups IH]; cbn [group_add].
  - exists [x]. split; apply list_elem_of_here.
  - destruct (String.eqb_spec key k) as [->|Hne].
    + exists (set_add x vs). split; [apply list_elem_of_here|].
      apply set_add_elem. by right.
    + destruct IH as (variants & Hin & Hx).
      exists variants. split; [by apply list_elem_of_further | done].
Qed.

(** *** The groups of a candidate list *)

Lemma groups_ok_step (seen : list string) (groups : list (string * list string))
    (x : string) :
  groups_ok seen groups → groups_ok (seen ++ [x]) (group_step groups x).
Proof.
  intros (Hkeys & Hmembers & Hall). unfold group_step.
  destruct (PyStr.truthy x) eqn:Hx; cbn [negb].
  - apply truthy_nonempty in Hx. split_and!.
    + rewrite group_add_keys. case_bool_decide as Hin; [done|].
      apply NoDup_app. split_and!; [done| |apply NoDup_singleton].
      intros k Hk ->%list_elem_of_singleton. done.
    + intros k' variants' [Hold|(-> & variants & -> & Hvariants)]%group_add_elem.
      * destruct (Hmembers _ _ Hold) as [Hne Hvs]. split; [done|].
        intros v Hv. destruct (Hvs v Hv) as (? & ? & ?).
        split_and!; [|done..]. apply elem_of_app. by left.
      * split; [apply set_add_nonempty|].
        intros v [Hv| ->]%set_add_elem.
        -- destruct Hvariants as [->|Hold]; [by apply elem_of_nil in Hv|].
           destruct (Hmembers _ _ Hold) as [_ Hvs].
           destruct (Hvs v Hv) as (? & ? & ?).
           split_and!; [|done..]. apply elem_of_app. by left.
        -- split_and!; [|done..]. apply elem_of_app. right. apply list_elem_of_here.
    + intros x' [Hseen| ->%list_elem_of_singleton]%elem_of_app Hne.
      * destruct (Hall x' Hseen Hne) as (variants & Hin & Hx').
        destruct (group_add_keeps (PyStr.lower x) x groups _ _ Hin)
          as (variants' & Hin' & Hsub).
        exists variants'. split; [done | by apply Hsub].
      * apply group_add_has.
  - assert (x = "") as -> by (by destruct x). split_and!; [done|..].
    + intros k variants Hin. destruct (Hmembers _ _ Hin) as [Hne Hvs].
      split; [done|]. intros v Hv. destruct (Hvs v Hv) as (? & ? & ?).
      split_and!; [|done..]. apply elem_of_app. by left.
    + intros x' [Hseen| ->%list_elem_of_singleton]%elem_of_app Hne; [|done].
      by apply Hall.
Qed.

Lemma groups_ok_fold (candidates seen : list string)
    (groups : list (string * list string)) :
  groups_ok seen groups →
  groups_ok (seen ++ candidates) (fold_left group_step candidates groups).
Proof.
  revert seen groups. induction candidates as [|x candidates IH]; intros seen groups Hok.
  - by rewrite app_nil_r.
  - cbn [fold_left]. rewrite cons_middle, (assoc_L (++)).
    by apply IH, groups_ok_step.
Qed.

Lemma group_by_lowercase_ok (candidates : list string) :
  groups_ok candidates (group_by_lowercase candidates).
Proof.
  apply (groups_ok_fold candidates [] []).
  split_and!; [apply NoDup_nil_2 | by intros ?? ?%elem_of_nil | by intros ? ?%elem_of_nil].
Qed.

Lemma unique_group (groups : list (string * list string)) (k : string)
    (variants variants' : list string) :
  NoDup groups.*1 → (k, variants) ∈ groups → (k, variants') ∈ groups →
  variants = variants'.
Proof.
  induction groups as [|[key vs] groups IH]; [by intros _ ?%elem_of_nil|].
  cbn [fmap list_fmap fst]. intros [Hfresh Hkeys]%NoDup_cons.
  intros [[= -> ->]|Hin]%elem_of_cons [[= ->]|Hin']%elem_of_cons.
  - done.
  - destruct Hfresh. by apply (list_elem_of_fmap_2 fst _ (key, variants')).
  - simplify_eq. destruct Hfresh. by apply (list_elem_of_fmap_2 fst _ (key, variants)).
  - by apply IH.
Qed.

(** The output lists one representative per group, in the order of the groups. *)
Lemma representatives (groups : list (string * list string)) :
  (∀ k variants, (k, variants) ∈ groups → variants ≠ []) →
  Forall2 (λ y group,
             y ∈ group.2
             ∧ ((∃ v, v ∈ group.2 ∧ PyStr.first_isupper v = true)
                → PyStr.first_isupper y = true))
          (concat (map (λ group, chosen group.2) groups)) groups.
Proof.
  induction groups as [|[k variants] groups IH]; intros Hne; [constructor|].
  cbn [map concat snd].
  destruct (chosen_variant_spec variants) as (y & -> & Hy & Hupper).
  { apply (Hne k). apply list_elem_of_here. }
  constructor; [done|]. apply IH. intros k' vs' Hin.
  apply (Hne k'). by apply list_elem_of_further.
Qed.

Lemma representatives_keys {P : string → string * list string → Prop}
    (reps : list string) (groups : list (string * list string)) :
  Forall2 (λ y group, y ∈ group.2 ∧ P y group) reps groups →
  (∀ k variants v, (k, variants) ∈ groups → v ∈ variants → PyStr.lower v = k) →
  PyStr.lower <$> reps = groups.*1.
Proof.
  induction 1 as [|y [k variants] reps groups [Hin _] _ IH]; intros Hlower; [done|].
  cbn [fmap list_fmap fst]. cbn in Hin. f_equal.
  - apply (Hlower k variants); [apply list_elem_of_here | done].
  - apply IH. intros k' vs' v Hg. apply Hlower. by apply list_elem_of_further.
Qed.

(** What deduplication returns: non-empty candidates, with pairwise
    different lower-cased forms, one for the lower-cased form of every
    non-empty candidate, capitalised when a candidate of the class is. *)
Lemma deduplicate_lemmas_facts (candidates : list string) :
  (∀ y, y ∈ dedup candidates → y ∈ candidates ∧ y ≠ "")
  ∧ NoDup (PyStr.lower <$> dedup candidates)
  ∧ (∀ x, x ∈ candidates → x ≠ "" →
       ∃ y, y ∈ dedup candidates ∧ PyStr.lower y = PyStr.lower x)
  ∧ (∀ x y, x ∈ candidates → PyStr.first_isupper x = true →
       y ∈ dedup candidates → PyStr.lower y = PyStr.lower x →
       PyStr.first_isupper y = true).
Proof.
  destruct (group_by_lowercase_ok candidates) as (Hkeys & Hmembers & Hall).
  pose proof (representatives (group_by_lowercase candidates)
                (λ k vs Hin, proj1 (Hmembers k vs Hin))) as Hreps.
  fold (dedup candidates) in Hreps.
  assert (∀ y, y ∈ dedup candidates →
            ∃ variants, (PyStr.lower y, variants) ∈ group_by_lowercase candidates
              ∧ y ∈ variants
              ∧ ((∃ v, v ∈ variants ∧ PyStr.first_isupper v = true)
                 → PyStr.first_isupper y = true)) as Hgroup.
  { intros y Hy. apply list_elem_of_lookup in Hy as [n Hn].
    destruct (Forall2_lookup_l _ _ _ _ _ Hreps Hn) as ([k variants] & Hg & Hin & Hup).
    cbn in Hin, Hup. apply list_elem_of_lookup_2 in Hg.
    destruct (Hmembers _ _ Hg) as [_ Hvs].
    destruct (Hvs y Hin) as (_ & _ & <-). by exists variants. }
  split_and!.
  - intros y (variants & Hg & Hin & _)%Hgroup.
    destruct (Hmembers _ _ Hg) as [_ Hvs]. by destruct (Hvs y Hin) as (? & ? & _).
  - rewrite (representatives_keys _ _ Hreps); [done|].
    intros k variants v Hg Hv. destruct (Hmembers _ _ Hg) as [_ Hvs].
    by destruct (Hvs v Hv) as (_ & _ & ?).
  - intros x Hx Hne. destruct (Hall x Hx Hne) as (variants & Hg & Hin).
    apply list_elem_of_lookup in Hg as [n Hn].
    destruct (Forall2_lookup_r _ _ _ _ _ Hreps Hn) as (y & Hy & Hyin & _).
    cbn in Hyin. exists y. split; [by eapply list_elem_of_lookup_2|].
    apply list_elem_of_lookup_2 in Hn.
    destruct (Hmembers _ _ Hn) as [_ Hvs]. by destruct (Hvs y Hyin) as (_ & _ & ?).
  - intros x y Hx Hupper (variants & Hg & Hin & Hup)%Hgroup Hlower.
    apply Hup. exists x. split; [|done].
    destruct (Hall x Hx (first_isupper_nonempty _ Hupper)) as (variants' & Hg' & Hin').
    rewrite <- Hlower in Hg'.
    by rewrite (unique_group _ _ _ _ Hkeys Hg Hg').
Qed.

(** C7 (as amended): the output holds non-empty candidates only, at most
    one for each lower-cased form and one for the lower-cased form of
    every non-empty candidate; the representative of a class starts with an
    upper-case character whenever a candidate of the class does; and the
    candidates "apfel" and "Apfel", which have the same lower-cased form and
    of which the second starts with an upper-case character and the first
    does not, collapse to "Apfel" alone. *)
Theorem deduplicate_lemmas_representatives (candidates : list string) :
  (∀ y, y ∈ deduplicate_lemmas set_iter candidates → y ∈ candidates ∧ y ≠ "")
  ∧ NoDup (PyStr.lower <$> deduplicate_lemmas set_iter candidates)
  ∧ (∀ x, x ∈ candidates → x ≠ "" →
       ∃ y, y ∈ deduplicate_lemmas set_iter candidates ∧ PyStr.lower y = PyStr.lower x)
  ∧ (∀ x y, x ∈ candidates → PyStr.first_isupper x = true →
       y ∈ deduplicate_lemmas set_iter candidates → PyStr.lower y = PyStr.lower x →
       PyStr.first_isupper y = true)
  ∧ (PyStr.lower "Apfel" = PyStr.lower "apfel" →
     PyStr.isupper "A" = true → PyStr.isupper "a" = false →
     deduplicate_lemmas set_iter ["apfel"; "Apfel"] = ["Apfel"]
     ∧ deduplicate_lemmas set_iter ["Apfel"; "apfel"] = ["Apfel"]).
Proof.
  destruct (deduplicate_lemmas_facts candidates) as (Hfrom & Hone & Hall & Hupper).
  split_and!; [done..|]. intros Hlower Hcapital Hsmall.
  assert (PyStr.first_isupper "Apfel" = true) as HApfel by exact Hcapital.
  assert (PyStr.first_isupper "apfel" = false) as Hapfel by exact Hsmall.
  split; unfold deduplicate_lemmas, group_by_lowercase; cbn [fold_left];
    unfold group_step; cbn [PyStr.truthy negb group_add];
    rewrite Hlower, String.eqb_refl; cbn [map concat snd]; rewrite app_nil_r.
  - destruct (chosen_variant_spec (set_add "Apfel" (set_add "apfel" [])))
      as (y & -> & Hy & Hup); [done|].
    apply elem_of_cons in Hy as [->|Hy].
    + assert (PyStr.first_isupper "apfel" = true) as Habs; [|congruence].
      apply Hup. exists "Apfel". split; [|done].
      apply list_elem_of_further, list_elem_of_here.
    + by apply list_elem_of_singleton in Hy as ->.
  - destruct (chosen_variant_spec (set_add "apfel" (set_add "Apfel" [])))
      as (y & -> & Hy & Hup); [done|].
    apply elem_of_cons in Hy as [->|Hy]; [done|].
    apply list_elem_of_singleton in Hy as ->.
    assert (PyStr.first_isupper "apfel" = true) as Habs; [|congruence].
    apply Hup. exists "Apfel". split; [apply list_elem_of_here | done].
Qed.

(** *** Idempotence *)

(** Candidates with pairwise different lower-cased forms make one group each. *)
Lemma fold_group_step_distinct (lemmas : list string)
    (groups : list (string * list string)) :
  Forall (λ x, x ≠ "") lemmas →
  NoDup (PyStr.lower <$> lemmas) →
  (∀ x, x ∈ lemmas → PyStr.lower x ∉ groups.*1) →
  fold_left group_step lemmas groups
  = groups ++ ((λ x, (PyStr.lower x, [x])) <$> lemmas).
Proof.
  revert groups. induction lemmas as [|x lemmas IH]; intros groups Hne Hdistinct Hfresh.
  - by rewrite app_nil_r.
  - apply Forall_cons in Hne as [Hx Hne].
    cbn [fmap list_fmap] in Hdistinct. apply NoDup_cons in Hdistinct as [Hnew Hdistinct].
    cbn [fold_left]. unfold group_step at 2.
    apply truthy_nonempty in Hx. rewrite Hx. cbn [negb].
    rewrite group_add_fresh by (apply Hfresh, list_elem_of_here).
    rewrite IH; [by rewrite <- app_assoc|done..|].
    intros x' Hx'. rewrite fmap_app, elem_of_app. intros [Hold|Hsame].
    + by apply (Hfresh x'); [apply list_elem_of_further|].
    + apply list_elem_of_singleton in Hsame. apply Hnew. cbn in Hsame.
      rewrite <- Hsame. by apply list_elem_of_fmap_2.
Qed.

Lemma deduplicate_lemmas_distinct (lemmas : list string) :
  Forall (λ x, x ≠ "") lemmas →
  NoDup (PyStr.lower <$> lemmas) →
  dedup lemmas = lemmas.
Proof.
  intros Hne Hdistinct. unfold deduplicate_lemmas, group_by_lowercase.
  rewrite fold_group_step_distinct by (done || by intros ?? ?%elem_of_nil).
  rewrite app_nil_l. clear Hne Hdistinct.
  induction lemmas as [|x lemmas IH]; [done|].
  cbn [fmap list_fmap map concat snd].
  rewrite chosen_variant_singleton. cbn [fmap] in IH. by rewrite IH.
Qed.

(** C8: deduplicating the output of a deduplication returns it unchanged. *)
Theorem deduplicate_lemmas_idempotent (candidates : list string) :
  deduplicate_lemmas set_iter (deduplicate_lemmas set_iter candidates)
  = deduplicate_lemmas set_iter candidates.
Proof.
  destruct (deduplicate_lemmas_facts candidates) as (Hfrom & Hone & _).
  apply deduplicate_lemmas_distinct; [|done].
  apply Forall_forall. intros y Hy. by apply Hfrom.
Qed.

End DeduplicatorFacts.

Lemma deduplicate_lemmas_representatives_witness :
  (∀ y, y ∈ deduplicate_lemmas (unicode := PyStr.ascii_text) id
              ["apfel"; "Birne"; "Apfel"] →
        y ∈ ["apfel"; "Birne"; "Apfel"] ∧ y ≠ "")
  ∧ NoDup (PyStr.ascii_lower
           <$> deduplicate_lemmas (unicode := PyStr.ascii_text) id
                 ["apfel"; "Birne"; "Apfel"])
  ∧ (∀ x, x ∈ ["apfel"; "Birne"; "Apfel"] → x ≠ "" →
       ∃ y, y ∈ deduplicate_lemmas (unicode := PyStr.ascii_text) id
                  ["apfel"; "Birne"; "Apfel"]
            ∧ PyStr.ascii_lower y = PyStr.ascii_lower x)
  ∧ (∀ x y, x ∈ ["apfel"; "Birne"; "Apfel"] →
       PyStr.first_isupper (unicode := PyStr.ascii_text) x = true →
       y ∈ deduplicate_lemmas (unicode := PyStr.ascii_text) id
             ["apfel"; "Birne"; "Apfel"] →
       PyStr.ascii_lower y = PyStr.ascii_lower x →
       PyStr.first_isupper (unicode := PyStr.ascii_text) y = true)
  ∧ deduplicate_lemmas (unicode := PyStr.ascii_text) id ["apfel"; "Apfel"] = ["Apfel"]
  ∧ deduplicate_lemmas (unicode := PyStr.ascii_text) id ["Apfel"; "apfel"] = ["Apfel"].
Proof.
  destruct (deduplicate_lemmas_representatives (unicode := PyStr.ascii_text) id
              (λ variants, Permutation_refl variants) ["apfel"; "Birne"; "Apfel"])
    as (Hfrom & Hone & Hall & Hupper & Hexample).
  split_and!; [exact Hfrom | exact Hone | exact Hall | exact Hupper |
               apply Hexample; reflexivity | apply Hexample; reflexivity].
Defined.

(** C7 (as stated) fails: an empty candidate is skipped, so its class has
    no representative in the output. *)
Lemma every_class_represented_fails :
  ¬ every_class_represented (unicode := PyStr.ascii_text) id [""].
Proof.
  intros Hclaim. destruct (Hclaim "") as (y & Hy & _); [apply list_elem_of_here|].
  vm_compute in Hy. by apply elem_of_nil in Hy.
Qed.

Lemma deduplicate_lemmas_idempotent_witness :
  deduplicate_lemmas (unicode := PyStr.ascii_text) id
    (deduplicate_lemmas (unicode := PyStr.ascii_text) id
       ["apfel"; "Birne"; "Apfel"; "birne"])
  = deduplicate_lemmas (unicode := PyStr.ascii_text) id
      ["apfel"; "Birne"; "Apfel"; "birne"].
Proof.
  apply (deduplicate_lemmas_idempotent (unicode := PyStr.ascii_text) id).
  intros variants. reflexivity.
Defined.

(** ** The accumulated vocabulary *)

Lemma vocabulary_extends_refl (vocabulary : Vocabulary) :
  vocabulary_extends vocabulary vocabulary.
Proof. split; [done|]. intros lemma form Hform. exists form. by split; [|left]. Qed.

Lemma vocabulary_extends_trans (v1 v2 v3 : Vocabulary) :
  vocabulary_extends v1 v2 → vocabulary_extends v2 v3 → vocabulary_extends v1 v3.
Proof.
  intros [Hinfo12 Hform12] [Hinfo23 Hform23]. split.
  - intros lemma location Hlocation. by apply Hinfo23, Hinfo12.
  - intros lemma form Hform.
    destruct (Hform12 _ _ Hform) as (form2 & Hform2 & Hshorter2).
    destruct (Hform23 _ _ Hform2) as (form3 & Hform3 & Hshorter3).
    exists form3. split; [done|].
    destruct Hshorter2 as [->|?], Hshorter3 as [->|?]; [by left|right..]; lia.
Qed.

(** One step of the merge loop keeps the two dictionaries aligned and
    continues the vocabulary. *)
Lemma merge_lemma_invariant (source_word_form : string) (location : nat * string)
    (vocabulary : Vocabulary) (lemma : string) :
  vocabulary_wf vocabulary →
  vocabulary_wf (merge_lemma source_word_form location vocabulary lemma)
  ∧ vocabulary_extends vocabulary
      (merge_lemma source_word_form location vocabulary lemma).
Proof.
  intros Hwf. unfold merge_lemma.
  destruct (PyStr.truthy lemma); [|by split; [|apply vocabulary_extends_refl]].
  destruct (lemma_to_shortest_form vocabulary !! lemma) as [shortest|] eqn:Hshortest.
  - destruct (PyStr.len source_word_form <? PyStr.len shortest) eqn:Hshorter;
      [|by split; [|apply vocabulary_extends_refl]].
    apply Nat.ltb_lt in Hshorter. split.
    + unfold vocabulary_wf in *. cbn. by rewrite dom_insert_lookup_L.
    + split; [done|]. cbn. intros lemma' form Hform.
      destruct (decide (lemma = lemma')) as [<-|Hne].
      * rewrite lookup_insert_eq. exists source_word_form. split; [done|].
        right. congruence.
      * rewrite lookup_insert_ne by done. exists form. by split; [|left].
  - assert (lemma_to_sentence_info vocabulary !! lemma = None) as Hinfo.
    { apply not_elem_of_dom. rewrite <- Hwf. by apply not_elem_of_dom. }
    split.
    + unfold vocabulary_wf in *. cbn. rewrite !dom_insert_L. by rewrite Hwf.
    + split; cbn.
      * intros lemma' location' Hlocation.
        rewrite lookup_insert_ne by congruence. done.
      * intros lemma' form Hform.
        rewrite lookup_insert_ne by congruence. exists form. by split; [|left].
Qed.

Lemma merge_token_invariant (vocabulary : Vocabulary) (deduplicated_lemmas : list string)
    (source_word_form : string) (location : nat * string) :
  vocabulary_wf vocabulary →
  vocabulary_wf (merge_token vocabulary deduplicated_lemmas source_word_form location)
  ∧ vocabulary_extends vocabulary
      (merge_token vocabulary deduplicated_lemmas source_word_form location).
Proof.
  unfold merge_token. revert vocabulary.
  induction deduplicated_lemmas as [|lemma lemmas IH]; intros vocabulary Hwf.
  - by split; [|apply vocabulary_extends_refl].
  - cbn [fold_left].
    destruct (merge_lemma_invariant source_word_form location vocabulary lemma Hwf)
      as [Hwf1 Hextends1].
    destruct (IH _ Hwf1) as [Hwf2 Hextends2].
    split; [done|]. by eapply vocabulary_extends_trans.
Qed.

Section ExtractorFacts.

Context {unicode : PyStr.Unicode}.

Variable re_search : string → string → option bool.
Variable re_fullmatch : string → string → option bool.
Variable lang : string.
Variable nlp_model : string → list Token.
Variable Automaton : Type.
Variable dissect : string → Automaton → bool → bool → bool → option (list string).
Variable merge_fractions : list string → option (list string).
Variable set_iter : list string → list string.
Variable language : string.
Variable de_dictionary : gset string.
Variable lemma_override_rules : RuleSet.
Variable de_gcs_pos_tags : list string.
Variable gcs_automaton : option Automaton.
Variable args : Args.
Variable opts : Options.

Local Abbreviation unit_step :=
  (process_unit re_search re_fullmatch lang nlp_model Automaton dissect
     merge_fractions set_iter language de_dictionary lemma_override_rules
     de_gcs_pos_tags gcs_automaton args opts).
Local Abbreviation run :=
  (process_units re_search re_fullmatch lang nlp_model Automaton dissect
     merge_fractions set_iter language de_dictionary lemma_override_rules
     de_gcs_pos_tags gcs_automaton args opts).

Lemma empty_vocabulary_wf : vocabulary_wf empty_vocabulary.
Proof. unfold vocabulary_wf. cbn. by rewrite !dom_empty_L. Qed.

Lemma process_unit_invariant (vocabulary : Vocabulary) (unit_index : nat)
    (unit_text : string) :
  vocabulary_wf vocabulary →
  vocabulary_wf (unit_step vocabulary unit_index unit_text)
  ∧ vocabulary_extends vocabulary (unit_step vocabulary unit_index unit_text).
Proof.
  unfold process_unit.
  generalize (find_separable_verb_particle_pairs (nlp_model unit_text)).
  intros separable_verb_map. revert vocabulary.
  induction (nlp_model unit_text) as [|token doc IH]; intros vocabulary Hwf.
  - by split; [|apply vocabulary_extends_refl].
  - cbn [fold_left].
    destruct (is_processed separable_verb_map token).
    + destruct (token_lemmas _ _ _ _ _ _ _ _ _ _ _ _ _ _ _ _ _ _)
        as [deduplicated_lemmas source_word_form].
      destruct (merge_token_invariant vocabulary deduplicated_lemmas source_word_form
                  (unit_index, unit_text) Hwf) as [Hwf1 Hextends1].
      destruct (IH _ Hwf1) as [Hwf2 Hextends2].
      split; [done|]. by eapply vocabulary_extends_trans.
    + by apply IH.
Qed.

Lemma process_units_invariant (text_units : list string) (vocabulary : Vocabulary)
    (unit_index : nat) :
  vocabulary_wf vocabulary →
  vocabulary_wf (run vocabulary unit_index text_units)
  ∧ vocabulary_extends vocabulary (run vocabulary unit_index text_units).
Proof.
  revert vocabulary unit_index.
  induction text_units as [|unit_text text_units IH]; intros vocabulary unit_index Hwf.
  - by split; [|apply vocabulary_extends_refl].
  - cbn [process_units].
    destruct (process_unit_invariant vocabulary unit_index unit_text Hwf)
      as [Hwf1 Hextends1].
    destruct (IH _ (S unit_index) Hwf1) as [Hwf2 Hextends2].
    split; [done|]. by eapply vocabulary_extends_trans.
Qed.

Lemma process_units_app (units_before units_after : list string)
    (vocabulary : Vocabulary) (unit_index : nat) :
  run vocabulary unit_index (units_before ++ units_after)
  = run (run vocabulary unit_index units_before)
        (unit_index + length units_before) units_after.
Proof.
  revert vocabulary unit_index.
  induction units_before as [|unit_text units IH]; intros vocabulary unit_index.
  - cbn. by rewrite Nat.add_0_r.
  - cbn [app process_units length]. rewrite IH. f_equal. lia.
Qed.

(** C9: the merge of one token's lemmas into a vocabulary whose two
    dictionaries hold the same lemmas keeps them so and continues the
    vocabulary: every lemma already recorded keeps its location, and its
    surface form stays or is replaced by a strictly shorter one. The same
    holds from the vocabulary reached after any number of text units, which
    starts empty, to the vocabulary at the end of the input. *)
Theorem vocabulary_grows_monotonically (vocabulary : Vocabulary)
    (deduplicated_lemmas : list string) (source_word_form : string)
    (location : nat * string) (units_before units_after : list string) :
  (vocabulary_wf vocabulary →
   vocabulary_wf (merge_token vocabulary deduplicated_lemmas source_word_form location)
   ∧ vocabulary_extends vocabulary
       (merge_token vocabulary deduplicated_lemmas source_word_form location))
  ∧ vocabulary_wf (run empty_vocabulary 0 units_before)
  ∧ vocabulary_extends (run empty_vocabulary 0 units_before)
      (run empty_vocabulary 0 (units_before ++ units_after)).
Proof.
  split; [apply merge_token_invariant|].
  destruct (process_units_invariant units_before empty_vocabulary 0 empty_vocabulary_wf)
    as [Hwf _].
  split; [done|]. rewrite process_units_app.
  by apply process_units_invariant.
Qed.

End ExtractorFacts.

Lemma vocabulary_grows_monotonically_witness :
  (vocabulary_wf (merge_token example_vocabulary ["gehen"; "Gang"] "ging" (1, "Er ging"))
   ∧ vocabulary_extends example_vocabulary
       (merge_token example_vocabulary ["gehen"; "Gang"] "ging" (1, "Er ging")))
  ∧ vocabulary_wf (example_run ["Wagen"; "Schnellzug"])
  ∧ vocabulary_extends (example_run ["Wagen"; "Schnellzug"])
      (example_run (["Wagen"; "Schnellzug"] ++ ["Zug"; "wagen"])).
Proof.
  destruct (vocabulary_grows_monotonically (unicode := PyStr.ascii_text)
              literal_search literal_fullmatch "de"
              example_nlp unit example_dissect example_merge_fractions id "de" ∅
              no_rules ["NOUN"; "PROPN"; "ADJ"] (Some ()) example_args example_options
              example_vocabulary ["gehen"; "Gang"] "ging" (1, "Er ging")
              ["Wagen"; "Schnellzug"] ["Zug"; "wagen"]) as [Hstep Hrun].
  split; [|exact Hrun].
  apply Hstep. vm_compute. reflexivity.
Defined.

(** ** Examples *)

(** The shorter form replaces the longer one; the location stays. *)
Example merge_keeps_location_and_shortens :
  let after := merge_token example_vocabulary ["gehen"; "Gang"] "ging" (1, "Er ging") in
  lemma_to_shortest_form after !! "gehen" = Some "ging"
  ∧ lemma_to_sentence_info after !! "gehen" = Some (0, "Er ist gegangen")
  ∧ lemma_to_shortest_form after !! "Gang" = Some "ging"
  ∧ lemma_to_sentence_info after !! "Gang" = Some (1, "Er ging").
Proof. vm_compute. done. Qed.

(** A longer form does not replace a shorter one. *)
Example merge_ignores_longer_form :
  merge_token example_vocabulary ["gehen"] "gegangenen" (2, "Die gegangenen")
  = example_vocabulary.
Proof. reflexivity. Qed.

(** Lengths count characters, not bytes. *)
Example len_counts_characters :
  PyStr.len "müssen" = 6 ∧ PyStr.len "mussten" = 7 ∧ PyStr.len "Tür" = 3
  ∧ PyStr.len "Öl" = 2 ∧ PyStr.len "Ü" = 1 ∧ PyStr.len "Füße" = 4
  ∧ PyStr.chars "Füße" = ["F"; "ü"; "ß"; "e"]
  ∧ PyStr.first_char "Ärger" = "Ä" ∧ PyStr.drop 1 "Ärger" = "rger"
  ∧ PyStr.drop_last "Füße" = "Füß" ∧ PyStr.drop_last "Flüsse" = "Flüss".
Proof. repeat split. Qed.

(** The form "müssen" of six characters replaces "mussten" of seven, and
    "Fuess" of five does not replace "Füße" of four. *)
Example merge_counts_characters :
  lemma_to_shortest_form
    (merge_token
       (merge_token empty_vocabulary ["müssen"] "mussten" (0, "Sie mussten gehen"))
       ["müssen"] "müssen" (1, "Sie müssen gehen")) !! "müssen" = Some "müssen"
  ∧ lemma_to_shortest_form
      (merge_token (merge_token empty_vocabulary ["Fuß"] "Füße" (0, "Die Füße"))
         ["Fuß"] "Fuess" (1, "Fuess")) !! "Fuß" = Some "Füße".
Proof. vm_compute. done. Qed.

(** A word of three characters does not pass the gate of the automaton
    split, whatever the number of its bytes. *)
Example automaton_gate_counts_characters :
  automaton_gate unit (example_token "Tür" "NOUN") (Some ()) "de" ["NOUN"]
    example_options = false
  ∧ automaton_gate unit (example_token "Türe" "NOUN") (Some ()) "de" ["NOUN"]
      example_options = true.
Proof. split; reflexivity. Qed.

(** The scenario of the specification: "ging" with the analyzer's lemma
    "gehen" resolves in the first tier, before the rules on the word alone
    and on the lemma alone. *)
Example ging_resolves_in_first_tier :
  get_overridden_lemma_for_word literal_search literal_fullmatch
    "gehen" "ging" example_rule_set "Er ging nach Hause" = "gehen".
Proof. reflexivity. Qed.

(** Without the pair, the rule on the word wins over the rule on the lemma. *)
Example word_tier_before_lemma_tier :
  get_overridden_lemma_for_word literal_search literal_fullmatch
    "gingen" "ging" example_rule_set "Er ging nach Hause" = "laufen"
  ∧ get_overridden_lemma_for_word literal_search literal_fullmatch
      "gehen" "gehst" example_rule_set "Du gehst nach Hause" = "wandern".
Proof. split; reflexivity. Qed.

(** The tiers with a pattern: gated by the lemma, or on the word alone. *)
Example pattern_tiers :
  get_overridden_lemma_for_word literal_search literal_fullmatch
    "Bank" "Bänke" example_rule_set "Die Bänke im Park" = "Sitzbank"
  ∧ get_overridden_lemma_for_word literal_search literal_fullmatch
      "Bank" "Bänke" example_rule_set "Die Bänke der Stadt" = "Bank"
  ∧ get_overridden_lemma_for_word literal_search literal_fullmatch
      "Häuser" "Häuser" example_rule_set "Die Häuser" = "Haus".
Proof. repeat split. Qed.

(** A conditioned rule whose condition is not in the sentence does not
    fire, and the initial lemma is returned when no tier has a result. *)
Example conditioned_rule_needs_its_context :
  get_overridden_lemma_for_word literal_search literal_fullmatch
    "sein" "ist" example_rule_set "Er ist da" = "sein"
  ∧ get_overridden_lemma_for_word literal_search literal_fullmatch
      "sein" "Sein" example_rule_set "Er denkt an das Sein" = "Sein".
Proof. split; reflexivity. Qed.

(** A compound part is looked up by the part in the word tiers and by the
    whole word in the pair tiers. *)
Example compound_part_uses_part_and_word :
  get_overridden_lemma_for_compound_part literal_search literal_fullmatch
    "Tür" "Tür" "Haustür" example_rule_set "Die Haustür" = "Tor"
  ∧ get_overridden_lemma_for_compound_part literal_search literal_fullmatch
      "gehen" "Gang" "ging" example_rule_set "Er ging" = "gehen".
Proof. split; reflexivity. Qed.

(** [_format_gcs_component_case] leaves the first character alone. *)
Example format_gcs_component_case_examples :
  _format_gcs_component_case (unicode := PyStr.ascii_text) "hAUS" = "haus"
  ∧ _format_gcs_component_case (unicode := PyStr.ascii_text) "HAUS" = "Haus"
  ∧ _format_gcs_component_case (unicode := PyStr.ascii_text) "h" = "h"
  ∧ _format_gcs_component_case (unicode := PyStr.ascii_text) "" = "".
Proof. repeat split. Qed.

(** The first character is cut as a character: with the lower-casing of
    Python, "BÜRO" becomes "Büro" and "ÄRGER" becomes "Ärger". *)
Example format_gcs_component_case_umlaut {unicode : PyStr.Unicode} :
  PyStr.lower "ÜRO" = "üro" → PyStr.lower "RGER" = "rger" →
  _format_gcs_component_case "BÜRO" = "Büro"
  ∧ _format_gcs_component_case "ÄRGER" = "Ärger".
Proof.
  intros Hburo Harger. unfold _format_gcs_component_case.
  change (PyStr.drop 1 "BÜRO") with "ÜRO". change (PyStr.drop 1 "ÄRGER") with "RGER".
  rewrite Hburo, Harger. split; reflexivity.
Qed.

(** With the case operations of Python, the variants "äpfel" and "Äpfel"
    are one class, represented by "Äpfel". *)
Example deduplicate_lemmas_umlaut {unicode : PyStr.Unicode} :
  PyStr.lower "Äpfel" = PyStr.lower "äpfel" →
  PyStr.isupper "Ä" = true → PyStr.isupper "ä" = false →
  deduplicate_lemmas id ["äpfel"; "Äpfel"] = ["Äpfel"]
  ∧ deduplicate_lemmas id ["Äpfel"; "äpfel"] = ["Äpfel"].
Proof.
  intros Hlower Hcapital Hsmall.
  assert (PyStr.first_isupper "Äpfel" = true) as HApfel by exact Hcapital.
  assert (PyStr.first_isupper "äpfel" = false) as Hapfel by exact Hsmall.
  split; unfold deduplicate_lemmas, group_by_lowercase; cbn [fold_left];
    unfold group_step; cbn [PyStr.truthy negb group_add];
    rewrite Hlower, String.eqb_refl; cbn [map concat snd]; rewrite app_nil_r.
  - change (set_add "Äpfel" (set_add "äpfel" [])) with ["äpfel"; "Äpfel"].
    unfold chosen_variant, id. cbn [List.find]. by rewrite Hapfel, HApfel.
  - change (set_add "äpfel" (set_add "Äpfel" [])) with ["Äpfel"; "äpfel"].
    unfold chosen_variant, id. cbn [List.find]. by rewrite HApfel.
Qed.

(** With the capitalisation of Python, the genitive "ärgers" is trimmed
    when the dictionary has "Ärger". *)
Example correct_spacy_lemma_umlaut {unicode : PyStr.Unicode} :
  PyStr.capitalize "ärger" = "Ärger" →
  correct_spacy_lemma "de"
    (mkToken "Ärgers" "ärgers" "NOUN" "" 0 0 true false false false ["Gen"])
    {["Ärger"]} true = "ärger".
Proof.
  intros Hcapitalize. unfold correct_spacy_lemma.
  cbn [lemma_ morph_case andb]. change (PyStr.drop_last "ärgers") with "ärger".
  rewrite Hcapitalize. reflexivity.
Qed.

(** A hyphenated token is split on its hyphens and parts of one character
    are dropped. *)
Example hyphen_split_examples :
  PyStr.split "-" "Online-Shop" = ["Online"; "Shop"]
  ∧ example_candidates (example_token "Online-Shop" "NOUN") "Der Online-Shop"
    = ["online"; "shop"]
  ∧ example_candidates (example_token "E-Mail" "NOUN") "Die E-Mail" = ["mail"]
  ∧ example_candidates (example_token "Ü-Wagen" "NOUN") "Der Ü-Wagen" = ["wagen"].
Proof. repeat split. Qed.

(** With both noun modes combined the splitter is called twice and each
    result is taken twice: a word the splitter leaves whole gives a list of
    four components, the token counts as split, and its only candidate is the
    word in the case given to components, not its base lemma. *)
Example combined_mode_splits_whole_word :
  gcs_split_components unit example_dissect example_merge_fractions
    (example_token "NATO" "NOUN") () example_args combined_options
  = Some ["NATO"; "NATO"; "NATO"; "NATO"]
  ∧ (lemmas_for_current_token (unicode := PyStr.ascii_text) literal_search
       literal_fullmatch "de" example_nlp unit example_dissect
       example_merge_fractions id (example_token "NATO" "NOUN") None "Die NATO" "de"
       ∅ no_rules ["NOUN"] (Some ()) example_args combined_options).1 = ["Nato"]
  ∧ base_lemma (unicode := PyStr.ascii_text) literal_search literal_fullmatch "de"
      (example_token "NATO" "NOUN") None "Die NATO" ∅ no_rules example_args
      combined_options = "NATO".
Proof. repeat split. Qed.

(** * Facts on the rest of the program *)

(** ** The rule file *)

Lemma table_append_lookup `{Countable K} (key : K) (rule : OverrideRule)
    (table : gmap K (list OverrideRule)) :
  table_append key rule table !! key = Some (default [] (table !! key) ++ [rule]).
Proof. unfold table_append. apply lookup_insert_eq. Qed.

Lemma table_append_lookup_ne `{Countable K} (key key' : K) (rule : OverrideRule)
    (table : gmap K (list OverrideRule)) :
  key ≠ key' → table_append key rule table !! key' = table !! key'.
Proof. intros Hne. unfold table_append. by apply lookup_insert_ne. Qed.

Section RuleFileFacts.

Context {unicode : PyStr.Unicode}.

(** The loop body files the rule of the row under its route, and does
    nothing for a row without a rule. *)
Lemma load_row_classify (override_rules : RuleSet) (row : list string) :
  load_row override_rules row =
  match classify_row row with
  | Some (route, rule) => add_rule route rule override_rules
  | None => override_rules
  end.
Proof.
  destruct override_rules as [p1 p1r p2 p2r p3].
  unfold load_row, classify_row, is_comment_row.
  destruct row as [|column0 [|column1 [|column2 rest]]]; [done|..];
    destruct (PyStr.startswith column0 "#"); try done.
  destruct (PyStr.truthy (PyStr.strip column2)); [|done].
  destruct (PyStr.truthy (PyStr.strip column0)), (PyStr.truthy (PyStr.strip column1)),
    (PyStr.startswith column1 "regex:"); done.
Qed.

Lemma load_rows_snoc (rows : list (list string)) (row : list string) :
  load_lemma_override_rules (rows ++ [row])
  = load_row (load_lemma_override_rules rows) row.
Proof. unfold load_lemma_override_rules. by rewrite fold_left_app. Qed.

(** What the routing promises of a rule and its key. *)
Lemma classify_row_nonempty (row : list string) (route : Route) (rule : OverrideRule) :
  classify_row row = Some (route, rule) →
  target_lemma rule ≠ ""
  ∧ match route with
    | ToPriority1 lemma word => lemma ≠ "" ∧ word ≠ ""
    | ToPriority1Regex lemma _ => lemma ≠ ""
    | ToPriority2 word => word ≠ ""
    | ToPriority2Regex _ => True
    | ToPriority3 lemma => lemma ≠ ""
    end.
Proof.
  unfold classify_row. destruct (is_comment_row row); [done|].
  destruct row as [|column0 [|column1 [|column2 rest]]]; [done..|].
  destruct (PyStr.truthy (PyStr.strip column2)) eqn:Htarget; [|done].
  destruct (PyStr.truthy (PyStr.strip column0)) eqn:Hlemma,
    (PyStr.truthy (PyStr.strip column1)) eqn:Hword,
    (PyStr.startswith column1 "regex:");
    intros [= <- <-]; cbn; rewrite <- ?truthy_nonempty; done.
Qed.

Lemma table_append_loaded `{Countable K} (P : K → Prop) (key : K) (rule : OverrideRule)
    (table : gmap K (list OverrideRule)) :
  P key → target_lemma rule ≠ "" →
  (∀ key' rules, table !! key' = Some rules →
     P key' ∧ rules ≠ [] ∧ Forall (λ r, target_lemma r ≠ "") rules) →
  ∀ key' rules, table_append key rule table !! key' = Some rules →
    P key' ∧ rules ≠ [] ∧ Forall (λ r, target_lemma r ≠ "") rules.
Proof.
  intros Hkey Htarget Htable key' rules.
  destruct (decide (key = key')) as [<-|Hne].
  - rewrite table_append_lookup. intros [= <-]. split_and!; [done| |].
    + by destruct (default [] (table !! key)).
    + apply Forall_app. split; [|by constructor].
      destruct (table !! key) as [old|] eqn:Hold; [|constructor].
      by destruct (Htable _ _ Hold) as (_ & _ & ?).
  - rewrite table_append_lookup_ne by done. apply Htable.
Qed.

Lemma add_rule_loaded (route : Route) (rule : OverrideRule) (row : list string)
    (override_rules : RuleSet) :
  classify_row row = Some (route, rule) →
  loaded_rule_set override_rules → loaded_rule_set (add_rule route rule override_rules).
Proof.
  intros [Htarget Hroute]%classify_row_nonempty (Hp1 & Hp1r & Hp2 & Hp2r & Hp3).
  destruct route as [lemma word|lemma pattern|word|pattern|lemma]; cbn in Hroute;
    unfold loaded_rule_set; cbn [add_rule priority1 priority1_regex priority2
      priority2_regex priority3]; split_and!; try done.
  - intros key rules Hlookup.
    destruct (table_append_loaded (λ k : string * string, k.1 ≠ "" ∧ k.2 ≠ "")
                (lemma, word) rule (priority1 override_rules)) with key rules
      as ([??] & ? & ?); [done..| |done|done].
    intros key' rules' Hold. by destruct (Hp1 _ _ Hold) as (? & ? & ? & ?).
  - apply Forall_app. split; [done|]. by constructor.
  - by apply (table_append_loaded (λ k : string, k ≠ "")).
  - apply Forall_app. split; [done|]. by constructor.
  - by apply (table_append_loaded (λ k : string, k ≠ "")).
Qed.

Lemma load_rows_loaded (rows : list (list string)) :
  loaded_rule_set (load_lemma_override_rules rows).
Proof.
  induction rows as [|row rows IH] using rev_ind.
  - unfold loaded_rule_set. cbn.
    split_and!; [|apply Forall_nil_2| |apply Forall_nil_2|];
      intros ?? Hlookup; by rewrite lookup_empty in Hlookup.
  - rewrite load_rows_snoc, load_row_classify.
    destruct (classify_row row) as [[route rule]|] eqn:Hrow; [|done].
    by eapply add_rule_loaded.
Qed.

(** X1. Whatever the rows, the loader stores no rule without a target
    lemma, files no rule under an empty key, and leaves no key with an empty
    list of rules. *)
Theorem loader_stores_wellformed_rules (rows : list (list string)) :
  loaded_rule_set (load_lemma_override_rules rows).
Proof. apply load_rows_loaded. Qed.

Lemma rules_routed_to_snoc (route : Route) (rows : list (list string))
    (row : list string) :
  rules_routed_to route (rows ++ [row])
  = rules_routed_to route rows
    ++ match classify_row row with
       | Some (route', rule) => if decide (route' = route) then [rule] else []
       | None => []
       end.
Proof.
  unfold rules_routed_to. rewrite omap_app. f_equal. cbn.
  destruct (classify_row row) as [[route' rule]|]; [|done]. by case_decide.
Qed.

Lemma table_entry_snoc (rules : list OverrideRule) (rule : OverrideRule) :
  table_entry (rules ++ [rule]) = Some (default [] (table_entry rules) ++ [rule]).
Proof. by destruct rules. Qed.

Lemma loader_tables (rows : list (list string)) :
  (∀ lemma word,
     priority1 (load_lemma_override_rules rows) !! (lemma, word)
     = table_entry (rules_routed_to (ToPriority1 lemma word) rows))
  ∧ priority1_regex (load_lemma_override_rules rows)
    = omap priority1_regex_entry rows
  ∧ (∀ word,
       priority2 (load_lemma_override_rules rows) !! word
       = table_entry (rules_routed_to (ToPriority2 word) rows))
  ∧ priority2_regex (load_lemma_override_rules rows)
    = omap priority2_regex_entry rows
  ∧ (∀ lemma,
       priority3 (load_lemma_override_rules rows) !! lemma
       = table_entry (rules_routed_to (ToPriority3 lemma) rows)).
Proof.
  induction rows as [|row rows (IH1 & IH1r & IH2 & IH2r & IH3)] using rev_ind.
  - split_and!; try done; intros; apply lookup_empty.
  - rewrite load_rows_snoc, load_row_classify, !omap_app.
    unfold priority1_regex_entry, priority2_regex_entry.
    split_and!; intros; rewrite ?rules_routed_to_snoc; cbn [omap list_omap];
      destruct (classify_row row) as [[[l w|l p|w|p|l] rule]|];
      cbn [add_rule priority1 priority1_regex priority2 priority2_regex priority3];
      rewrite ?app_nil_r; try done;
      try (by rewrite IH1r); try (by rewrite IH2r);
      try (case_decide as Hroute;
           [injection Hroute as <-; subst;
            rewrite table_append_lookup, table_entry_snoc;
            by rewrite ?IH1, ?IH2, ?IH3
           |rewrite table_append_lookup_ne by congruence; by rewrite app_nil_r]).
Qed.

(** X2. Each exact table holds, under a key, exactly the rules of the rows
    routed to that key, in the order of the file, and each pattern list holds
    the entries of the rows routed to it, in the order of the file. *)
Theorem loader_keeps_file_order (rows : list (list string)) :
  (∀ lemma word,
     priority1 (load_lemma_override_rules rows) !! (lemma, word)
     = table_entry (rules_routed_to (ToPriority1 lemma word) rows))
  ∧ priority1_regex (load_lemma_override_rules rows)
    = omap priority1_regex_entry rows
  ∧ (∀ word,
       priority2 (load_lemma_override_rules rows) !! word
       = table_entry (rules_routed_to (ToPriority2 word) rows))
  ∧ priority2_regex (load_lemma_override_rules rows)
    = omap priority2_regex_entry rows
  ∧ (∀ lemma,
       priority3 (load_lemma_override_rules rows) !! lemma
       = table_entry (rules_routed_to (ToPriority3 lemma) rows)).
Proof. apply loader_tables. Qed.

Lemma classify_skipped_row (row : list string) :
  row = [] ∨ is_comment_row row = true ∨ length row < 3
  ∨ (∃ column0 column1 column2 rest,
       row = column0 :: column1 :: column2 :: rest
       ∧ (PyStr.strip column2 = ""
          ∨ (PyStr.strip column0 = "" ∧ PyStr.strip column1 = ""))) →
  classify_row row = None.
Proof.
  unfold classify_row.
  intros [->|[Hcomment|[Hshort|(c0 & c1 & c2 & rest & -> & Hinvalid)]]].
  - done.
  - by rewrite Hcomment.
  - destruct (is_comment_row row); [done|].
    destruct row as [|? [|? [|? ?]]]; [done..|]. cbn in Hshort. lia.
  - destruct (is_comment_row _); [done|].
    destruct Hinvalid as [->|[-> ->]]; [done|].
    by destruct (PyStr.truthy (PyStr.strip c2)).
Qed.

(** X3. An empty row, a comment, a row of fewer than three columns, a row
    whose target lemma is blank and a row whose lemma and word are both blank
    change nothing: the file loads as if the row were not there. *)
Theorem skipped_rows_have_no_effect (pre post : list (list string))
    (row : list string) :
  row = [] ∨ is_comment_row row = true ∨ length row < 3
  ∨ (∃ column0 column1 column2 rest,
       row = column0 :: column1 :: column2 :: rest
       ∧ (PyStr.strip column2 = ""
          ∨ (PyStr.strip column0 = "" ∧ PyStr.strip column1 = ""))) →
  load_lemma_override_rules (pre ++ row :: post)
  = load_lemma_override_rules (pre ++ post).
Proof.
  intros Hskipped%classify_skipped_row. unfold load_lemma_override_rules.
  rewrite !fold_left_app. cbn [fold_left]. by rewrite load_row_classify, Hskipped.
Qed.

End RuleFileFacts.

Lemma skipped_rows_have_no_effect_witness :
  load_lemma_override_rules (unicode := PyStr.ascii_text)
    ([["gehen"; "ging"; "gehen"]] ++ ["gehen"; " "; "  "] :: [[""; "ging"; "laufen"]])
  = load_lemma_override_rules (unicode := PyStr.ascii_text)
      ([["gehen"; "ging"; "gehen"]] ++ [[""; "ging"; "laufen"]]).
Proof.
  apply (skipped_rows_have_no_effect (unicode := PyStr.ascii_text)
           [["gehen"; "ging"; "gehen"]] [[""; "ging"; "laufen"]] ["gehen"; " "; "  "]).
  right. right. right. exists "gehen", " ", "  ", []. split; [reflexivity|].
  left. reflexivity.
Defined.

(** ** Resolution with a loaded rule set *)

Section LoadedRulesFacts.

Context {unicode : PyStr.Unicode}.

Variable re_search : string → string → option bool.
Variable re_fullmatch : string → string → option bool.

Lemma first_firing_origin (rules : list OverrideRule) (sentence lemma : string) :
  first_firing re_search rules sentence = Some lemma →
  ∃ rule, rule ∈ rules ∧ lemma = target_lemma rule.
Proof.
  induction rules as [|rule rules IH]; [done|]. cbn [first_firing].
  destruct (context_fires re_search rule sentence).
  - intros [= <-]. exists rule. split; [apply list_elem_of_here | done].
  - intros (rule' & Hin & ->)%IH. exists rule'. split; [by apply list_elem_of_further | done].
Qed.

(** A result of the context selection is the target of one of the rules. *)
Lemma find_matching_origin (rules : option (list OverrideRule))
    (sentence lemma : string) :
  find_matching_override_in_context re_search rules sentence = Some lemma →
  ∃ rules' rule, rules = Some rules' ∧ rule ∈ rules' ∧ lemma = target_lemma rule.
Proof.
  destruct rules as [rules|]; [|done]. rewrite find_matching_unfold.
  destruct (first_firing re_search rules sentence) as [fired|] eqn:Hfired.
  - intros [= <-]. apply first_firing_origin in Hfired as (rule & Hin & ->).
    by exists rules, rule.
  - destruct (head _) as [rule|] eqn:Hhead; [|done]. intros [= <-].
    apply head_Some_elem_of, list_elem_of_filter in Hhead as [_ Hin].
    by exists rules, rule.
Qed.

Lemma loop_priority1_regex_origin (entries : list (string * string * OverrideRule))
    (initial_lemma original_word sentence lemma : string) :
  loop_priority1_regex re_search re_fullmatch entries initial_lemma original_word
    sentence = Some lemma →
  ∃ condition pattern rule,
    (condition, pattern, rule) ∈ entries ∧ lemma = target_lemma rule.
Proof.
  induction entries as [|[[condition pattern] rule] entries IH]; [done|].
  cbn [loop_priority1_regex].
  assert (loop_priority1_regex re_search re_fullmatch entries initial_lemma
            original_word sentence = Some lemma →
          ∃ condition' pattern' rule',
            (condition', pattern', rule') ∈ (condition, pattern, rule) :: entries
            ∧ lemma = target_lemma rule') as Hrest.
  { intros (c & p & r & Hin & ->)%IH. exists c, p, r.
    split; [by apply list_elem_of_further | done]. }
  destruct (String.eqb condition initial_lemma); [|done].
  destruct (re_fullmatch pattern original_word) as [[]|]; [|done..].
  destruct (find_matching_override_in_context re_search (Some [rule]) sentence)
    as [found|] eqn:Hfound; [|done].
  intros [= <-]. apply find_matching_origin in Hfound as (? & r & [= <-] & Hin & ->).
  apply list_elem_of_singleton in Hin as ->.
  exists condition, pattern, rule. split; [apply list_elem_of_here | done].
Qed.

Lemma loop_priority2_regex_origin (entries : list (string * OverrideRule))
    (word sentence lemma : string) :
  loop_priority2_regex re_search re_fullmatch entries word sentence = Some lemma →
  ∃ pattern rule, (pattern, rule) ∈ entries ∧ lemma = target_lemma rule.
Proof.
  induction entries as [|[pattern rule] entries IH]; [done|].
  cbn [loop_priority2_regex].
  assert (loop_priority2_regex re_search re_fullmatch entries word sentence
          = Some lemma →
          ∃ pattern' rule',
            (pattern', rule') ∈ (pattern, rule) :: entries
            ∧ lemma = target_lemma rule') as Hrest.
  { intros (p & r & Hin & ->)%IH. exists p, r.
    split; [by apply list_elem_of_further | done]. }
  destruct (re_fullmatch pattern word) as [[]|]; [|done..].
  destruct (find_matching_override_in_context re_search (Some [rule]) sentence)
    as [found|] eqn:Hfound; [|done].
  intros [= <-]. apply find_matching_origin in Hfound as (? & r & [= <-] & Hin & ->).
  apply list_elem_of_singleton in Hin as ->.
  exists pattern, rule. split; [apply list_elem_of_here | done].
Qed.

Lemma compound_part_origin (initial_lemma part original_word : string)
    (override_rules : RuleSet) (sentence : string) :
  get_overridden_lemma_for_compound_part re_search re_fullmatch initial_lemma part
    original_word override_rules sentence = initial_lemma
  ∨ ∃ rule, rule_in rule override_rules
      ∧ get_overridden_lemma_for_compound_part re_search re_fullmatch initial_lemma
          part original_word override_rules sentence = target_lemma rule.
Proof.
  unfold get_overridden_lemma_for_compound_part, rule_in.
  destruct (find_matching_override_in_context re_search
              (priority1 override_rules !! _) sentence) as [found|] eqn:H1.
  { apply find_matching_origin in H1 as (rules & rule & Hlookup & Hin & ->).
    right. exists rule. split; [|done]. left. eauto. }
  destruct (loop_priority1_regex _ _ _ _ _ _) as [found|] eqn:H1r.
  { apply loop_priority1_regex_origin in H1r as (c & p & rule & Hin & ->).
    right. exists rule. split; [|done]. right. left. eauto. }
  destruct (find_matching_override_in_context re_search
              (priority2 override_rules !! _) sentence) as [found|] eqn:H2.
  { apply find_matching_origin in H2 as (rules & rule & Hlookup & Hin & ->).
    right. exists rule. split; [|done]. right. right. left. eauto. }
  destruct (loop_priority2_regex _ _ _ _ _) as [found|] eqn:H2r.
  { apply loop_priority2_regex_origin in H2r as (p & rule & Hin & ->).
    right. exists rule. split; [|done]. do 3 right. left. eauto. }
  destruct (find_matching_override_in_context re_search
              (priority3 override_rules !! _) sentence) as [found|] eqn:H3.
  { apply find_matching_origin in H3 as (rules & rule & Hlookup & Hin & ->).
    right. exists rule. split; [|done]. do 4 right. eauto. }
  by left.
Qed.

(** X4. Resolution never invents a lemma: the result of either operation is
    the initial lemma or the target lemma of a rule of the rule set. *)
Theorem resolution_returns_lemma_or_target (initial_lemma part original_word : string)
    (override_rules : RuleSet) (sentence : string) :
  (get_overridden_lemma_for_word re_search re_fullmatch initial_lemma original_word
     override_rules sentence = initial_lemma
   ∨ ∃ rule, rule_in rule override_rules
       ∧ get_overridden_lemma_for_word re_search re_fullmatch initial_lemma
           original_word override_rules sentence = target_lemma rule)
  ∧ (get_overridden_lemma_for_compound_part re_search re_fullmatch initial_lemma part
       original_word override_rules sentence = initial_lemma
     ∨ ∃ rule, rule_in rule override_rules
         ∧ get_overridden_lemma_for_compound_part re_search re_fullmatch initial_lemma
             part original_word override_rules sentence = target_lemma rule).
Proof.
  split; [|apply compound_part_origin].
  apply (compound_part_origin initial_lemma original_word original_word).
Qed.

Lemma loaded_rule_target_nonempty (rule : OverrideRule) (override_rules : RuleSet) :
  loaded_rule_set override_rules → rule_in rule override_rules →
  target_lemma rule ≠ "".
Proof.
  intros (Hp1 & Hp1r & Hp2 & Hp2r & Hp3)
    [(key & rules & Hlookup & Hin)|[(l & p & Hin)|[(key & rules & Hlookup & Hin)|
     [(p & Hin)|(key & rules & Hlookup & Hin)]]]].
  - destruct (Hp1 _ _ Hlookup) as (_ & _ & _ & Hall).
    by apply (proj1 (Forall_forall _ _) Hall).
  - by destruct (proj1 (Forall_forall _ _) Hp1r _ Hin).
  - destruct (Hp2 _ _ Hlookup) as (_ & _ & Hall).
    by apply (proj1 (Forall_forall _ _) Hall).
  - by apply (proj1 (Forall_forall _ _) Hp2r _ Hin).
  - destruct (Hp3 _ _ Hlookup) as (_ & _ & Hall).
    by apply (proj1 (Forall_forall _ _) Hall).
Qed.

(** X5. With the rules of a loaded file, a lemma that is not empty is never
    resolved to the empty string, as a whole word or as a compound part. *)
Theorem loaded_rules_keep_lemmas_nonempty (rows : list (list string))
    (initial_lemma part original_word sentence : string) :
  initial_lemma ≠ "" →
  get_overridden_lemma_for_word re_search re_fullmatch initial_lemma original_word
    (load_lemma_override_rules rows) sentence ≠ ""
  ∧ get_overridden_lemma_for_compound_part re_search re_fullmatch initial_lemma part
      original_word (load_lemma_override_rules rows) sentence ≠ "".
Proof.
  intros Hne.
  assert (∀ part',
            get_overridden_lemma_for_compound_part re_search re_fullmatch
              initial_lemma part' original_word (load_lemma_override_rules rows)
              sentence ≠ "") as Hpart.
  { intros part'.
    destruct (compound_part_origin initial_lemma part' original_word
                (load_lemma_override_rules rows) sentence)
      as [->|(rule & Hrule & ->)]; [done|].
    eapply loaded_rule_target_nonempty; [apply load_rows_loaded | done]. }
  split; [apply (Hpart original_word) | apply Hpart].
Qed.

(** X6. When every row filed under the pair of a lemma and a word is
    without a context, the first of them decides: the pair is resolved to its
    target, as a whole word and for every part of the word, whatever the
    rules on the word alone, on the lemma alone and on patterns say. *)
Theorem pair_rule_decides (rows : list (list string))
    (initial_lemma part original_word sentence : string)
    (rule : OverrideRule) (others : list OverrideRule) :
  rules_routed_to (ToPriority1 initial_lemma original_word) rows = rule :: others →
  Forall (λ r, has_context r = false) (rule :: others) →
  get_overridden_lemma_for_word re_search re_fullmatch initial_lemma original_word
    (load_lemma_override_rules rows) sentence = target_lemma rule
  ∧ get_overridden_lemma_for_compound_part re_search re_fullmatch initial_lemma part
      original_word (load_lemma_override_rules rows) sentence = target_lemma rule.
Proof.
  intros Hrouted Hplain.
  assert (find_matching_override_in_context re_search
            (priority1 (load_lemma_override_rules rows) !! (initial_lemma, original_word))
            sentence = Some (target_lemma rule)) as Hfirst.
  { destruct (loader_tables rows) as [Hp1 _]. rewrite Hp1, Hrouted. cbn [table_entry].
    pose proof Hplain as Hall.
    rewrite find_matching_unfold, first_firing_none.
    - apply Forall_cons in Hplain as [Hrule _].
      by rewrite (head_filter_first (λ r, has_context r = false) [] others rule Hrule)
        by (by intros ? ?%elem_of_nil).
    - intros r Hr. apply (proj1 (Forall_forall _ _) Hall) in Hr.
      destruct (context_fires re_search r sentence) eqn:Hfires; [|done].
      apply fires_has_context in Hfires. congruence. }
  unfold get_overridden_lemma_for_word, get_overridden_lemma_for_compound_part.
  by rewrite Hfirst.
Qed.

End LoadedRulesFacts.

Lemma loaded_rules_keep_lemmas_nonempty_witness :
  get_overridden_lemma_for_word literal_search literal_fullmatch "gehen" "gehst"
    (load_lemma_override_rules (unicode := PyStr.ascii_text) example_rows)
    "Du gehst im Wald" ≠ ""
  ∧ get_overridden_lemma_for_compound_part literal_search literal_fullmatch "gehen"
      "geh" "gehst"
      (load_lemma_override_rules (unicode := PyStr.ascii_text) example_rows)
      "Du gehst im Wald" ≠ "".
Proof.
  apply (loaded_rules_keep_lemmas_nonempty (unicode := PyStr.ascii_text)
           literal_search literal_fullmatch
           example_rows "gehen" "geh" "gehst" "Du gehst im Wald").
  discriminate.
Defined.

Lemma pair_rule_decides_witness :
  get_overridden_lemma_for_word literal_search literal_fullmatch "kommen" "kam"
    (load_lemma_override_rules (unicode := PyStr.ascii_text) pair_rows)
    "Er kam an" = "ankommen"
  ∧ get_overridden_lemma_for_compound_part literal_search literal_fullmatch "kommen"
      "ka" "kam" (load_lemma_override_rules (unicode := PyStr.ascii_text) pair_rows)
      "Er kam an" = "ankommen".
Proof.
  apply (pair_rule_decides (unicode := PyStr.ascii_text) literal_search
           literal_fullmatch pair_rows
           "kommen" "ka" "kam" "Er kam an" (mkRule "ankommen" None)
           [mkRule "bekommen" None]).
  - reflexivity.
  - repeat (apply Forall_cons; split; [reflexivity|]). apply Forall_nil_2.
Defined.

(** The rule file of the examples, loaded. *)
Example example_rows_loaded :
  let override_rules :=
    load_lemma_override_rules (unicode := PyStr.ascii_text) example_rows in
  priority1 override_rules !! ("gehen", "ging") = Some [mkRule "gehen" None]
  ∧ priority2 override_rules !! "ging" = Some [mkRule "laufen" None]
  ∧ priority3 override_rules !! "gehen" = Some [mkRule "wandern" (Some "im Wald")]
  ∧ priority1_regex override_rules = []
  ∧ get_overridden_lemma_for_word literal_search literal_fullmatch "gehen" "gehst"
      override_rules "Du gehst im Wald" = "wandern".
Proof. vm_compute. done. Qed.

(** The pair of "kommen" and "kam" has two rules; without the pair, the
    word "kam" resolves to the rule on the word and the lemma "kommen" to the
    rule on the lemma. *)
Example pair_rows_loaded :
  let override_rules :=
    load_lemma_override_rules (unicode := PyStr.ascii_text) pair_rows in
  priority1 override_rules !! ("kommen", "kam")
  = Some [mkRule "ankommen" None; mkRule "bekommen" None]
  ∧ get_overridden_lemma_for_word literal_search literal_fullmatch "kam" "kam"
      override_rules "Er kam an" = "Kamm"
  ∧ get_overridden_lemma_for_word literal_search literal_fullmatch "kommen" "kommt"
      override_rules "Er kommt an" = "gehen".
Proof. vm_compute. done. Qed.

(** With the white space of Python, a lemma column that starts with a
    no-break space is filed under the lemma itself, together with the other
    rows of the pair; and a target of white space only loads no rule. *)
Example rows_with_unicode_space {unicode : PyStr.Unicode} :
  PyStr.strip (String "194" (String "160" "gehen")) = "gehen" →
  PyStr.strip "gehen" = "gehen" → PyStr.strip "ging" = "ging" →
  PyStr.strip "A" = "A" → PyStr.strip "B" = "B" → PyStr.strip "ctx" = "ctx" →
  PyStr.strip (String "194" (String "160" "")) = "" →
  priority1
    (load_lemma_override_rules
       [ ["gehen"; "ging"; "A"];
         [String "194" (String "160" "gehen"); "ging"; "B"; "ctx"];
         ["gehen"; ""; String "194" (String "160" "")] ])
    !! ("gehen", "ging")
  = Some [mkRule "A" None; mkRule "B" (Some "ctx")]
  ∧ priority3
      (load_lemma_override_rules
         [ ["gehen"; "ging"; "A"];
           [String "194" (String "160" "gehen"); "ging"; "B"; "ctx"];
           ["gehen"; ""; String "194" (String "160" "")] ])
    = ∅.
Proof.
  intros Hnbsp Hgehen Hging HA HB Hctx Hblank.
  unfold load_lemma_override_rules. cbn [fold_left load_row].
  cbn [PyStr.startswith Ascii.eqb Bool.eqb row_context_condition PyStr.truthy].
  rewrite ?Hnbsp, ?Hgehen, ?Hging, ?HA, ?HB, ?Hctx, ?Hblank.
  cbn [PyStr.truthy negb orb andb priority1 priority1_regex priority2 priority2_regex
       priority3 empty_rule_set].
  split; [|reflexivity].
  unfold table_append. rewrite lookup_insert_eq, lookup_insert_eq. reflexivity.
Qed.

(** ** The frequency index *)

Lemma index_rows_lookup (lemma_index : gmap string nat) (line_number : nat)
    (rows : list (list string)) (x : string) :
  index_rows lemma_index line_number rows !! x =
  match lemma_index !! x with
  | Some rank => Some rank
  | None =>
      (λ found : nat * list string, line_number + found.1)
        <$> list_find (λ row, head row = Some x) rows
  end.
Proof.
  revert lemma_index line_number.
  induction rows as [|row rows IH]; intros lemma_index line_number.
  - cbn. by destruct (lemma_index !! x).
  - cbn [index_rows list_find]. rewrite IH. clear IH.
    destruct row as [|column0 columns]; cbn [head].
    + rewrite decide_False by done.
      destruct (lemma_index !! x); [done|].
      destruct (list_find _ rows) as [[n row]|]; cbn; [f_equal; lia | done].
    + destruct (decide (column0 = x)) as [->|Hne].
      * rewrite decide_True by done.
        destruct (lemma_index !! x) as [rank|] eqn:Hx; [by rewrite Hx|].
        rewrite lookup_insert_eq. cbn. f_equal. lia.
      * rewrite decide_False by congruence.
        assert (match lemma_index !! column0 with
                | Some _ => lemma_index
                | None => <[column0:=line_number]> lemma_index
                end !! x = lemma_index !! x) as ->.
        { destruct (lemma_index !! column0); [done|]. by apply lookup_insert_ne. }
        destruct (lemma_index !! x); [done|].
        destruct (list_find _ rows) as [[n row]|]; cbn; [f_equal; lia | done].
Qed.

Lemma frequency_index_lookup (rows : list (list string)) (x : string) :
  load_lemma_frequency_index (Some rows) !! x
  = fst <$> list_find (λ row, head row = Some x) rows.
Proof.
  unfold load_lemma_frequency_index. rewrite index_rows_lookup, lookup_empty.
  by destruct (list_find _ rows) as [[n row]|].
Qed.

Lemma head_is (row : list string) (x : string) :
  head row = Some x ↔ ∃ columns, row = x :: columns.
Proof.
  destruct row as [|column0 columns]; cbn.
  - split; [done | by intros [??]].
  - split; [intros [= ->]; eauto | by intros [? [= -> _]]].
Qed.

(** X7. The rank of a lemma is the number of the first row, counted from 0
    and blank rows included, whose first column is the lemma; a lemma has no
    rank when no row starts with it. *)
Theorem frequency_index_first_occurrence (rows : list (list string)) (x : string) :
  (∀ rank,
     load_lemma_frequency_index (Some rows) !! x = Some rank ↔
     (∃ columns, rows !! rank = Some (x :: columns))
     ∧ ∀ earlier columns, earlier < rank → rows !! earlier ≠ Some (x :: columns))
  ∧ (load_lemma_frequency_index (Some rows) !! x = None ↔
     ∀ row columns, row ∈ rows → row ≠ x :: columns).
Proof.
  rewrite frequency_index_lookup. split.
  - intros rank. split.
    + destruct (list_find _ rows) as [[n row]|] eqn:Hfind; [|done].
      intros [= <-]. apply list_find_Some in Hfind as (Hrow & [columns ->]%head_is & Hfirst).
      split; [by exists columns|].
      intros earlier columns' Hlt Hearlier.
      apply (Hfirst earlier _ Hearlier Hlt). by apply head_is; exists columns'.
    + intros [[columns Hrow] Hfirst].
      assert (list_find (λ row, head row = Some x) rows = Some (rank, x :: columns))
        as ->; [|done].
      apply list_find_Some. split_and!; [done..|].
      intros earlier row Hearlier Hlt [columns' ->]%head_is.
      by apply (Hfirst earlier columns').
  - rewrite fmap_None, list_find_None, Forall_forall. split.
    + intros Hnone row columns Hin ->. by apply (Hnone _ Hin).
    + intros Hnone row Hin [columns ->]%head_is. by apply (Hnone _ columns Hin).
Qed.

(** X8. Ranks are row numbers: a rank is smaller than the number of rows,
    and two lemmas never have the same rank. A failed reading gives no lemma
    a rank. *)
Theorem frequency_index_ranks_distinct (rows : option (list (list string)))
    (x y : string) (rank : nat) :
  load_lemma_frequency_index rows !! x = Some rank →
  (∃ read, rows = Some read ∧ rank < length read)
  ∧ (load_lemma_frequency_index rows !! y = Some rank → x = y).
Proof.
  destruct rows as [rows|];
    [|unfold load_lemma_frequency_index; by rewrite lookup_empty].
  rewrite !frequency_index_lookup.
  destruct (list_find _ rows) as [[n row]|] eqn:Hx; [|done].
  intros [= <-]. apply list_find_Some in Hx as (Hrow & [columns ->]%head_is & _).
  split.
  - exists rows. split; [done|]. by apply lookup_lt_Some in Hrow.
  - destruct (list_find _ rows) as [[n' row']|] eqn:Hy; [|done].
    intros [= ->]. apply list_find_Some in Hy as (Hrow' & [columns' ->]%head_is & _).
    congruence.
Qed.

Lemma frequency_index_ranks_distinct_witness :
  (∃ read, Some example_index_rows = Some read ∧ 2 < length read)
  ∧ (load_lemma_frequency_index (Some example_index_rows) !! "gehen" = Some 2 →
     "gehen" = "gehen").
Proof.
  apply (frequency_index_ranks_distinct (Some example_index_rows) "gehen" "gehen" 2).
  reflexivity.
Defined.

Example example_index_loaded :
  load_lemma_frequency_index (Some example_index_rows) !! "der" = Some 0
  ∧ load_lemma_frequency_index (Some example_index_rows) !! "gehen" = Some 2
  ∧ load_lemma_frequency_index (Some example_index_rows) !! "Haus" = Some 4
  ∧ load_lemma_frequency_index (Some example_index_rows) !! "haus" = None
  ∧ load_lemma_frequency_index None !! "der" = None.
Proof. vm_compute. done. Qed.

(** ** The final order *)

Lemma string_leb_refl (s : string) : String.leb s s = true.
Proof. by destruct (String.leb_total s s). Qed.

Lemma string_leb_trans (s1 s2 s3 : string) :
  String.leb s1 s2 = true → String.leb s2 s3 = true → String.leb s1 s3 = true.
Proof.
  intros H12%Is_true_true H23%Is_true_true. apply Is_true_true.
  by apply (transitivity (R := String.le) H12 H23).
Qed.

Lemma key_leb_refl (a : bool * nat * string) : key_leb a a = true.
Proof.
  unfold key_leb. rewrite Bool.eqb_reflx, Nat.eqb_refl. apply string_leb_refl.
Qed.

Lemma key_leb_total (a b : bool * nat * string) :
  key_leb a b = false → key_leb b a = true.
Proof.
  destruct a as [[ua ra] la], b as [[ub rb] lb]. unfold key_leb. cbn [fst snd].
  destruct ua, ub; cbn [Bool.eqb negb]; try done.
  all: rewrite (Nat.eqb_sym rb ra); destruct (ra =? rb) eqn:Hrank.
  all: try (intros Hlt; apply Nat.ltb_ge in Hlt; apply Nat.eqb_neq in Hrank;
            apply Nat.ltb_lt; lia).
  all: intros Hle; destruct (String.leb_total la lb); congruence.
Qed.

Lemma key_leb_trans (a b c : bool * nat * string) :
  key_leb a b = true → key_leb b c = true → key_leb a c = true.
Proof.
  destruct a as [[ua ra] la], b as [[ub rb] lb], c as [[uc rc] lc].
  unfold key_leb. cbn [fst snd].
  destruct ua, ub, uc; cbn [Bool.eqb negb]; try done.
  all: destruct (ra =? rb) eqn:Hab, (rb =? rc) eqn:Hbc, (ra =? rc) eqn:Hac;
    rewrite ?Nat.eqb_eq, ?Nat.eqb_neq in *; intros H1 H2;
    rewrite ?Nat.ltb_lt in *; try lia; try (exfalso; lia).
  all: by eapply string_leb_trans.
Qed.

Section SortFacts.

Context {A : Type} (key : A → bool * nat * string).

Local Abbreviation before := (λ a b : A, key_leb (key a) (key b) = true).

Lemma insert_by_key_perm (x : A) (placed : list A) :
  insert_by_key key x placed ≡ₚ x :: placed.
Proof.
  induction placed as [|y placed IH]; [done|]. cbn [insert_by_key].
  destruct (key_leb (key x) (key y)); [done|]. rewrite IH. apply Permutation_swap.
Qed.

Lemma sorted_by_key_perm (xs : list A) : sorted_by_key key xs ≡ₚ xs.
Proof.
  induction xs as [|x xs IH]; [done|]. cbn.
  rewrite insert_by_key_perm. by rewrite IH.
Qed.

Lemma insert_by_key_sorted (x : A) (placed : list A) :
  StronglySorted before placed → StronglySorted before (insert_by_key key x placed).
Proof.
  induction 1 as [|y placed Hsorted IH Hy]; cbn [insert_by_key].
  - repeat constructor.
  - destruct (key_leb (key x) (key y)) eqn:Hxy.
    + constructor; [by constructor|]. constructor; [done|].
      eapply Forall_impl; [exact Hy|]. intros z Hyz. by eapply key_leb_trans.
    + constructor; [done|]. rewrite insert_by_key_perm.
      constructor; [by apply key_leb_total | done].
Qed.

Lemma sorted_by_key_sorted (xs : list A) :
  StronglySorted before (sorted_by_key key xs).
Proof.
  induction xs as [|x xs IH]; [constructor|]. by apply insert_by_key_sorted.
Qed.

(** An element is placed before every element of its own key. *)
Lemma insert_by_key_filter (k : bool * nat * string) (x : A)
    (placed : list A) :
  filter (λ y, key y = k) (insert_by_key key x placed)
  = filter (λ y, key y = k) (x :: placed).
Proof.
  induction placed as [|y placed IH]; [done|]. cbn [insert_by_key].
  destruct (key_leb (key x) (key y)) eqn:Hxy; [done|].
  rewrite filter_cons, IH, !filter_cons.
  destruct (decide (key y = k)) as [Hy|Hy]; [|done].
  destruct (decide (key x = k)) as [Hx|Hx]; [|done].
  rewrite Hx, Hy, key_leb_refl in Hxy. done.
Qed.

Lemma sorted_by_key_stable (k : bool * nat * string) (xs : list A) :
  filter (λ y, key y = k) (sorted_by_key key xs) = filter (λ y, key y = k) xs.
Proof.
  induction xs as [|x xs IH]; [done|]. cbn [sorted_by_key foldr].
  rewrite insert_by_key_filter, !filter_cons. fold (sorted_by_key key xs).
  by rewrite IH.
Qed.

(** Inserting into a list whose first part holds the keys that start with
    [False] and whose second part those that start with [True]. *)
Lemma insert_by_key_split (x : A) (first second : list A) :
  Forall (λ y, (key y).1.1 = false) first →
  Forall (λ y, (key y).1.1 = true) second →
  insert_by_key key x (first ++ second)
  = if (key x).1.1 then first ++ insert_by_key key x second
    else insert_by_key key x first ++ second.
Proof.
  intros Hfirst Hsecond. induction Hfirst as [|y first Hy Hfirst IH].
  - cbn [app]. destruct (key x).1.1 eqn:Hx; [done|].
    destruct second as [|z second]; [done|]. cbn [insert_by_key app].
    apply Forall_cons in Hsecond as [Hz _].
    unfold key_leb. by rewrite Hx, Hz.
  - cbn [app insert_by_key].
    assert ((key x).1.1 = true → key_leb (key x) (key y) = false) as Hafter.
    { intros Hx. unfold key_leb. by rewrite Hx, Hy. }
    destruct (key x).1.1 eqn:Hx.
    + rewrite (Hafter eq_refl). by rewrite IH.
    + destruct (key_leb (key x) (key y)); [done|]. by rewrite IH.
Qed.

Lemma sorted_by_key_split `{∀ x : A, Decision ((key x).1.1 = false)}
    `{∀ x : A, Decision ((key x).1.1 = true)} (xs : list A) :
  sorted_by_key key xs
  = sorted_by_key key (filter (λ x, (key x).1.1 = false) xs)
    ++ sorted_by_key key (filter (λ x, (key x).1.1 = true) xs).
Proof.
  induction xs as [|x xs IH]; [done|]. cbn [sorted_by_key foldr].
  fold (sorted_by_key key xs). rewrite IH, !filter_cons.
  rewrite insert_by_key_split.
  - destruct (decide ((key x).1.1 = false)) as [Hfalse|Hfalse],
      (decide ((key x).1.1 = true)) as [Htrue|Htrue].
    + congruence.
    + by rewrite Hfalse.
    + by rewrite Htrue.
    + by destruct (key x).1.1.
  - apply Forall_forall. intros y Hy. rewrite sorted_by_key_perm in Hy.
    by apply list_elem_of_filter in Hy as [? _].
  - apply Forall_forall. intros y Hy. rewrite sorted_by_key_perm in Hy.
    by apply list_elem_of_filter in Hy as [? _].
Qed.

End SortFacts.

Lemma StronglySorted_weaken {A} (R R' : A → A → Prop) (l : list A) :
  (∀ a b, a ∈ l → b ∈ l → R a b → R' a b) →
  StronglySorted R l → StronglySorted R' l.
Proof.
  intros Himpl Hsorted. induction Hsorted as [|x l Hsorted IH Hx]; [constructor|].
  constructor.
  - apply IH. intros a b Ha Hb. apply Himpl; by apply list_elem_of_further.
  - apply Forall_forall. intros y Hy. apply Himpl.
    + apply list_elem_of_here.
    + by apply list_elem_of_further.
    + by apply (proj1 (Forall_forall _ _) Hx).
Qed.

(** X9. The final sort loses and adds nothing, and puts the lemmas in the
    order of their keys. *)
Theorem sort_lemmas_sorted_permutation {unicode : PyStr.Unicode}
    (lemma_sort_index : gmap string nat) (lemmas : list string) :
  sort_lemmas lemma_sort_index lemmas ≡ₚ lemmas
  ∧ StronglySorted
      (λ a b, key_leb (sort_key lemma_sort_index a) (sort_key lemma_sort_index b) = true)
      (sort_lemmas lemma_sort_index lemmas).
Proof.
  split; [apply sorted_by_key_perm | apply sorted_by_key_sorted].
Qed.

(** X10. The final sort is stable: lemmas with the same key, such as two
    lemmas outside the index that differ in case only, stay in the order in
    which they came. *)
Theorem sort_lemmas_stable {unicode : PyStr.Unicode}
    (lemma_sort_index : gmap string nat) (lemmas : list string)
    (k : bool * nat * string) :
  filter (λ x, sort_key lemma_sort_index x = k) (sort_lemmas lemma_sort_index lemmas)
  = filter (λ x, sort_key lemma_sort_index x = k) lemmas.
Proof. unfold sort_lemmas. by rewrite sorted_by_key_stable. Qed.

Lemma sort_key_indexed {unicode : PyStr.Unicode}
    (lemma_sort_index : gmap string nat) (x : string) :
  (sort_key lemma_sort_index x).1.1 = false ↔ is_Some (lemma_sort_index !! x).
Proof.
  unfold sort_key. cbn. case_bool_decide; split; done.
Qed.

Lemma sort_key_not_indexed {unicode : PyStr.Unicode}
    (lemma_sort_index : gmap string nat) (x : string) :
  (sort_key lemma_sort_index x).1.1 = true ↔ lemma_sort_index !! x = None.
Proof.
  unfold sort_key. cbn. rewrite eq_None_not_Some. case_bool_decide; split; done.
Qed.

(** X11. The lemmas of the index come first, by rising rank, and the lemmas
    outside the index after them, in the order of their lower-cased forms. *)
Theorem indexed_lemmas_first {unicode : PyStr.Unicode}
    (lemma_sort_index : gmap string nat) (lemmas : list string) :
  sort_lemmas lemma_sort_index lemmas
  = sort_lemmas lemma_sort_index
      (filter (λ x, is_Some (lemma_sort_index !! x)) lemmas)
    ++ sort_lemmas lemma_sort_index
         (filter (λ x, lemma_sort_index !! x = None) lemmas)
  ∧ StronglySorted
      (λ a b, default 0 (lemma_sort_index !! a) ≤ default 0 (lemma_sort_index !! b))
      (sort_lemmas lemma_sort_index
         (filter (λ x, is_Some (lemma_sort_index !! x)) lemmas))
  ∧ StronglySorted
      (λ a b, String.leb (PyStr.lower a) (PyStr.lower b) = true)
      (sort_lemmas lemma_sort_index
         (filter (λ x, lemma_sort_index !! x = None) lemmas)).
Proof.
  split_and!.
  - unfold sort_lemmas. rewrite (sorted_by_key_split (sort_key lemma_sort_index)) at 1.
    f_equal; f_equal; apply list_filter_iff; intros x.
    + apply sort_key_indexed.
    + apply sort_key_not_indexed.
  - eapply StronglySorted_weaken; [|apply sorted_by_key_sorted].
    intros a b Ha Hb. fold (sort_lemmas lemma_sort_index) in Ha, Hb.
    unfold sort_lemmas in Ha, Hb.
    rewrite sorted_by_key_perm in Ha, Hb.
    apply list_elem_of_filter in Ha as [Ha%sort_key_indexed _].
    apply list_elem_of_filter in Hb as [Hb%sort_key_indexed _].
    unfold key_leb. rewrite Ha, Hb. cbn [Bool.eqb sort_key fst snd].
    destruct (_ =? _) eqn:Hrank.
    + apply Nat.eqb_eq in Hrank. lia.
    + intros Hlt%Nat.ltb_lt. lia.
  - eapply StronglySorted_weaken; [|apply sorted_by_key_sorted].
    intros a b Ha Hb. fold (sort_lemmas lemma_sort_index) in Ha, Hb.
    unfold sort_lemmas in Ha, Hb.
    rewrite sorted_by_key_perm in Ha, Hb.
    apply list_elem_of_filter in Ha as [Ha _].
    apply list_elem_of_filter in Hb as [Hb _].
    unfold key_leb, sort_key. cbn [fst snd]. rewrite Ha, Hb. done.
Qed.

(** ** The lemmas of a sentence *)

Section SentenceLemmasFacts.

Context {unicode : PyStr.Unicode}.

Variable re_search : string → string → option bool.
Variable re_fullmatch : string → string → option bool.
Variable lang : string.
Variable nlp_model : string → list Token.
Variable Automaton : Type.
Variable dissect : string → Automaton → bool → bool → bool → option (list string).
Variable merge_fractions : list string → option (list string).
Variable set_iter : list string → list string.
Variable de_dictionary : gset string.
Variable lemma_override_rules : RuleSet.
Variable de_gcs_pos_tags : list string.
Variable gcs_automaton : option Automaton.
Variable args : Args.
Variable opts : Options.

Hypothesis set_iter_perm : ∀ variants, set_iter variants ≡ₚ variants.

Local Abbreviation lemmas_of :=
  (token_lemmas re_search re_fullmatch lang nlp_model Automaton dissect
     merge_fractions set_iter lang de_dictionary lemma_override_rules
     de_gcs_pos_tags gcs_automaton args opts).

Lemma final_lemmas_fold (separable_verb_map : gmap nat Token) (sentence : string)
    (document : list Token) (final : gset string) (x : string) :
  x ∈ fold_left (λ (final : gset string) token,
                   if is_processed separable_verb_map token
                   then final ∪ list_to_set (lemmas_of separable_verb_map token sentence).1
                   else final)
                document final
  ↔ x ∈ final
    ∨ ∃ token, token ∈ document ∧ is_processed separable_verb_map token = true
        ∧ x ∈ (lemmas_of separable_verb_map token sentence).1.
Proof.
  revert final. induction document as [|token document IH]; intros final; cbn [fold_left].
  - split; [by left|]. intros [?|(? & []%elem_of_nil & _)]. done.
  - rewrite IH. destruct (is_processed separable_verb_map token) eqn:Hprocessed.
    + rewrite elem_of_union, elem_of_list_to_set. split.
      * intros [[?|?]|(t & ? & ? & ?)]; [by left|right..].
        -- exists token. split_and!; [apply list_elem_of_here|done..].
        -- exists t. split_and!; [by apply list_elem_of_further|done..].
      * intros [?|(t & [->|?]%elem_of_cons & ? & ?)]; [by left; left|by left; right|].
        right. by exists t.
    + split.
      * intros [?|(t & ? & ? & ?)]; [by left|right].
        exists t. split_and!; [by apply list_elem_of_further|done..].
      * intros [?|(t & [->|?]%elem_of_cons & ? & ?)]; [by left|congruence|].
        right. by exists t.
Qed.

(** X12. The list [extract_lemmas_from_sentence] returns is without
    duplicates and in the order of the sort keys; it holds exactly the
    deduplicated lemmas of the tokens that are processed, and never the
    empty string. *)
Theorem extract_lemmas_from_sentence_spec (sentence : string)
    (lemma_sort_index : gmap string nat) :
  let result :=
    extract_lemmas_from_sentence re_search re_fullmatch lang nlp_model Automaton
      dissect merge_fractions set_iter sentence lemma_sort_index de_dictionary
      lemma_override_rules de_gcs_pos_tags gcs_automaton args opts in
  NoDup result
  ∧ StronglySorted
      (λ a b, key_leb (sort_key lemma_sort_index a) (sort_key lemma_sort_index b) = true)
      result
  ∧ (∀ x, x ∈ result ↔
       ∃ token, token ∈ nlp_model sentence
         ∧ is_processed (find_separable_verb_particle_pairs (nlp_model sentence)) token
           = true
         ∧ x ∈ (token_lemmas re_search re_fullmatch lang nlp_model Automaton dissect
                  merge_fractions set_iter lang de_dictionary lemma_override_rules
                  de_gcs_pos_tags gcs_automaton args opts
                  (find_separable_verb_particle_pairs (nlp_model sentence))
                  token sentence).1)
  ∧ "" ∉ result.
Proof.
  intros result. subst result. unfold extract_lemmas_from_sentence.
  assert (∀ x,
    x ∈ sort_lemmas lemma_sort_index
          (set_iter (elements
             (final_lemmas re_search re_fullmatch lang nlp_model Automaton dissect
                merge_fractions set_iter lang de_dictionary lemma_override_rules
                de_gcs_pos_tags gcs_automaton args opts sentence)))
    ↔ ∃ token, token ∈ nlp_model sentence
        ∧ is_processed (find_separable_verb_particle_pairs (nlp_model sentence)) token
          = true
        ∧ x ∈ (lemmas_of (find_separable_verb_particle_pairs (nlp_model sentence))
                 token sentence).1) as Hmembers.
  { intros x. unfold sort_lemmas. rewrite sorted_by_key_perm, set_iter_perm.
    rewrite elem_of_elements. unfold final_lemmas. rewrite final_lemmas_fold.
    split; [intros [[]%elem_of_empty|?]; done | by right]. }
  split_and!.
  - unfold sort_lemmas. rewrite sorted_by_key_perm, set_iter_perm. apply NoDup_elements.
  - apply sorted_by_key_sorted.
  - exact Hmembers.
  - intros (token & _ & _ & Hin)%Hmembers. unfold token_lemmas in Hin.
    destruct (lemmas_for_current_token _ _ _ _ _ _ _ _ _ _ _ _ _ _ _ _ _ _)
      as [candidates form].
    cbn in Hin.
    by destruct (proj1 (deduplicate_lemmas_facts set_iter set_iter_perm candidates) _ Hin).
Qed.

End SentenceLemmasFacts.

Lemma extract_lemmas_from_sentence_spec_witness :
  NoDup (example_extract "Schnellzug" {["zug" := 0]})
  ∧ StronglySorted
      (λ a b, key_leb (sort_key (unicode := PyStr.ascii_text) {["zug" := 0]} a)
                (sort_key (unicode := PyStr.ascii_text) {["zug" := 0]} b) = true)
      (example_extract "Schnellzug" {["zug" := 0]})
  ∧ (∀ x, x ∈ example_extract "Schnellzug" {["zug" := 0]} ↔
       ∃ token, token ∈ example_nlp "Schnellzug"
         ∧ is_processed (find_separable_verb_particle_pairs (example_nlp "Schnellzug"))
             token = true
         ∧ x ∈ (token_lemmas (unicode := PyStr.ascii_text) literal_search
                  literal_fullmatch "de" example_nlp unit example_dissect
                  example_merge_fractions id "de" ∅ no_rules
                  ["NOUN"; "PROPN"; "ADJ"] (Some ()) example_args example_options
                  (find_separable_verb_particle_pairs (example_nlp "Schnellzug"))
                  token "Schnellzug").1)
  ∧ "" ∉ example_extract "Schnellzug" {["zug" := 0]}.
Proof.
  apply (extract_lemmas_from_sentence_spec (unicode := PyStr.ascii_text)
           literal_search literal_fullmatch "de"
           example_nlp unit example_dissect example_merge_fractions id ∅ no_rules
           ["NOUN"; "PROPN"; "ADJ"] (Some ()) example_args example_options
           (λ variants, Permutation_refl variants)
           "Schnellzug" {["zug" := 0]}).
Defined.

(** The lemma of the index comes first, although "schnell" is before "zug"
    in the alphabet. *)
Example example_extract_order :
  example_extract "Schnellzug" {["zug" := 0]} = ["zug"; "schnell"]
  ∧ example_extract "Schnellzug" ∅ = ["schnell"; "zug"]
  ∧ sort_lemmas (unicode := PyStr.ascii_text) {["der" := 0; "Haus" := 7]}
      ["haus"; "Zug"; "Haus"; "apfel"; "der"; "Apfel"]
    = ["der"; "Haus"; "apfel"; "Apfel"; "haus"; "Zug"].
Proof. vm_compute. done. Qed.

(** With the lower-casing of Python, "ärger" comes before "Öl" and after
    "Zebra", and "öl" stays before "Öl" when it was before it. *)
Example sort_lemmas_umlaut {unicode : PyStr.Unicode} :
  PyStr.lower "Öl" = "öl" → PyStr.lower "öl" = "öl" → PyStr.lower "ärger" = "ärger" →
  PyStr.lower "Zebra" = "zebra" → PyStr.lower "apfel" = "apfel" →
  sort_lemmas ∅ ["Öl"; "Zebra"; "ärger"; "apfel"] = ["apfel"; "Zebra"; "ärger"; "Öl"]
  ∧ sort_lemmas ∅ ["öl"; "Öl"] = ["öl"; "Öl"].
Proof.
  intros HOl Hol Harger HZebra Hapfel.
  assert (∀ x, sort_key ∅ x = (true, 0, PyStr.lower x)) as Hkey
    by (intros x; unfold sort_key; by rewrite lookup_empty).
  unfold sort_lemmas, sorted_by_key. cbn [foldr].
  split;
    repeat (cbn [insert_by_key]; rewrite ?Hkey, ?HOl, ?Hol, ?Harger, ?HZebra, ?Hapfel;
            match goal with
            | |- context [key_leb ?a ?b] =>
                let v := eval vm_compute in (key_leb a b) in
                change (key_leb a b) with v; cbn iota
            end);
    reflexivity.
Qed.

(** ** Separable verbs *)

Lemma snoc_split {A} (l pre post : list A) (x p : A) :
  l ++ [x] = pre ++ p :: post →
  (post = [] ∧ p = x ∧ pre = l) ∨ (∃ post', post = post' ++ [x] ∧ l = pre ++ p :: post').
Proof.
  destruct post as [|y post _] using rev_ind.
  - intros Heq. apply app_inj_tail in Heq as [-> ->]. by left.
  - rewrite app_comm_cons, app_assoc. intros [-> ->]%app_inj_tail. right. by exists post.
Qed.

Lemma separable_verb_map_lookup (document : list Token) (verb : nat) (particle : Token) :
  find_separable_verb_particle_pairs document !! verb = Some particle ↔
  ∃ pre post, document = pre ++ particle :: post
    ∧ dep_ particle = "svp" ∧ head_i particle = verb
    ∧ ∀ later, later ∈ post → ¬ (dep_ later = "svp" ∧ head_i later = verb).
Proof.
  unfold find_separable_verb_particle_pairs.
  induction document as [|token document IH] using rev_ind.
  - cbn. rewrite lookup_empty. split; [done|]. intros (pre & post & Heq & _).
    by destruct pre.
  - rewrite fold_left_app. cbn [fold_left].
    destruct (String.eqb_spec (dep_ token) "svp") as [Hsvp|Hsvp];
      [destruct (decide (head_i token = verb)) as [Hverb|Hverb]|].
    + rewrite Hverb, lookup_insert_eq. split.
      * intros [= <-]. exists document, []. split_and!; [done..|].
        by intros ? ?%elem_of_nil.
      * intros (pre & post & [(-> & -> & _)|(post' & -> & _)]%snoc_split & _ & _ & Hlast);
          [done|].
        destruct (Hlast token); [|done]. apply elem_of_app. right. apply list_elem_of_here.
    + rewrite lookup_insert_ne by done. rewrite IH. split.
      * intros (pre & post & -> & ? & ? & Hlast).
        exists pre, (post ++ [token]). rewrite <- app_assoc. split_and!; [done..|].
        intros later [?| ->%list_elem_of_singleton]%elem_of_app; [by apply Hlast|].
        by intros [_ ?].
      * intros (pre & post & [(-> & -> & _)|(post' & -> & ->)]%snoc_split & ? & ? & Hlast);
          [done|].
        exists pre, post'. split_and!; [done..|].
        intros later Hlater. apply Hlast, elem_of_app. by left.
    + rewrite IH. split.
      * intros (pre & post & -> & ? & ? & Hlast).
        exists pre, (post ++ [token]). rewrite <- app_assoc. split_and!; [done..|].
        intros later [?| ->%list_elem_of_singleton]%elem_of_app; [by apply Hlast|].
        by intros [? _].
      * intros (pre & post & [(-> & -> & _)|(post' & -> & ->)]%snoc_split & ? & ? & Hlast);
          [done|].
        exists pre, post'. split_and!; [done..|].
        intros later Hlater. apply Hlast, elem_of_app. by left.
Qed.

(** X13. The particle recorded for a verb is the last token of the document
    with the dependency label [svp] whose head is the verb, and a token
    recorded as a particle is never processed as a token of its own. *)
Theorem separable_verb_map_holds_last_particle (document : list Token) (verb : nat)
    (particle : Token) :
  (find_separable_verb_particle_pairs document !! verb = Some particle ↔
   ∃ pre post, document = pre ++ particle :: post
     ∧ dep_ particle = "svp" ∧ head_i particle = verb
     ∧ ∀ later, later ∈ post → ¬ (dep_ later = "svp" ∧ head_i later = verb))
  ∧ (find_separable_verb_particle_pairs document !! verb = Some particle →
     is_processed (find_separable_verb_particle_pairs document) particle = false).
Proof.
  split; [apply separable_verb_map_lookup|].
  intros Hlookup. unfold is_processed.
  rewrite bool_decide_eq_true_2; [done|].
  apply list_elem_of_fmap. exists particle. split; [done|].
  apply list_elem_of_fmap. exists (verb, particle). split; [done|].
  by apply elem_of_map_to_list.
Qed.

Lemma separable_verb_map_holds_last_particle_witness :
  is_processed (find_separable_verb_particle_pairs example_document)
    (mkToken "auf" "auf" "ADP" "svp" 3 0 true false false false []) = false.
Proof.
  apply (proj2 (separable_verb_map_holds_last_particle example_document 0
                  (mkToken "auf" "auf" "ADP" "svp" 3 0 true false false false []))).
  vm_compute. reflexivity.
Defined.

(** Of two particles of one verb the later one is recorded; the earlier one
    is processed like any other token. *)
Example two_particles_of_one_verb :
  find_separable_verb_particle_pairs example_document !! 0
  = Some (mkToken "auf" "auf" "ADP" "svp" 3 0 true false false false [])
  ∧ is_processed (find_separable_verb_particle_pairs example_document)
      (mkToken "zurück" "zurück" "ADP" "svp" 2 0 true false false false []) = true
  ∧ default_lemma_and_form (unicode := PyStr.ascii_text) "de"
      (mkToken "gibt" "geben" "VERB" "ROOT" 0 0 true false false true [])
      (find_separable_verb_particle_pairs example_document !! 0)
      ∅ example_args example_options
    = ("aufgeben", "gibt auf").
Proof. vm_compute. done. Qed.

(** ** The token normaliser, continued *)

(** X14. For a part the analyzer takes for a noun, the lemma is the
    capitalised analyzer lemma or the capitalised part; it is a word of the
    dictionary whenever one of the two is, and the analyzer lemma is preferred
    when it is in the dictionary. *)
Theorem lemmatize_compound_part_prefers_dictionary {unicode : PyStr.Unicode}
    (nlp_model : string → list Token) (part : string) (de_dictionary : gset string) (token : Token)
    (others : list Token) :
  part ≠ "" →
  is_all_caps part = false →
  has_internal_caps part = false →
  nlp_model part = token :: others →
  is_noun_or_propn token = true →
  (lemmatize_compound_part nlp_model part de_dictionary = PyStr.capitalize (lemma_ token)
   ∨ lemmatize_compound_part nlp_model part de_dictionary = PyStr.capitalize part)
  ∧ (PyStr.capitalize (lemma_ token) ∈ de_dictionary
     ∨ PyStr.capitalize part ∈ de_dictionary →
     lemmatize_compound_part nlp_model part de_dictionary ∈ de_dictionary)
  ∧ (PyStr.capitalize (lemma_ token) ∈ de_dictionary →
     lemmatize_compound_part nlp_model part de_dictionary
     = PyStr.capitalize (lemma_ token)).
Proof.
  intros Hpart%truthy_nonempty Hcaps Hinternal Hdoc Hnoun.
  unfold lemmatize_compound_part. rewrite Hpart, Hcaps, Hinternal, Hdoc, Hnoun.
  cbn [negb orb].
  case_bool_decide as Hlemma; [by split_and!; [left|..]|].
  case_bool_decide as Hcapitalized.
  - split_and!; [by right|done|done].
  - split_and!; [by left| |done]. by intros [?|?].
Qed.

Lemma lemmatize_compound_part_prefers_dictionary_witness :
  (lemmatize_compound_part (unicode := PyStr.ascii_text)
     (λ word, [mkToken word "haus" "NOUN" "" 0 0 true false false false []])
     "hauses" {["Haus"; "Hauses"]} = PyStr.ascii_capitalize "haus"
   ∨ lemmatize_compound_part (unicode := PyStr.ascii_text)
       (λ word, [mkToken word "haus" "NOUN" "" 0 0 true false false false []])
       "hauses" {["Haus"; "Hauses"]} = PyStr.ascii_capitalize "hauses")
  ∧ (PyStr.ascii_capitalize "haus" ∈ ({["Haus"; "Hauses"]} : gset string)
     ∨ PyStr.ascii_capitalize "hauses" ∈ ({["Haus"; "Hauses"]} : gset string) →
     lemmatize_compound_part (unicode := PyStr.ascii_text)
       (λ word, [mkToken word "haus" "NOUN" "" 0 0 true false false false []])
       "hauses" {["Haus"; "Hauses"]} ∈ ({["Haus"; "Hauses"]} : gset string))
  ∧ lemmatize_compound_part (unicode := PyStr.ascii_text)
      (λ word, [mkToken word "haus" "NOUN" "" 0 0 true false false false []])
      "hauses" {["Haus"; "Hauses"]} = "Haus".
Proof.
  destruct (lemmatize_compound_part_prefers_dictionary (unicode := PyStr.ascii_text)
              (λ word, [mkToken word "haus" "NOUN" "" 0 0 true false false false []])
              "hauses" {["Haus"; "Hauses"]}
              (mkToken "hauses" "haus" "NOUN" "" 0 0 true false false false []) [])
    as (Hone & Hdictionary & Hpreferred).
  - discriminate.
  - reflexivity.
  - reflexivity.
  - reflexivity.
  - reflexivity.
  - split_and!; [exact Hone | exact Hdictionary |].
    apply Hpreferred. apply elem_of_union. left. apply elem_of_singleton. reflexivity.
Defined.

Section NormaliserFacts.

Context {unicode : PyStr.Unicode}.

Variable re_search : string → string → option bool.
Variable re_fullmatch : string → string → option bool.
Variable lang : string.
Variable nlp_model : string → list Token.
Variable Automaton : Type.
Variable dissect : string → Automaton → bool → bool → bool → option (list string).
Variable merge_fractions : list string → option (list string).
Variable set_iter : list string → list string.

Lemma format_ignores_sent_start (flag : bool) (token : Token) (initial_lemma : string)
    (args : Args) :
  format_lemma_capitalization lang (with_sent_start flag token) initial_lemma args
  = format_lemma_capitalization lang token initial_lemma args.
Proof.
  destruct token. unfold format_lemma_capitalization, with_sent_start, is_noun_or_propn.
  cbn [text lemma_ pos_ like_url like_email is_sent_start].
  repeat (match goal with |- context [if ?c then _ else _] => destruct c end; try done).
Qed.

(** X15. The sentence-start flag of a token has no effect: its candidates
    and its word form are the same whether the token starts a sentence or
    not. *)
Theorem sentence_start_has_no_effect (flag : bool) (token : Token)
    (particle : option Token) (sentence language : string)
    (de_dictionary : gset string) (rules : RuleSet) (pos_tags : list string)
    (gcs_automaton : option Automaton) (args : Args) (opts : Options) :
  lemmas_for_current_token re_search re_fullmatch lang nlp_model Automaton dissect
    merge_fractions set_iter (with_sent_start flag token) particle sentence language
    de_dictionary rules pos_tags gcs_automaton args opts
  = lemmas_for_current_token re_search re_fullmatch lang nlp_model Automaton dissect
      merge_fractions set_iter token particle sentence language
      de_dictionary rules pos_tags gcs_automaton args opts.
Proof.
  unfold lemmas_for_current_token, default_lemma_and_form.
  rewrite format_ignores_sent_start.
  destruct token. reflexivity.
Qed.

(** X16. With noun capitalisation forced, the genitive correction does give
    the capitalised form: for a German genitive noun whose lemma ends in "s"
    and whose trimmed, capitalised lemma is in the dictionary, the default
    lemma is that dictionary word. *)
Theorem genitive_with_forced_capitalization (token : Token)
    (de_dictionary : gset string) (args : Args) (opts : Options) :
  lang = "de" →
  de_fix_genitive opts = true →
  de_force_noun_capitalization args = true →
  is_noun_or_propn token = true →
  "Gen" ∈ morph_case token →
  PyStr.endswith_char (lemma_ token) "s" = true →
  1 < PyStr.len (lemma_ token) →
  PyStr.capitalize (PyStr.drop_last (lemma_ token)) ∈ de_dictionary →
  like_url token = false → like_email token = false →
  is_all_caps (text token) = false → has_internal_caps (text token) = false →
  default_lemma_and_form lang token None de_dictionary args opts
  = (PyStr.capitalize (PyStr.drop_last (lemma_ token)), text token)
  ∧ (default_lemma_and_form lang token None de_dictionary args opts).1 ∈ de_dictionary.
Proof.
  intros Hlang Hfix Hforce Hnoun Hgen Hs Hlen Hdict Hurl Hemail Hcaps Hinternal.
  assert (default_lemma_and_form lang token None de_dictionary args opts
          = (PyStr.capitalize (PyStr.drop_last (lemma_ token)), text token)) as ->;
    [|done].
  unfold default_lemma_and_form, correct_spacy_lemma, format_lemma_capitalization,
    PyStr.in_list.
  rewrite Hlang, Hfix, Hforce, Hnoun, Hs, Hurl, Hemail, Hcaps, Hinternal.
  rewrite (bool_decide_eq_true_2 _ Hgen), (bool_decide_eq_true_2 _ Hdict).
  apply Nat.ltb_lt in Hlen. by rewrite Hlen.
Qed.

(** X17. A token is left whole when decomposition is disabled and when the
    token is like a URL or an e-mail address: its candidates are exactly its
    base lemma. *)
Theorem undecomposed_token_has_base_lemma (token : Token) (particle : option Token)
    (sentence language : string) (de_dictionary : gset string) (rules : RuleSet)
    (pos_tags : list string) (gcs_automaton : option Automaton) (args : Args)
    (opts : Options) :
  de_gcs opts = false ∨ like_url token = true ∨ like_email token = true →
  (lemmas_for_current_token re_search re_fullmatch lang nlp_model Automaton dissect
     merge_fractions set_iter token particle sentence language de_dictionary rules
     pos_tags gcs_automaton args opts).1
  = [base_lemma re_search re_fullmatch lang token particle sentence de_dictionary
       rules args opts].
Proof.
  intros Hwhole.
  assert (hyphen_gate token opts = false) as Hhyphen.
  { unfold hyphen_gate. destruct Hwhole as [->|[->| ->]]; [done|..].
    - by rewrite andb_false_r.
    - by rewrite orb_true_r, andb_false_r. }
  assert (automaton_gate Automaton token gcs_automaton language pos_tags opts = false)
    as Hgate.
  { unfold automaton_gate. destruct Hwhole as [->|[->| ->]]; [done|..].
    - by rewrite !andb_false_r.
    - by rewrite orb_true_r, !andb_false_r. }
  rewrite candidates_without_hyphen by done. cbn zeta. rewrite Hgate.
  by destruct gcs_automaton.
Qed.


End NormaliserFacts.

Lemma genitive_with_forced_capitalization_witness :
  default_lemma_and_form (unicode := PyStr.ascii_text) "de"
    (mkToken "Vaters" "vaters" "NOUN" "ag" 1 0 true false false false ["Gen"])
    None {["Vater"]} (mkArgs true false "none")
    (mkOptions false true false true false false false)
  = ("Vater", "Vaters")
  ∧ (default_lemma_and_form (unicode := PyStr.ascii_text) "de"
       (mkToken "Vaters" "vaters" "NOUN" "ag" 1 0 true false false false ["Gen"])
       None {["Vater"]} (mkArgs true false "none")
       (mkOptions false true false true false false false)).1
    ∈ ({["Vater"]} : gset string).
Proof.
  apply (genitive_with_forced_capitalization (unicode := PyStr.ascii_text) "de"
           (mkToken "Vaters" "vaters" "NOUN" "ag" 1 0 true false false false ["Gen"])
           {["Vater"]} (mkArgs true false "none")
           (mkOptions false true false true false false false)).
  - reflexivity.
  - reflexivity.
  - reflexivity.
  - reflexivity.
  - apply list_elem_of_here.
  - reflexivity.
  - vm_compute. lia.
  - apply elem_of_singleton. reflexivity.
  - reflexivity.
  - reflexivity.
  - reflexivity.
  - reflexivity.
Defined.

Lemma undecomposed_token_has_base_lemma_witness :
  example_candidates
    (mkToken "Online-Shop.de" "online-shop.de" "X" "" 0 0 false true false false [])
    "Der Online-Shop.de"
  = [example_base_lemma
       (mkToken "Online-Shop.de" "online-shop.de" "X" "" 0 0 false true false false [])
       "Der Online-Shop.de"].
Proof.
  apply (undecomposed_token_has_base_lemma (unicode := PyStr.ascii_text)
           literal_search literal_fullmatch "de"
           example_nlp unit example_dissect example_merge_fractions id
           (mkToken "Online-Shop.de" "online-shop.de" "X" "" 0 0 false true false false [])
           None "Der Online-Shop.de" "de" ∅ no_rules ["NOUN"; "PROPN"; "ADJ"]
           (Some ()) example_args example_options).
  right. left. reflexivity.
Defined.


(** ** The vocabulary, continued *)

Lemma merge_lemma_other (source_word_form : string) (location : nat * string)
    (vocabulary : Vocabulary) (lemma other : string) :
  other ≠ lemma →
  lemma_to_shortest_form (merge_lemma source_word_form location vocabulary lemma) !! other
  = lemma_to_shortest_form vocabulary !! other
  ∧ lemma_to_sentence_info (merge_lemma source_word_form location vocabulary lemma) !! other
    = lemma_to_sentence_info vocabulary !! other.
Proof.
  intros Hne. unfold merge_lemma. destruct (PyStr.truthy lemma); [|done].
  destruct (lemma_to_shortest_form vocabulary !! lemma) as [shortest|].
  - destruct (_ <? _); [|done]. cbn. by rewrite lookup_insert_ne.
  - cbn. by rewrite !lookup_insert_ne.
Qed.

Lemma merge_lemma_empty (source_word_form : string) (location : nat * string)
    (vocabulary : Vocabulary) :
  merge_lemma source_word_form location vocabulary "" = vocabulary.
Proof. done. Qed.

(** X19. The merge of a token touches only the token's lemmas: a lemma that
    is not among them, and the empty string, keep what the two dictionaries
    hold for them. *)
Theorem merge_token_leaves_other_lemmas (vocabulary : Vocabulary)
    (deduplicated_lemmas : list string) (source_word_form : string)
    (location : nat * string) (other : string) :
  other ∉ deduplicated_lemmas ∨ other = "" →
  lemma_to_shortest_form
    (merge_token vocabulary deduplicated_lemmas source_word_form location) !! other
  = lemma_to_shortest_form vocabulary !! other
  ∧ lemma_to_sentence_info
      (merge_token vocabulary deduplicated_lemmas source_word_form location) !! other
    = lemma_to_sentence_info vocabulary !! other.
Proof.
  unfold merge_token. revert vocabulary.
  induction deduplicated_lemmas as [|lemma lemmas IH]; intros vocabulary Hother; [done|].
  cbn [fold_left].
  destruct (IH (merge_lemma source_word_form location vocabulary lemma)) as [-> ->].
  { destruct Hother as [Hother|?]; [left|by right].
    intros ?. apply Hother. by apply list_elem_of_further. }
  destruct (decide (other = lemma)) as [->|Hne]; [|by apply merge_lemma_other].
  destruct Hother as [Hother| ->]; [|by rewrite merge_lemma_empty].
  destruct Hother. apply list_elem_of_here.
Qed.

Lemma merge_token_leaves_other_lemmas_witness :
  lemma_to_shortest_form
    (merge_token example_vocabulary ["Gang"] "ging" (1, "Er ging")) !! "gehen"
  = lemma_to_shortest_form example_vocabulary !! "gehen"
  ∧ lemma_to_sentence_info
      (merge_token example_vocabulary ["Gang"] "ging" (1, "Er ging")) !! "gehen"
    = lemma_to_sentence_info example_vocabulary !! "gehen".
Proof.
  apply (merge_token_leaves_other_lemmas example_vocabulary ["Gang"] "ging"
           (1, "Er ging") "gehen").
  left. intros Hin. apply list_elem_of_singleton in Hin. discriminate Hin.
Defined.

Lemma merge_lemma_same (source_word_form : string) (location : nat * string)
    (vocabulary : Vocabulary) (lemma : string) :
  lemma ≠ "" →
  lemma_to_shortest_form (merge_lemma source_word_form location vocabulary lemma) !! lemma
  = Some match lemma_to_shortest_form vocabulary !! lemma with
         | None => source_word_form
         | Some shortest =>
             if PyStr.len source_word_form <? PyStr.len shortest
             then source_word_form else shortest
         end
  ∧ lemma_to_sentence_info (merge_lemma source_word_form location vocabulary lemma) !! lemma
    = match lemma_to_shortest_form vocabulary !! lemma with
      | None => Some location
      | Some _ => lemma_to_sentence_info vocabulary !! lemma
      end.
Proof.
  intros Hne%truthy_nonempty. unfold merge_lemma. rewrite Hne.
  destruct (lemma_to_shortest_form vocabulary !! lemma) as [shortest|] eqn:Hshortest.
  - destruct (_ <? _); cbn; [by rewrite lookup_insert_eq | done].
  - cbn. by rewrite !lookup_insert_eq.
Qed.

(** Once a lemma has a form that is not longer than the token's, the rest
    of the token's merge leaves the lemma alone. *)
Lemma merge_token_settled (vocabulary : Vocabulary) (lemmas : list string)
    (source_word_form : string) (location : nat * string) (lemma form : string) :
  lemma_to_shortest_form vocabulary !! lemma = Some form →
  PyStr.len form ≤ PyStr.len source_word_form →
  lemma_to_shortest_form (merge_token vocabulary lemmas source_word_form location) !! lemma
  = Some form
  ∧ lemma_to_sentence_info (merge_token vocabulary lemmas source_word_form location) !! lemma
    = lemma_to_sentence_info vocabulary !! lemma.
Proof.
  unfold merge_token. revert vocabulary.
  induction lemmas as [|next lemmas IH]; intros vocabulary Hform Hlength; [done|].
  cbn [fold_left].
  assert (lemma_to_shortest_form (merge_lemma source_word_form location vocabulary next)
            !! lemma = Some form
          ∧ lemma_to_sentence_info (merge_lemma source_word_form location vocabulary next)
              !! lemma = lemma_to_sentence_info vocabulary !! lemma) as [Hform' Hinfo'].
  { destruct (decide (lemma = next)) as [<-|Hne].
    - destruct lemma as [|c lemma]; [by rewrite merge_lemma_empty|].
      destruct (merge_lemma_same source_word_form location vocabulary (String c lemma))
        as [-> ->]; [done|].
      rewrite Hform. apply Nat.ltb_ge in Hlength. by rewrite Hlength.
    - destruct (merge_lemma_other source_word_form location vocabulary next lemma Hne)
        as [-> ->]. done. }
  destruct (IH _ Hform' Hlength) as [-> ->]. done.
Qed.

(** X20. The merge of a token is an insert-or-shorten for each of its
    lemmas: a lemma that was not recorded gets the token's word form and
    location; a recorded lemma keeps its location, and its form is replaced
    by the token's word form exactly when that is strictly shorter. *)
Theorem merge_token_inserts_or_shortens (vocabulary : Vocabulary)
    (deduplicated_lemmas : list string) (source_word_form : string)
    (location : nat * string) (lemma : string) :
  lemma ∈ deduplicated_lemmas → lemma ≠ "" →
  lemma_to_shortest_form
    (merge_token vocabulary deduplicated_lemmas source_word_form location) !! lemma
  = Some match lemma_to_shortest_form vocabulary !! lemma with
         | None => source_word_form
         | Some shortest =>
             if PyStr.len source_word_form <? PyStr.len shortest
             then source_word_form else shortest
         end
  ∧ lemma_to_sentence_info
      (merge_token vocabulary deduplicated_lemmas source_word_form location) !! lemma
    = match lemma_to_shortest_form vocabulary !! lemma with
      | None => Some location
      | Some _ => lemma_to_sentence_info vocabulary !! lemma
      end.
Proof.
  intros Hin Hne. revert vocabulary.
  induction deduplicated_lemmas as [|next lemmas IH]; intros vocabulary;
    [by apply elem_of_nil in Hin|].
  destruct (decide (lemma = next)) as [<-|Hnext].
  - change (merge_token vocabulary (lemma :: lemmas) source_word_form location)
      with (merge_token (merge_lemma source_word_form location vocabulary lemma)
              lemmas source_word_form location).
    destruct (merge_lemma_same source_word_form location vocabulary lemma Hne)
      as [Hform Hinfo].
    destruct (merge_token_settled _ lemmas source_word_form location lemma _ Hform)
      as [-> ->]; [|done].
    destruct (lemma_to_shortest_form vocabulary !! lemma) as [shortest|]; [|done].
    destruct (PyStr.len source_word_form <? PyStr.len shortest) eqn:Hshorter;
      [done|]. by apply Nat.ltb_ge in Hshorter.
  - apply elem_of_cons in Hin as [?|Hin]; [done|].
    change (merge_token vocabulary (next :: lemmas) source_word_form location)
      with (merge_token (merge_lemma source_word_form location vocabulary next)
              lemmas source_word_form location).
    destruct (IH Hin (merge_lemma source_word_form location vocabulary next)) as [-> ->].
    by destruct (merge_lemma_other source_word_form location vocabulary next lemma Hnext)
      as [-> ->].
Qed.

Lemma merge_token_inserts_or_shortens_witness :
  lemma_to_shortest_form
    (merge_token example_vocabulary ["Gang"; "gehen"] "ging" (1, "Er ging")) !! "gehen"
  = Some match lemma_to_shortest_form example_vocabulary !! "gehen" with
         | None => "ging"
         | Some shortest =>
             if PyStr.len "ging" <? PyStr.len shortest then "ging" else shortest
         end
  ∧ lemma_to_sentence_info
      (merge_token example_vocabulary ["Gang"; "gehen"] "ging" (1, "Er ging")) !! "gehen"
    = match lemma_to_shortest_form example_vocabulary !! "gehen" with
      | None => Some (1, "Er ging")
      | Some _ => lemma_to_sentence_info example_vocabulary !! "gehen"
      end.
Proof.
  apply (merge_token_inserts_or_shortens example_vocabulary ["Gang"; "gehen"] "ging"
           (1, "Er ging") "gehen").
  - apply list_elem_of_further, list_elem_of_here.
  - discriminate.
Defined.

Lemma merge_lemma_location (source_word_form : string) (location : nat * string)
    (vocabulary : Vocabulary) (lemma other : string) (recorded : nat * string) :
  lemma_to_sentence_info (merge_lemma source_word_form location vocabulary lemma)
    !! other = Some recorded →
  lemma_to_sentence_info vocabulary !! other = Some recorded
  ∨ (recorded = location ∧ other ≠ "").
Proof.
  unfold merge_lemma. destruct (PyStr.truthy lemma) eqn:Hlemma; [|by left].
  destruct (lemma_to_shortest_form vocabulary !! lemma) as [shortest|].
  - destruct (_ <? _); by left.
  - cbn. destruct (decide (lemma = other)) as [<-|Hne].
    + rewrite lookup_insert_eq. intros [= <-]. right. by apply truthy_nonempty in Hlemma.
    + rewrite lookup_insert_ne by done. by left.
Qed.

Lemma merge_token_locations (text_units : list string) (vocabulary : Vocabulary)
    (lemmas : list string) (source_word_form : string) (location : nat * string) :
  text_units !! location.1 = Some location.2 →
  locations_in text_units vocabulary →
  locations_in text_units (merge_token vocabulary lemmas source_word_form location).
Proof.
  intros Hlocation. unfold merge_token. revert vocabulary.
  induction lemmas as [|lemma lemmas IH]; intros vocabulary Hin; [done|].
  cbn [fold_left]. apply IH. intros other recorded Hrecorded.
  apply merge_lemma_location in Hrecorded as [?|[-> ?]]; [by apply Hin | done].
Qed.

Section VocabularyRunFacts.

Context {unicode : PyStr.Unicode}.

Variable re_search : string → string → option bool.
Variable re_fullmatch : string → string → option bool.
Variable lang : string.
Variable nlp_model : string → list Token.
Variable Automaton : Type.
Variable dissect : string → Automaton → bool → bool → bool → option (list string).
Variable merge_fractions : list string → option (list string).
Variable set_iter : list string → list string.
Variable language : string.
Variable de_dictionary : gset string.
Variable lemma_override_rules : RuleSet.
Variable de_gcs_pos_tags : list string.
Variable gcs_automaton : option Automaton.
Variable args : Args.
Variable opts : Options.

Lemma process_unit_locations (text_units : list string) (vocabulary : Vocabulary)
    (unit_index : nat) (unit_text : string) :
  text_units !! unit_index = Some unit_text →
  locations_in text_units vocabulary →
  locations_in text_units
    (process_unit re_search re_fullmatch lang nlp_model Automaton dissect
       merge_fractions set_iter language de_dictionary lemma_override_rules
       de_gcs_pos_tags gcs_automaton args opts vocabulary unit_index unit_text).
Proof.
  intros Hunit. unfold process_unit.
  generalize (find_separable_verb_particle_pairs (nlp_model unit_text)).
  intros separable_verb_map. revert vocabulary.
  induction (nlp_model unit_text) as [|token doc IH]; intros vocabulary Hin; [done|].
  cbn [fold_left]. apply IH.
  destruct (is_processed separable_verb_map token); [|done].
  destruct (token_lemmas _ _ _ _ _ _ _ _ _ _ _ _ _ _ _ _ _ _) as [lemmas form].
  by apply merge_token_locations.
Qed.

Lemma process_units_locations (read rest : list string) (vocabulary : Vocabulary) :
  locations_in (read ++ rest) vocabulary →
  locations_in (read ++ rest)
    (process_units re_search re_fullmatch lang nlp_model Automaton dissect
       merge_fractions set_iter language de_dictionary lemma_override_rules
       de_gcs_pos_tags gcs_automaton args opts vocabulary (length read) rest).
Proof.
  revert read vocabulary. induction rest as [|unit_text rest IH]; intros read vocabulary Hin;
    [done|].
  cbn [process_units].
  replace (S (length read)) with (length (read ++ [unit_text]))
    by (rewrite length_app; cbn; lia).
  rewrite cons_middle, (assoc_L (++)). apply IH.
  rewrite <- (assoc_L (++)). apply process_unit_locations; [|done].
  by apply list_lookup_middle.
Qed.

(** X21. In the vocabulary built from the text units, no lemma is the empty
    string, the two dictionaries hold the same lemmas, and the location of
    every lemma is a unit of the text: the unit with the recorded index has
    the recorded text. *)
Theorem vocabulary_locations_are_units (text_units : list string) :
  let vocabulary :=
    process_units re_search re_fullmatch lang nlp_model Automaton dissect
      merge_fractions set_iter language de_dictionary lemma_override_rules
      de_gcs_pos_tags gcs_automaton args opts empty_vocabulary 0 text_units in
  ∀ lemma,
    is_Some (lemma_to_shortest_form vocabulary !! lemma) →
    lemma ≠ ""
    ∧ ∃ unit_index unit_text,
        lemma_to_sentence_info vocabulary !! lemma = Some (unit_index, unit_text)
        ∧ text_units !! unit_index = Some unit_text.
Proof.
  intros vocabulary lemma Hlemma. subst vocabulary.
  destruct (process_units_invariant re_search re_fullmatch lang nlp_model Automaton
              dissect merge_fractions set_iter language de_dictionary
              lemma_override_rules de_gcs_pos_tags gcs_automaton args opts
              text_units empty_vocabulary 0 empty_vocabulary_wf) as [Hwf _].
  apply elem_of_dom in Hlemma. rewrite Hwf in Hlemma.
  apply elem_of_dom in Hlemma as [[unit_index unit_text] Hlocation].
  destruct (process_units_locations [] text_units empty_vocabulary) with lemma
    (unit_index, unit_text) as [Hne Hunit]; [|done|].
  { intros ?? Hnone. cbn in Hnone. by rewrite lookup_empty in Hnone. }
  split; [done|]. by exists unit_index, unit_text.
Qed.

End VocabularyRunFacts.

Lemma vocabulary_locations_are_units_witness :
  "zug" ≠ ""
  ∧ ∃ unit_index unit_text,
      lemma_to_sentence_info (example_run ["Wagen"; "Schnellzug"; "Zug"]) !! "zug"
      = Some (unit_index, unit_text)
      ∧ ["Wagen"; "Schnellzug"; "Zug"] !! unit_index = Some unit_text.
Proof.
  apply (vocabulary_locations_are_units (unicode := PyStr.ascii_text)
           literal_search literal_fullmatch "de"
           example_nlp unit example_dissect example_merge_fractions id "de" ∅
           no_rules ["NOUN"; "PROPN"; "ADJ"] (Some ()) example_args example_options
           ["Wagen"; "Schnellzug"; "Zug"] "zug").
  vm_compute. eauto.
Defined.

(** The part "zug" of "Schnellzug" is first seen in the second unit and
    keeps that location; its form is shortened by the third unit. *)
Example example_run_vocabulary :
  lemma_to_sentence_info (example_run ["Wagen"; "Schnellzug"; "Zug"]) !! "zug"
  = Some (1, "Schnellzug")
  ∧ lemma_to_shortest_form (example_run ["Wagen"; "Schnellzug"; "Zug"]) !! "zug"
    = Some "Zug".
Proof. vm_compute. done. Qed.

(** ** Deduplication, continued *)

Section DeduplicatorOrderFacts.

Context {unicode : PyStr.Unicode}.

Variable set_iter : list string → list string.
Hypothesis set_iter_perm : ∀ variants, set_iter variants ≡ₚ variants.

Lemma group_step_keys (groups : list (string * list string)) (x : string) :
  (group_step groups x).*1
  = if PyStr.truthy x then set_add (PyStr.lower x) groups.*1 else groups.*1.
Proof.
  unfold group_step. destruct (PyStr.truthy x); [|done]. cbn [negb].
  rewrite group_add_keys. unfold set_add, PyStr.in_list. done.
Qed.

Lemma fold_group_step_keys (candidates : list string)
    (groups : list (string * list string)) :
  (fold_left group_step candidates groups).*1
  = fold_left (λ variants x, set_add x variants)
      (PyStr.lower <$> filter (λ x, x ≠ "") candidates) groups.*1.
Proof.
  revert groups. induction candidates as [|x candidates IH]; intros groups; [done|].
  cbn [fold_left]. rewrite IH, group_step_keys, filter_cons.
  destruct x as [|c x]; [done|]. by rewrite decide_True.
Qed.

Lemma deduplicate_lemmas_keys (candidates : list string) :
  PyStr.lower <$> deduplicate_lemmas set_iter candidates
  = (group_by_lowercase candidates).*1.
Proof.
  destruct (group_by_lowercase_ok candidates) as (_ & Hmembers & _).
  apply (representatives_keys (P := λ y group,
           (∃ v, v ∈ group.2 ∧ PyStr.first_isupper v = true)
           → PyStr.first_isupper y = true)).
  - apply (representatives set_iter set_iter_perm).
    intros k variants Hin. by destruct (Hmembers _ _ Hin).
  - intros k variants v Hin Hv. destruct (Hmembers _ _ Hin) as [_ Hvs].
    by destruct (Hvs v Hv) as (_ & _ & ?).
Qed.

(** X22. The output follows the input: the lower-cased forms of the output
    are the lower-cased forms of the non-empty candidates, each once, in the
    order of their first occurrence. *)
Theorem deduplicate_lemmas_keeps_first_occurrence_order (candidates : list string) :
  PyStr.lower <$> deduplicate_lemmas set_iter candidates
  = set_of_list (PyStr.lower <$> filter (λ x, x ≠ "") candidates).
Proof.
  rewrite deduplicate_lemmas_keys. unfold group_by_lowercase, set_of_list.
  by rewrite fold_group_step_keys.
Qed.

(** X23. Deduplication returns no more lemmas than it is given, and returns
    a list of non-empty lemmas whose lower-cased forms are pairwise different
    as it is, in the same order. *)
Theorem deduplicate_lemmas_only_removes (candidates : list string) :
  length (deduplicate_lemmas set_iter candidates) ≤ length candidates
  ∧ (Forall (λ x, x ≠ "") candidates → NoDup (PyStr.lower <$> candidates) →
     deduplicate_lemmas set_iter candidates = candidates).
Proof.
  split; [|apply (deduplicate_lemmas_distinct set_iter set_iter_perm)].
  destruct (deduplicate_lemmas_facts set_iter set_iter_perm candidates)
    as (Hfrom & Hone & _).
  apply submseteq_length, NoDup_submseteq.
  - by apply NoDup_fmap_1 in Hone.
  - intros x Hx. by apply Hfrom.
Qed.

End DeduplicatorOrderFacts.

Lemma deduplicate_lemmas_keeps_first_occurrence_order_witness :
  PyStr.ascii_lower
  <$> deduplicate_lemmas (unicode := PyStr.ascii_text) id
        ["Zug"; ""; "apfel"; "zug"; "Apfel"]
  = set_of_list
      (PyStr.ascii_lower <$> filter (λ x, x ≠ "") ["Zug"; ""; "apfel"; "zug"; "Apfel"]).
Proof.
  apply (deduplicate_lemmas_keeps_first_occurrence_order (unicode := PyStr.ascii_text) id).
  intros variants. reflexivity.
Defined.

Lemma deduplicate_lemmas_only_removes_witness :
  length (deduplicate_lemmas (unicode := PyStr.ascii_text) id ["Zug"; "apfel"; "Birne"])
  ≤ length ["Zug"; "apfel"; "Birne"]
  ∧ deduplicate_lemmas (unicode := PyStr.ascii_text) id ["Zug"; "apfel"; "Birne"]
    = ["Zug"; "apfel"; "Birne"].
Proof.
  destruct (deduplicate_lemmas_only_removes (unicode := PyStr.ascii_text) id
              (λ variants, Permutation_refl variants) ["Zug"; "apfel"; "Birne"])
    as [Hlength Hsame].
  split; [exact Hlength|]. apply Hsame.
  - repeat (apply Forall_cons; split; [discriminate|]). apply Forall_nil_2.
  - vm_compute. repeat (apply NoDup_cons; split; [|]).
    + intros Hin. repeat (apply elem_of_cons in Hin as [Hin|Hin]; [discriminate Hin|]).
      by apply elem_of_nil in Hin.
    + intros Hin. repeat (apply elem_of_cons in Hin as [Hin|Hin]; [discriminate Hin|]).
      by apply elem_of_nil in Hin.
    + intros Hin. by apply elem_of_nil in Hin.
    + apply NoDup_nil_2.
Defined.

(** With the sets iterated in reverse, the class of "zug" is represented by
    "Zug" and comes first. *)
Example deduplicate_lemmas_reverse_iteration :
  deduplicate_lemmas (unicode := PyStr.ascii_text) (@rev string)
    ["zug"; ""; "apfel"; "Zug"; "Apfel"] = ["Zug"; "Apfel"]
  ∧ deduplicate_lemmas (unicode := PyStr.ascii_text) (@rev string) ["zug"; "zuG"]
    = ["zuG"]
  ∧ deduplicate_lemmas (unicode := PyStr.ascii_text) id ["zug"; "zuG"] = ["zug"].
Proof. vm_compute. done. Qed.

(** ** The part-of-speech tags *)

Lemma has_negation_spec (user_tags : list string) :
  existsb (λ tag, PyStr.startswith tag "!") user_tags = true ↔
  ∃ tag, tag ∈ user_tags ∧ PyStr.startswith tag "!" = true.
Proof.
  rewrite existsb_exists. split; intros (tag & Hin & Hstart); exists tag;
    (split; [by apply list_elem_of_In | done]).
Qed.

(** X24. As soon as one tag is given with a leading "!", the tags given
    without it are ignored: a tag is selected exactly when it is one of
    [ALL_POS_TAGS] and was not given with a leading "!". *)
Theorem negated_tags_take_precedence (user_tags : list string) (negated tag : string) :
  negated ∈ user_tags → PyStr.startswith negated "!" = true →
  (tag ∈ gcs_target_pos_tags user_tags ↔
   tag ∈ ALL_POS_TAGS ∧ ("!" +:+ tag) ∉ user_tags).
Proof.
  intros Hin Hnegated. unfold gcs_target_pos_tags.
  assert (existsb (λ tag, PyStr.startswith tag "!") user_tags = true) as ->
    by (apply has_negation_spec; eauto).
  rewrite elem_of_difference, elem_of_list_to_set, list_elem_of_fmap.
  split; intros [Hall Hnot]; (split; [done|]).
  - intros Hgiven. apply Hnot. exists ("!" +:+ tag). split; [done|].
    apply list_elem_of_filter. split; [|done]. apply startswith_spec. eauto.
  - intros (given & -> & [Hstart Hgiven]%list_elem_of_filter).
    apply startswith_spec in Hstart as [rest ->]. by apply Hnot.
Qed.

Lemma negated_tags_take_precedence_witness :
  "NOUN" ∈ gcs_target_pos_tags ["ADJ"; "!VERB"; "!AUX"] ↔
  "NOUN" ∈ ALL_POS_TAGS ∧ ("!" +:+ "NOUN") ∉ ["ADJ"; "!VERB"; "!AUX"].
Proof.
  apply (negated_tags_take_precedence ["ADJ"; "!VERB"; "!AUX"] "!VERB" "NOUN").
  - apply list_elem_of_further, list_elem_of_here.
  - reflexivity.
Defined.

(** X25. The default of the option is a list of one string, four tags
    separated by spaces, and it is taken as one tag: with it, and with the
    default the runner passes on, no token whose tag is one of
    [ALL_POS_TAGS] passes the gate of the automaton split. *)
Theorem default_tags_select_no_token (Automaton : Type) (token : Token)
    (gcs_automaton : option Automaton) (language : string) (opts : Options)
    (set_iter : list string → list string) (user_tags : list string) :
  (∀ variants, set_iter variants ≡ₚ variants) →
  user_tags = default_de_gcs_pos_tags ∨ user_tags = runner_default_de_gcs_pos_tags →
  pos_ token ∈ ALL_POS_TAGS →
  automaton_gate Automaton token gcs_automaton language
    (set_iter (elements (gcs_target_pos_tags user_tags))) opts = false.
Proof.
  intros Hperm Htags Hpos. unfold automaton_gate, PyStr.in_list.
  rewrite (bool_decide_eq_false_2 (pos_ token ∈ _)); [by rewrite andb_false_r|].
  rewrite Hperm, elem_of_elements. intros Hselected.
  assert (pos_ token = "NOUN PRON ADV ADJ" ∨ pos_ token = "NOUN PROPN ADV ADJ") as Hone.
  { assert (gcs_target_pos_tags user_tags = list_to_set user_tags) as Hgiven
      by (destruct Htags as [-> | ->]; reflexivity).
    rewrite Hgiven, elem_of_list_to_set in Hselected.
    destruct Htags as [-> | ->]; apply list_elem_of_singleton in Hselected; auto. }
  unfold ALL_POS_TAGS in Hpos. rewrite elem_of_list_to_set in Hpos.
  destruct Hone as [Hone|Hone]; rewrite Hone in Hpos;
    repeat (apply elem_of_cons in Hpos as [Hpos|Hpos]; [discriminate Hpos|]);
    by apply elem_of_nil in Hpos.
Qed.

Lemma default_tags_select_no_token_witness :
  automaton_gate unit (example_token "Schnellzug" "NOUN") (Some ()) "de"
    (id (elements (gcs_target_pos_tags default_de_gcs_pos_tags))) example_options
  = false.
Proof.
  apply (default_tags_select_no_token unit (example_token "Schnellzug" "NOUN")
           (Some ()) "de" example_options id default_de_gcs_pos_tags).
  - intros variants. reflexivity.
  - left. reflexivity.
  - vm_compute. reflexivity.
Defined.

(** Tags given one by one do select. *)
Example given_tags_select :
  gcs_target_pos_tags ["NOUN"; "ADJ"] = {["NOUN"; "ADJ"]}
  ∧ gcs_target_pos_tags ["ADJ"; "ALL"] = ALL_POS_TAGS
  ∧ gcs_target_pos_tags ["NOUN"; "!VERB"] = ALL_POS_TAGS ∖ {["VERB"]}.
Proof. vm_compute. done. Qed.

(** ** The prefix of the output file name *)

Lemma any_char_app (p : ascii → bool) (s1 s2 : string) :
  PyStr.any_char p (s1 +:+ s2) = PyStr.any_char p s1 || PyStr.any_char p s2.
Proof.
  induction s1 as [|c s1 IH]; [done|].
  rewrite app_cons. cbn [PyStr.any_char]. by rewrite IH, orb_assoc.
Qed.

Lemma any_char_rev_app (p : ascii → bool) (s1 s2 : string) :
  PyStr.any_char p (String.rev_app s1 s2) = PyStr.any_char p s1 || PyStr.any_char p s2.
Proof.
  revert s2. induction s1 as [|c s1 IH]; intros s2; [done|].
  cbn [String.rev_app PyStr.any_char]. rewrite IH. cbn [PyStr.any_char].
  by destruct (p c), (PyStr.any_char p s1), (PyStr.any_char p s2).
Qed.

Lemma rev_app_nonempty (s1 s2 : string) : s2 ≠ "" → String.rev_app s1 s2 ≠ "".
Proof.
  revert s2. induction s1 as [|c s1 IH]; intros s2 Hne; [done|].
  cbn [String.rev_app]. by apply IH.
Qed.

Lemma close_run_words (cur : string) :
  PyStr.any_char (λ c, negb (is_word_char c)) cur = false →
  Forall prefix_word (close_run cur).
Proof.
  intros Hcur. destruct cur as [|c cur]; [constructor|].
  cbn [close_run]. constructor; [|constructor]. split.
  - unfold String.rev. cbn [String.rev_app]. by apply rev_app_nonempty.
  - unfold String.rev. by rewrite any_char_rev_app, Hcur.
Qed.

Lemma findall_go_words (cur s : string) :
  PyStr.any_char (λ c, negb (is_word_char c)) cur = false →
  Forall prefix_word (findall_go cur s).
Proof.
  revert cur. induction s as [|c s IH]; intros cur Hcur; cbn [findall_go].
  - by apply close_run_words.
  - destruct (is_word_char c) eqn:Hc.
    + apply IH. cbn [PyStr.any_char]. by rewrite Hc.
    + apply Forall_app. split; [by apply close_run_words | by apply IH].
Qed.

Lemma slice_to_words {A} (P : A → Prop) (n : Z) (xs : list A) :
  Forall P xs → Forall P (slice_to n xs) ∧ ((0 ≤ n)%Z → length (slice_to n xs) ≤ Z.to_nat n).
Proof.
  intros Hxs. unfold slice_to. destruct (0 <=? n)%Z eqn:Hn.
  - split; [by apply Forall_take|]. intros _. rewrite length_take. lia.
  - split; [by apply Forall_take|]. intros ?. apply Z.leb_gt in Hn. lia.
Qed.

Lemma join_safe_chars (words : list string) :
  Forall prefix_word words →
  PyStr.any_char (λ c, negb (is_word_char c || Ascii.eqb c "-")) (join "-" words) = false.
Proof.
  assert (∀ word, prefix_word word →
            PyStr.any_char (λ c, negb (is_word_char c || Ascii.eqb c "-")) word = false)
    as Hword.
  { intros word [_ Hchars]. induction word as [|c word IH]; [done|].
    cbn [PyStr.any_char] in *. apply orb_false_elim in Hchars as [Hc Hrest].
    apply negb_false_iff in Hc. rewrite Hc. cbn. by apply IH. }
  induction 1 as [|word words Hfirst Hrest IH]; [done|].
  destruct words as [|next words]; [by apply Hword|].
  change (join "-" (word :: next :: words))
    with (word +:+ "-" +:+ join "-" (next :: words)).
  rewrite !any_char_app, IH, (Hword _ Hfirst). done.
Qed.

(** X26. Whatever the text and the number, the prefix is made of at most
    that many words (for a number that is not negative), each a non-empty run
    of the characters a-z and 0-9, joined by single hyphens: it holds no
    other character and is empty when there is no such word. *)
Theorem filename_prefix_is_safe (str_lower : string → string) (text : string)
    (word_count : Z) :
  ∃ words,
    generate_filename_prefix_from_text str_lower text word_count = join "-" words
    ∧ Forall prefix_word words
    ∧ ((0 ≤ word_count)%Z → length words ≤ Z.to_nat word_count)
    ∧ PyStr.any_char (λ c, negb (is_word_char c || Ascii.eqb c "-"))
        (generate_filename_prefix_from_text str_lower text word_count) = false.
Proof.
  unfold generate_filename_prefix_from_text.
  destruct (PyStr.truthy text); cbn [negb];
    [|exists []; split_and!; [done|constructor|cbn; lia|done]].
  set (words := findall_words _).
  destruct (slice_to_words prefix_word word_count words) as [Hwords Hcount].
  { by apply findall_go_words. }
  exists (slice_to word_count words).
  assert (match slice_to word_count words with
          | [] => ""
          | _ :: _ => join "-" (slice_to word_count words)
          end = join "-" (slice_to word_count words)) as ->
    by (by destruct (slice_to word_count words)).
  split_and!; [done..|]. by apply join_safe_chars.
Qed.

Example filename_prefix_examples :
  generate_filename_prefix_from_text PyStr.ascii_lower
    "Der große Bär läuft über die Straße, 3 mal!" 4 = "der-grosse-baer-laeuft"
  ∧ generate_filename_prefix_from_text PyStr.ascii_lower "Der große Bär läuft" (-1)
    = "der-grosse-baer"
  ∧ generate_filename_prefix_from_text PyStr.ascii_lower "Der große Bär" 0 = ""
  ∧ generate_filename_prefix_from_text PyStr.ascii_lower "?? !!" 3 = ""
  ∧ generate_filename_prefix_from_text PyStr.ascii_lower "" 3 = "".
Proof. vm_compute. done. Qed.

(** ** The table of parallel sentences *)

Section SentenceTableFacts.

Context {unicode : PyStr.Unicode}.

Lemma sentence_row_length (language : string)
    (source_text_lines target_text_lines : list string)
    (tertiary_text_lines : option (list string)) (sentence_context_size : Z)
    (add_wordlist_col wordlist_use_br : bool) (lemmas : string → list string)
    (i : nat) :
  length (sentence_row language source_text_lines target_text_lines
            tertiary_text_lines sentence_context_size add_wordlist_col
            wordlist_use_br lemmas i) = 80.
Proof.
  unfold sentence_row.
  destruct add_wordlist_col, tertiary_text_lines, (String.eqb language "de"),
    (String.eqb language "en"); by rewrite ?length_insert, length_replicate.
Qed.

Lemma sentence_row_columns (language : string)
    (source_text_lines target_text_lines : list string)
    (tertiary_text_lines : option (list string)) (sentence_context_size : Z)
    (add_wordlist_col wordlist_use_br : bool) (lemmas : string → list string)
    (i : nat) :
  let row :=
    sentence_row language source_text_lines target_text_lines tertiary_text_lines
      sentence_context_size add_wordlist_col wordlist_use_br lemmas i in
  let source_sentence := PyStr.strip (default "" (source_text_lines !! i)) in
  column "Quotation" row = Some source_sentence
  ∧ column "SentenceSource" row = Some source_sentence
  ∧ column "SentenceSourceCloze" row = Some source_sentence
  ∧ column "SentenceDestination" row
    = Some (PyStr.strip (default "" (target_text_lines !! i)))
  ∧ (language = "de" → column "Source-de-DE" row = Some "1")
  ∧ (language = "en" → column "Source-en-GB" row = Some "1").
Proof.
  intros row source_sentence. subst row source_sentence. unfold sentence_row.
  split_and!; try (intros ->);
    destruct add_wordlist_col, tertiary_text_lines; cbn [String.eqb Ascii.eqb Bool.eqb];
    try (destruct (String.eqb language "de"), (String.eqb language "en"));
    reflexivity.
Qed.

(** X27. The table of parallel sentences has one row for each line up to
    the end of the shortest file, after the header when it is asked for;
    every row is as wide as the header. In the row of a line, the columns
    named Quotation, SentenceSource and SentenceSourceCloze hold the stripped
    source line and the column SentenceDestination the stripped target line;
    for German the column Source-de-DE is marked, for English Source-en-GB. *)
Theorem sentence_table_shape (language : string)
    (source_text_lines target_text_lines : list string)
    (tertiary_text_lines : option (list string)) (sentence_context_size : Z)
    (add_wordlist_col add_header wordlist_use_br : bool)
    (lemmas : string → list string) :
  let table :=
    sentence_table language source_text_lines target_text_lines tertiary_text_lines
      sentence_context_size add_wordlist_col add_header wordlist_use_br lemmas in
  let min_length :=
    Nat.min (length source_text_lines)
      (Nat.min (length target_text_lines)
         (from_option length (length target_text_lines) tertiary_text_lines)) in
  let first := if add_header then 1 else 0 in
  length table = first + min_length
  ∧ Forall (λ row, length row = length get_anki_csv_header) table
  ∧ ∀ i, i < min_length →
      ∃ row, table !! (first + i) = Some row
        ∧ column "Quotation" row
          = Some (PyStr.strip (default "" (source_text_lines !! i)))
        ∧ column "SentenceSource" row
          = Some (PyStr.strip (default "" (source_text_lines !! i)))
        ∧ column "SentenceSourceCloze" row
          = Some (PyStr.strip (default "" (source_text_lines !! i)))
        ∧ column "SentenceDestination" row
          = Some (PyStr.strip (default "" (target_text_lines !! i)))
        ∧ (language = "de" → column "Source-de-DE" row = Some "1")
        ∧ (language = "en" → column "Source-en-GB" row = Some "1").
Proof.
  intros table min_length first. subst table. unfold sentence_table.
  assert (foldr Nat.min (length source_text_lines)
            ([length source_text_lines; length target_text_lines]
             ++ match tertiary_text_lines with
                | Some tertiary => [length tertiary]
                | None => []
                end) = min_length) as ->.
  { subst min_length. destruct tertiary_text_lines; cbn; lia. }
  assert (length (if add_header then [get_anki_csv_header] else []) = first) as Hfirst
    by (subst first; by destruct add_header).
  split_and!.
  - by rewrite length_app, length_fmap, length_seq, Hfirst.
  - apply Forall_app. split; [destruct add_header; repeat constructor|].
    apply Forall_fmap, Forall_forall. intros i _. apply sentence_row_length.
  - intros i Hi.
    exists (sentence_row language source_text_lines target_text_lines
              tertiary_text_lines sentence_context_size add_wordlist_col
              wordlist_use_br lemmas i).
    split; [|apply sentence_row_columns].
    rewrite lookup_app_r by lia.
    replace (first + i - _) with i by lia.
    rewrite list_lookup_fmap, lookup_seq_lt by done. done.
Qed.

End SentenceTableFacts.

Lemma sentence_table_shape_witness :
  ∃ row,
    sentence_table (unicode := PyStr.ascii_text) "de"
      ["Guten Tag "; " Auf Wiedersehen"; "Danke"]
      ["Good day"; "Goodbye "] None 1 false true false (λ _, []) !! (1 + 1) = Some row
    ∧ column "Quotation" row = Some "Auf Wiedersehen"
    ∧ column "SentenceSource" row = Some "Auf Wiedersehen"
    ∧ column "SentenceSourceCloze" row = Some "Auf Wiedersehen"
    ∧ column "SentenceDestination" row = Some "Goodbye"
    ∧ ("de" = "de" → column "Source-de-DE" row = Some "1")
    ∧ ("de" = "en" → column "Source-en-GB" row = Some "1").
Proof.
  apply (proj2 (proj2 (sentence_table_shape (unicode := PyStr.ascii_text) "de"
                         ["Guten Tag "; " Auf Wiedersehen"; "Danke"]
                         ["Good day"; "Goodbye "] None 1 false true false (λ _, [])))
           1).
  simpl. lia.
Defined.

(** The second row of a table of two lines, with one line of context. *)
Example sentence_row_example :
  let row :=
    sentence_row (unicode := PyStr.ascii_text) "de"
      ["Guten Tag "; " Auf Wiedersehen"; "Danke"]
      ["Good day"; "Goodbye"] None 1 true true (λ _, ["auf"; "Wiedersehen"]) 1 in
  column "SentenceSourceContextLeft" row = Some "Guten Tag"
  ∧ column "SentenceSource" row = Some "Auf Wiedersehen"
  ∧ column "SentenceSourceContextRight" row = Some "Danke"
  ∧ column "SentenceDestinationContextRight" row = Some ""
  ∧ column "SentenceSourceWordlist" row = Some "auf<br>Wiedersehen"
  ∧ column "Destination-ru-RU" row = Some "1".
Proof. vm_compute. done. Qed.

(** X28. For a context size that is not negative, the context to the left of
    a line is made of the lines just before it, at most as many as the size
    and in their order, and the context to the right of the lines just after
    it: the windows never reach around the ends of the text and never hold
    the line itself. *)
Theorem context_windows {unicode : PyStr.Unicode} (lines : list string) (i : nat)
    (sentence_context_size : Z) :
  (0 ≤ sentence_context_size)%Z → i < length lines →
  joined_context lines (Z.max 0 (Z.of_nat i - sentence_context_size)) (Z.of_nat i)
  = join " " (PyStr.strip <$> drop (i - Z.to_nat sentence_context_size) (take i lines))
  ∧ joined_context lines (Z.of_nat i + 1) (Z.of_nat i + sentence_context_size + 1)
    = join " " (PyStr.strip <$> take (Z.to_nat sentence_context_size) (drop (S i) lines)).
Proof.
  intros Hsize Hi. unfold joined_context, py_slice, slice_bound. split; do 2 f_equal.
  - rewrite (proj2 (Z.ltb_ge _ 0)) by lia. rewrite (proj2 (Z.ltb_ge _ 0)) by lia.
    rewrite !Z.min_l by lia.
    replace (Z.to_nat (Z.max 0 (Z.of_nat i - sentence_context_size)))
      with (i - Z.to_nat sentence_context_size) by lia.
    rewrite take_drop_commute. f_equal. f_equal. lia.
  - rewrite (proj2 (Z.ltb_ge _ 0)) by lia. rewrite (proj2 (Z.ltb_ge _ 0)) by lia.
    rewrite (Z.min_l (Z.of_nat i + 1)) by lia.
    replace (Z.to_nat (Z.of_nat i + 1)) with (S i) by lia.
    destruct (decide (Z.of_nat i + sentence_context_size + 1 ≤ Z.of_nat (length lines))%Z).
    + rewrite Z.min_l by lia. f_equal. lia.
    + rewrite Z.min_r by lia. rewrite !take_ge; [done|rewrite length_drop; lia..].
Qed.

Lemma context_windows_witness :
  joined_context (unicode := PyStr.ascii_text) ["eins"; " zwei"; "drei "; "vier"]
    (Z.max 0 (Z.of_nat 2 - 1)) (Z.of_nat 2)
  = "zwei"
  ∧ joined_context (unicode := PyStr.ascii_text) ["eins"; " zwei"; "drei "; "vier"]
      (Z.of_nat 2 + 1) (Z.of_nat 2 + 1 + 1)
    = "vier".
Proof.
  apply (context_windows (unicode := PyStr.ascii_text)
           ["eins"; " zwei"; "drei "; "vier"] 2 1).
  - lia.
  - simpl. lia.
Defined.

(** With a negative size the right window does reach around: from the
    first line it runs to the line before the last. *)
Example negative_context_size :
  joined_context (unicode := PyStr.ascii_text) ["eins"; "zwei"; "drei"; "vier"]
    (Z.of_nat 0 + 1) (Z.of_nat 0 + -2 + 1)
  = "zwei drei".
Proof. reflexivity. Qed.

Lemma frequency_index_first_occurrence_witness :
  (∃ columns, example_index_rows !! 0 = Some ("der" :: columns))
  ∧ ∀ earlier columns, earlier < 0 → example_index_rows !! earlier ≠ Some ("der" :: columns).
Proof.
  apply (proj1 (proj1 (frequency_index_first_occurrence example_index_rows "der") 0)).
  reflexivity.
Defined.

Lemma filename_prefix_is_safe_witness :
  ∃ words,
    generate_filename_prefix_from_text PyStr.ascii_lower "Der große Bär läuft" 2
    = join "-" words
    ∧ Forall prefix_word words
    ∧ ((0 ≤ 2)%Z → length words ≤ Z.to_nat 2)
    ∧ PyStr.any_char (λ c, negb (is_word_char c || Ascii.eqb c "-"))
        (generate_filename_prefix_from_text PyStr.ascii_lower "Der große Bär läuft" 2) = false.
Proof.
  apply (filename_prefix_is_safe PyStr.ascii_lower "Der große Bär läuft" 2).
Defined.
